(** * Voice mode relay of langflow: a shallow embedding and its properties

    Embedded sources:
    - [langflow/api/v1/voice_mode.py]: the text chunkers, the tool-call
      handler, the session setup, the VAD monitor, the two socket pumps and
      the speech client of [flow_as_tool_websocket], and the event loop of
      [flow_audio_websocket];
    - [langflow/utils/voice_utils.py]: the audio constants and the resampler.

    Python values are modelled as the interpreter has them: a [str] is a
    sequence of Unicode code points, [bytes] a sequence of octets, the result
    of [json.loads] a tree of dicts, lists and scalars.  Code that can raise
    lives in an error monad, code that talks to sockets and queues in a
    state-and-error monad over the variables the closures share. *)

From Stdlib Require Import List ZArith NArith QArith Qabs Lia Bool String Ascii Floats.
From stdpp Require Import base list gmap.
From Equations Require Import Equations.
Import ListNotations.
Open Scope list_scope.

(** ** Python strings *)

Module Py.

(** A code point; a [str] is a list of them, so that [s[0]] and [s[-1]] are
    a character and not a byte of its encoding. *)
Abbreviation codepoint := N (only parsing).
Abbreviation str := (list N) (only parsing).

(** An ASCII literal as a [str]. *)
Definition lit (s : string) : str := map N_of_ascii (list_ascii_of_string s).

Definition str_eqb (a b : str) : bool := bool_decide (a = b).

(** Truthiness of a string: [if s:] holds for a non-empty one. *)
Definition truthy_str (s : str) : bool :=
  match s with [] => false | _ :: _ => true end.

(** The exceptions the embedded code can meet.  Each carries what [str(e)]
    prints. *)
Inductive exn :=
| IndexError (msg : str)
| KeyError (msg : str)
| AttributeError (msg : str)
| TypeError (msg : str)
| ValueError (msg : str)
| JSONDecodeError (msg : str)
| ValidationError (msg : str)
| ConnectionClosed (msg : str)
| WebSocketDisconnect (msg : str)
| RuntimeError (msg : str).

Definition exn_str (e : exn) : str :=
  match e with
  | IndexError m | KeyError m | AttributeError m | TypeError m | ValueError m
  | JSONDecodeError m | ValidationError m | ConnectionClosed m
  | WebSocketDisconnect m | RuntimeError m => m
  end.

Inductive result (A : Type) :=
| Ok (a : A)
| Raise (e : exn).
Arguments Ok {A} a.
Arguments Raise {A} e.

Definition rbind {A B} (m : result A) (k : A -> result B) : result B :=
  match m with Ok a => k a | Raise e => Raise e end.

#[global] Instance result_bind : MBind result := fun A B k m => rbind m k.
#[global] Instance result_ret : MRet result := fun A a => Ok a.

Definition is_ok {A} (r : result A) : bool :=
  match r with Ok _ => true | Raise _ => false end.

(** [s[i]]: a negative index counts from the end, an index out of range
    raises [IndexError]. *)
Definition index (s : str) (i : Z) : result codepoint :=
  let n := Z.of_nat (length s) in
  let j := if (i <? 0)%Z then (i + n)%Z else i in
  if ((j <? 0) || (n <=? j))%Z then Raise (IndexError (lit "string index out of range"))
  else match s !! Z.to_nat j with
       | Some c => Ok c
       | None => Raise (IndexError (lit "string index out of range"))
       end.

(** [s[i:]] for a non-negative [i]; a slice never raises. *)
Definition slice_from (s : str) (i : nat) : str := drop i s.

End Py.

Import Py.

(** ** The text chunkers ([voice_mode.py], lines 80-112 and 186-213) *)

Module Chunker.

(** [splitters]: '.', ',', '?', '!', ';', ':', the em dash, '-', '(', ')',
    '[', ']', '}' and the space. *)
Definition splitters : list codepoint :=
  [46; 44; 63; 33; 59; 58; 8212; 45; 40; 41; 91; 93; 125; 32]%N.

(** [c in splitters] *)
Definition in_splitters (c : codepoint) : bool :=
  existsb (N.eqb c) splitters.

Definition space : str := [32%N].

(** What one pass of the [while True] loop leaves behind: the loop goes on
    with a buffer, or the generator has returned. *)
Inductive gen_state :=
| Running (buffer : str)
| Returned.

(** [if buffer: yield buffer + " "] *)
Definition flush (buffer : str) : list str :=
  if truthy_str buffer then [buffer ++ space] else [].

(** The part of the loop body both chunkers share, for a fragment [text]
    that is not [None] (lines 103-110 and 204-211). *)
Definition on_text (buffer text : str) : result (list str * gen_state) :=
  b1 ← (if truthy_str buffer
         then c ← index buffer (-1); Ok (in_splitters c)
         else Ok false);
  if b1 : bool then Ok ([buffer ++ space], Running text)
  else
    b2 ← (if truthy_str text
           then c ← index text 0; Ok (in_splitters c)
           else Ok false);
    if b2 : bool then
      c ← index text 0;
      Ok ([buffer ++ [c] ++ space], Running (slice_from text 1))
    else Ok ([], Running (buffer ++ text)).

(** The part both share for the [None] sentinel: flush, [break], and the
    flush after the loop.  The buffer is not cleared in between. *)
Definition on_none (buffer : str) : list str * gen_state :=
  (flush buffer ++ flush buffer, Returned).

(** *** [sync_text_chunker] *)

(** Outcome of [sync_queue_obj.get(timeout=timeout)]. *)
Inductive queue_get :=
| Got (item : option str)
| Empty.

(** One pass of the loop of [sync_text_chunker]. *)
Definition sync_iteration (buffer : str) (ev : queue_get)
  : result (list str * gen_state) :=
  match ev with
  | Empty =>
      (* except queue.Empty: if buffer: yield buffer + " "; buffer = "" *)
      if truthy_str buffer then Ok ([buffer ++ space], Running [])
      else Ok ([], Running buffer)
  | Got None => Ok (on_none buffer)
  | Got (Some text) => on_text buffer text
  end.

(** The generator driven by the outcomes of the successive [get] calls: the
    chunks yielded so far and where the generator stands. *)
Fixpoint sync_loop (buffer : str) (evs : list queue_get)
  : result (list str * gen_state) :=
  match evs with
  | [] => Ok ([], Running buffer)
  | ev :: evs' =>
      r ← sync_iteration buffer ev;
      match r with
      | (out, Returned) => Ok (out, Returned)
      | (out, Running buffer') =>
          r' ← sync_loop buffer' evs';
          Ok (out ++ fst r', snd r')
      end
  end.

Definition sync_text_chunker (evs : list queue_get)
  : result (list str * gen_state) :=
  sync_loop [] evs.

(** *** [text_chunker_with_timeout] *)

(** Outcome of [await asyncio.wait_for(ait.__anext__(), timeout=timeout)]. *)
Inductive anext_outcome :=
| Next (item : option str)
| TimeoutError
| StopAsyncIteration.

Definition async_iteration (buffer : str) (ev : anext_outcome)
  : result (list str * gen_state) :=
  match ev with
  | TimeoutError =>
      if truthy_str buffer then Ok ([buffer ++ space], Running [])
      else Ok ([], Running buffer)
  | StopAsyncIteration =>
      (* break, then the flush after the loop *)
      Ok (flush buffer, Returned)
  | Next None => Ok (on_none buffer)
  | Next (Some text) => on_text buffer text
  end.

Fixpoint async_loop (buffer : str) (evs : list anext_outcome)
  : result (list str * gen_state) :=
  match evs with
  | [] => Ok ([], Running buffer)
  | ev :: evs' =>
      r ← async_iteration buffer ev;
      match r with
      | (out, Returned) => Ok (out, Returned)
      | (out, Running buffer') =>
          r' ← async_loop buffer' evs';
          Ok (out ++ fst r', snd r')
      end
  end.

Definition text_chunker_with_timeout (evs : list anext_outcome)
  : result (list str * gen_state) :=
  async_loop [] evs.

(** A chunk ends with a space. *)
Definition ends_with_space (chunk : str) : bool :=
  match last chunk with Some c => N.eqb c 32 | None => false end.

(** A chunk ends with [c] followed by the trailing space. *)
Definition ends_after (c : codepoint) (chunk : str) : bool :=
  match rev chunk with
  | sp :: c' :: _ => N.eqb sp 32 && N.eqb c' c
  | _ => false
  end.

End Chunker.

(** ** Values of the JSON codec *)

Module Json.

(** What [json.loads] returns and [json.dumps] takes: [None], [bool], [int],
    [float], [str], [list] and [dict].  A dict keeps its keys in insertion
    order. *)
#[warning="-register-all"]
Inductive value :=
| JNull
| JBool (b : bool)
| JInt (n : Z)
| JFloat (f : float)
| JStr (s : str)
| JList (l : list value)
| JDict (d : list (str * value)).

(** Lookup of a key among the items of a dict. *)
Fixpoint dict_lookup (d : list (str * value)) (key : str) : option value :=
  match d with
  | [] => None
  | (k, v) :: d' => if str_eqb k key then Some v else dict_lookup d' key
  end.

(** [d[key] = v] on the items of a dict: an existing key keeps its place. *)
Fixpoint dict_set (d : list (str * value)) (key : str) (v : value)
  : list (str * value) :=
  match d with
  | [] => [(key, v)]
  | (k, w) :: d' =>
      if str_eqb k key then (k, v) :: d' else (k, w) :: dict_set d' key v
  end.

(** The name [type(v).__name__] prints in an error message. *)
Definition type_name (v : value) : str :=
  match v with
  | JNull => lit "NoneType"
  | JBool _ => lit "bool"
  | JInt _ => lit "int"
  | JFloat _ => lit "float"
  | JStr _ => lit "str"
  | JList _ => lit "list"
  | JDict _ => lit "dict"
  end.

(** [v.get(key, default)]: only a dict has the method. *)
Definition get (v : value) (key : str) (default : value) : result value :=
  match v with
  | JDict d =>
      Ok (match dict_lookup d key with Some x => x | None => default end)
  | _ => Raise (AttributeError
                  (lit "'" ++ type_name v
                   ++ lit "' object has no attribute 'get'"))
  end.

(** [v[key]] on a value that is a dict; a missing key raises [KeyError]. *)
Definition getitem (v : value) (key : str) : result value :=
  match v with
  | JDict d =>
      match dict_lookup d key with
      | Some x => Ok x
      | None => Raise (KeyError key)
      end
  | _ => Raise (TypeError (lit "'" ++ type_name v
                           ++ lit "' object is not subscriptable"))
  end.

(** Truthiness ([if v:], [not v]). *)
Definition truthy (v : value) : bool :=
  match v with
  | JNull => false
  | JBool b => b
  | JInt n => negb (n =? 0)%Z
  | JFloat f => negb (PrimFloat.eqb f 0%float)
  | JStr s => truthy_str s
  | JList l => match l with [] => false | _ => true end
  | JDict d => match d with [] => false | _ => true end
  end.

(** [v == "literal"] for a string literal: true for that very string only. *)
Definition eq_str (v : value) (s : str) : bool :=
  match v with
  | JStr t => str_eqb t s
  | _ => false
  end.

(** A dict written as in the source, item by item. *)
Definition item (key : string) (v : value) : str * value := (lit key, v).
Notation "k :- v" := (item k v) (at level 60, no associativity).

Definition jstr (s : string) : value := JStr (lit s).

End Json.

Import Json.

(** ** Audio constants and the resampler ([voice_utils.py]) *)

Module Audio.

Abbreviation bytes := (list Byte.byte) (only parsing).

Definition SAMPLE_RATE_24K : Z := 24000.
Definition VAD_SAMPLE_RATE_16K : Z := 16000.
Definition FRAME_DURATION_MS : Z := 20.
Definition BYTES_PER_SAMPLE : Z := 2.

(** [int(SAMPLE_RATE_24K * FRAME_DURATION_MS / 1000) * BYTES_PER_SAMPLE]; the
    quotient is exact, so truncating the float is the integer division. *)
Definition BYTES_PER_24K_FRAME : nat :=
  Z.to_nat (SAMPLE_RATE_24K * FRAME_DURATION_MS / 1000 * BYTES_PER_SAMPLE).
Definition BYTES_PER_16K_FRAME : nat :=
  Z.to_nat (VAD_SAMPLE_RATE_16K * FRAME_DURATION_MS / 1000 * BYTES_PER_SAMPLE).

(** The signed value of a 16-bit pattern. *)
Definition to_signed16 (u : Z) : Z :=
  let m := (u mod 65536)%Z in
  if (m <? 32768)%Z then m else (m - 65536)%Z.

Definition byte_to_Z (b : Byte.byte) : Z := Z.of_N (Byte.to_N b).

Definition byte_of_Z (z : Z) : Byte.byte :=
  match Byte.of_N (Z.to_N (z mod 256)) with
  | Some b => b
  | None => Byte.x00
  end.

(** [np.frombuffer(frame, dtype=np.int16)]: little-endian pairs of octets; a
    length that is not a multiple of the item size raises [ValueError]. *)
Fixpoint frombuffer_int16 (frame : bytes) : result (list Z) :=
  match frame with
  | [] => Ok []
  | [_] => Raise (ValueError
                    (lit "buffer size must be a multiple of element size"))
  | lo :: hi :: rest =>
      match frombuffer_int16 rest with
      | Ok samples =>
          Ok (to_signed16 (byte_to_Z lo + 256 * byte_to_Z hi) :: samples)
      | Raise e => Raise e
      end
  end.

(** [np.rint]: the nearest integer, a tie going to the even one. *)
Definition rint (q : Q) : Z :=
  let d := Z.pos (Qden q) in
  let fl := (Qnum q / d)%Z in
  let r2 := (2 * (Qnum q mod d))%Z in
  if (r2 <? d)%Z then fl
  else if (d <? r2)%Z then (fl + 1)%Z
  else if Z.even fl then fl else (fl + 1)%Z.

(** [.astype(np.int16)] of an integral float: the 16-bit pattern of the
    integer (an in-range value is kept as it is). *)
Definition astype_int16 (z : Z) : Z := to_signed16 z.

(** [samples.tobytes()] of an int16 array: two octets a sample, low one
    first. *)
Definition tobytes_int16 (samples : list Z) : bytes :=
  flat_map (fun s => [byte_of_Z s; byte_of_Z (s / 256)]) samples.

(** The numeric library the resampler calls.  [resample x num] is
    [scipy.signal.resample(x, num)], whose Fourier arithmetic is not
    reproduced here: its result is taken as the rationals the floats denote,
    and its one law used below is the documented shape of that result, [num]
    samples for a non-empty input. *)
Class SciPy := {
  resample : list Z -> nat -> result (list Q);
  resample_length : forall x num,
    x <> [] -> exists y, resample x num = Ok y /\ length y = num
}.

Section resampler.
Context `{SciPy}.

(** [resample_24k_to_16k], lines 19-31. *)
Definition resample_24k_to_16k (frame_24k_bytes : bytes) : result bytes :=
  samples_24k ← frombuffer_int16 frame_24k_bytes;
  samples_16k ← resample samples_24k 320;
  let samples_16k := map (fun q => astype_int16 (rint q)) samples_16k in
  Ok (tobytes_int16 samples_16k).

End resampler.

End Audio.

Import Audio.

(** ** Collaborators outside the relay *)

Module Env.

(** [InputValueRequest] of [langflow.api.v1.schemas], with the fields the
    handler fills in. *)
Record InputValueRequest := {
  input_value : value;
  components : list str;
  type_ : str;
  session : str
}.

(** The streaming response of [build_flow]: the lines its [body_iterator]
    yields, and the exception that ends the iteration if one does. *)
Record StreamingResponse := {
  body_lines : list str;
  body_failure : option exn
}.

(** The audio stream [generate(.., stream=True)] returns: the chunks it
    yields, and the exception that ends the iteration if one does. *)
Record AudioStream := {
  audio_chunks : list bytes;
  audio_failure : option exn
}.

(** Library and backend calls, as functions of their arguments. *)
Class Externals := {
  (** [json.loads] *)
  json_loads : str -> result value;
  (** [base64.b64decode] and [base64.b64encode(..).decode("utf-8")] *)
  b64decode : str -> result bytes;
  b64encode : bytes -> str;
  (** [str(uuid4())], by the number of draws made before *)
  uuid4 : nat -> str;
  (** [UUID(flow_id)] *)
  UUID : str -> result str;
  (** the validation [InputValueRequest(..)] runs on its fields *)
  validate_request : InputValueRequest -> result unit;
  (** [build_flow(flow_id=.., inputs=.., ..)] *)
  build_flow : str -> InputValueRequest -> result StreamingResponse;
  (** [vad.is_speech(frame, sample_rate)] of webrtcvad *)
  is_speech : bytes -> Z -> result bool;
  (** [elevenlabs_client.generate(voice=.., text=.., model=.., ..)] *)
  generate : value -> str -> list str -> result AudioStream
}.

End Env.

Import Env.

(** ** Shared state and the monad of the coroutines *)

Module World.

(** What a socket carries: the text [json.dumps(v)] of a value, or a text
    passed on as received. *)
Inductive frame :=
| Dumps (v : value)
| Text (s : str).

(** One end of a websocket: the frames sent on it so far, and, once the peer
    is gone, the exception every further send raises. *)
Record socket := {
  closed : option exn;
  sent : list frame
}.

Definition socket_send (fr : frame) (s : socket) : result unit * socket :=
  match closed s with
  | Some e => (Raise e, s)
  | None => (Ok tt, {| closed := None; sent := sent s ++ [fr] |})
  end.

(** Coroutines handed to [asyncio.create_task]. *)
Inductive task :=
| ProcessTextDeltas
| HandleFunctionCall (function_call : value) (function_call_args : str).

(** The module-level variables of [voice_mode.py] (lines 48-54): one copy
    for the whole process. *)
Record globals := {
  use_elevenlabs : value;
  elevenlabs_voice : value;
  elevenlabs_model : str;
  barge_in_enabled : bool
}.

(** The variables of one call of [flow_as_tool_websocket] that its inner
    coroutines share, and the calls the session has made to its
    collaborators ([vad_calls]: the frames handed to the classifier). *)
Record session_state := {
  openai_ws : socket;
  client_websocket : socket;
  vad_queue : list value;
  vad_audio_buffer : bytes;
  vad_calls : list bytes;
  bot_speaking_flag : bool;
  text_delta_queue : list value;
  text_delta_task : bool;
  tasks : list task;
  uuid_draws : nat;
  flow_calls : list (str * InputValueRequest);
  tts_calls : list (value * str)
}.

Record world := {
  G : globals;
  S : session_state
}.

(** Module state at import time. *)
Definition initial_globals : globals := {|
  use_elevenlabs := JBool false;
  elevenlabs_voice := jstr "JBFqnCBsd6RMkjVDRZzb";
  elevenlabs_model := lit "eleven_multilingual_v2";
  barge_in_enabled := false
|}.

(** Session state when the two pumps start (lines 296-298, 345-346): the
    [session.update] of line 293 is the one frame already sent upstream. *)
Definition initial_session (first_update : value) : session_state := {|
  openai_ws := {| closed := None; sent := [Dumps first_update] |};
  client_websocket := {| closed := None; sent := [] |};
  vad_queue := [];
  vad_audio_buffer := [];
  vad_calls := [];
  bot_speaking_flag := false;
  text_delta_queue := [];
  text_delta_task := false;
  tasks := [];
  uuid_draws := 0;
  flow_calls := [];
  tts_calls := []
|}.

Definition with_session (f : session_state -> session_state) (w : world) : world :=
  {| G := G w; S := f (S w) |}.
Definition with_globals (f : globals -> globals) (w : world) : world :=
  {| G := f (G w); S := S w |}.

Definition set_openai_ws (x : socket) (s : session_state)
  : session_state :=
  {| openai_ws := x;
     client_websocket := client_websocket s;
     vad_queue := vad_queue s;
     vad_audio_buffer := vad_audio_buffer s;
     vad_calls := vad_calls s;
     bot_speaking_flag := bot_speaking_flag s;
     text_delta_queue := text_delta_queue s;
     text_delta_task := text_delta_task s;
     tasks := tasks s;
     uuid_draws := uuid_draws s;
     flow_calls := flow_calls s;
     tts_calls := tts_calls s |}.
Definition set_client_websocket (x : socket) (s : session_state)
  : session_state :=
  {| openai_ws := openai_ws s;
     client_websocket := x;
     vad_queue := vad_queue s;
     vad_audio_buffer := vad_audio_buffer s;
     vad_calls := vad_calls s;
     bot_speaking_flag := bot_speaking_flag s;
     text_delta_queue := text_delta_queue s;
     text_delta_task := text_delta_task s;
     tasks := tasks s;
     uuid_draws := uuid_draws s;
     flow_calls := flow_calls s;
     tts_calls := tts_calls s |}.
Definition set_vad_queue (x : list value) (s : session_state)
  : session_state :=
  {| openai_ws := openai_ws s;
     client_websocket := client_websocket s;
     vad_queue := x;
     vad_audio_buffer := vad_audio_buffer s;
     vad_calls := vad_calls s;
     bot_speaking_flag := bot_speaking_flag s;
     text_delta_queue := text_delta_queue s;
     text_delta_task := text_delta_task s;
     tasks := tasks s;
     uuid_draws := uuid_draws s;
     flow_calls := flow_calls s;
     tts_calls := tts_calls s |}.
Definition set_vad_audio_buffer (x : bytes) (s : session_state)
  : session_state :=
  {| openai_ws := openai_ws s;
     client_websocket := client_websocket s;
     vad_queue := vad_queue s;
     vad_audio_buffer := x;
     vad_calls := vad_calls s;
     bot_speaking_flag := bot_speaking_flag s;
     text_delta_queue := text_delta_queue s;
     text_delta_task := text_delta_task s;
     tasks := tasks s;
     uuid_draws := uuid_draws s;
     flow_calls := flow_calls s;
     tts_calls := tts_calls s |}.
Definition set_vad_calls (x : list bytes) (s : session_state)
  : session_state :=
  {| openai_ws := openai_ws s;
     client_websocket := client_websocket s;
     vad_queue := vad_queue s;
     vad_audio_buffer := vad_audio_buffer s;
     vad_calls := x;
     bot_speaking_flag := bot_speaking_flag s;
     text_delta_queue := text_delta_queue s;
     text_delta_task := text_delta_task s;
     tasks := tasks s;
     uuid_draws := uuid_draws s;
     flow_calls := flow_calls s;
     tts_calls := tts_calls s |}.
Definition set_bot_speaking_flag (x : bool) (s : session_state)
  : session_state :=
  {| openai_ws := openai_ws s;
     client_websocket := client_websocket s;
     vad_queue := vad_queue s;
     vad_audio_buffer := vad_audio_buffer s;
     vad_calls := vad_calls s;
     bot_speaking_flag := x;
     text_delta_queue := text_delta_queue s;
     text_delta_task := text_delta_task s;
     tasks := tasks s;
     uuid_draws := uuid_draws s;
     flow_calls := flow_calls s;
     tts_calls := tts_calls s |}.
Definition set_text_delta_queue (x : list value) (s : session_state)
  : session_state :=
  {| openai_ws := openai_ws s;
     client_websocket := client_websocket s;
     vad_queue := vad_queue s;
     vad_audio_buffer := vad_audio_buffer s;
     vad_calls := vad_calls s;
     bot_speaking_flag := bot_speaking_flag s;
     text_delta_queue := x;
     text_delta_task := text_delta_task s;
     tasks := tasks s;
     uuid_draws := uuid_draws s;
     flow_calls := flow_calls s;
     tts_calls := tts_calls s |}.
Definition set_text_delta_task (x : bool) (s : session_state)
  : session_state :=
  {| openai_ws := openai_ws s;
     client_websocket := client_websocket s;
     vad_queue := vad_queue s;
     vad_audio_buffer := vad_audio_buffer s;
     vad_calls := vad_calls s;
     bot_speaking_flag := bot_speaking_flag s;
     text_delta_queue := text_delta_queue s;
     text_delta_task := x;
     tasks := tasks s;
     uuid_draws := uuid_draws s;
     flow_calls := flow_calls s;
     tts_calls := tts_calls s |}.
Definition set_tasks (x : list task) (s : session_state)
  : session_state :=
  {| openai_ws := openai_ws s;
     client_websocket := client_websocket s;
     vad_queue := vad_queue s;
     vad_audio_buffer := vad_audio_buffer s;
     vad_calls := vad_calls s;
     bot_speaking_flag := bot_speaking_flag s;
     text_delta_queue := text_delta_queue s;
     text_delta_task := text_delta_task s;
     tasks := x;
     uuid_draws := uuid_draws s;
     flow_calls := flow_calls s;
     tts_calls := tts_calls s |}.
Definition set_uuid_draws (x : nat) (s : session_state)
  : session_state :=
  {| openai_ws := openai_ws s;
     client_websocket := client_websocket s;
     vad_queue := vad_queue s;
     vad_audio_buffer := vad_audio_buffer s;
     vad_calls := vad_calls s;
     bot_speaking_flag := bot_speaking_flag s;
     text_delta_queue := text_delta_queue s;
     text_delta_task := text_delta_task s;
     tasks := tasks s;
     uuid_draws := x;
     flow_calls := flow_calls s;
     tts_calls := tts_calls s |}.
Definition set_flow_calls (x : list (str * InputValueRequest)) (s : session_state)
  : session_state :=
  {| openai_ws := openai_ws s;
     client_websocket := client_websocket s;
     vad_queue := vad_queue s;
     vad_audio_buffer := vad_audio_buffer s;
     vad_calls := vad_calls s;
     bot_speaking_flag := bot_speaking_flag s;
     text_delta_queue := text_delta_queue s;
     text_delta_task := text_delta_task s;
     tasks := tasks s;
     uuid_draws := uuid_draws s;
     flow_calls := x;
     tts_calls := tts_calls s |}.
Definition set_tts_calls (x : list (value * str)) (s : session_state)
  : session_state :=
  {| openai_ws := openai_ws s;
     client_websocket := client_websocket s;
     vad_queue := vad_queue s;
     vad_audio_buffer := vad_audio_buffer s;
     vad_calls := vad_calls s;
     bot_speaking_flag := bot_speaking_flag s;
     text_delta_queue := text_delta_queue s;
     text_delta_task := text_delta_task s;
     tasks := tasks s;
     uuid_draws := uuid_draws s;
     flow_calls := flow_calls s;
     tts_calls := x |}.

(** A coroutine: it runs on the shared state, and returns or raises.  What
    it did before raising stays done. *)
Definition M (A : Type) : Type := world -> result A * world.

#[global] Instance M_ret : MRet M := fun A a w => (Ok a, w).
#[global] Instance M_bind : MBind M := fun A B k m w =>
  match m w with
  | (Ok a, w') => k a w'
  | (Raise e, w') => (Raise e, w')
  end.

Definition lift {A} (r : result A) : M A := fun w => (r, w).
Definition gets {A} (f : world -> A) : M A := fun w => (Ok (f w), w).
Definition modify (f : world -> world) : M unit := fun w => (Ok tt, f w).

(** [try: body / except Exception as e: handler e] *)
Definition try_except {A} (body : M A) (handler : exn -> M A) : M A :=
  fun w =>
    match body w with
    | (Ok a, w') => (Ok a, w')
    | (Raise e, w') => handler e w'
    end.

(** The outcome of a block as a value, for a [try] whose [except] goes on
    with the locals as the block left them. *)
Definition attempt {A} (body : M A) : M (result A) :=
  fun w => let '(r, w') := body w in (Ok r, w').

(** [await openai_ws.send(..)] *)
Definition openai_send (fr : frame) : M unit :=
  fun w =>
    let '(r, s) := socket_send fr (openai_ws (S w)) in
    (r, with_session (set_openai_ws s) w).

(** [await client_websocket.send_json(v)] and [send_text(s)] *)
Definition client_send (fr : frame) : M unit :=
  fun w =>
    let '(r, s) := socket_send fr (client_websocket (S w)) in
    (r, with_session (set_client_websocket s) w).

(** [asyncio.create_task(..)] *)
Definition create_task (t : task) : M unit :=
  modify (with_session (fun s => set_tasks (tasks s ++ [t]) s)).

End World.

Import World.

(** ** The relay ([voice_mode.py]) *)

Module Voice.

Section relay.
Context `{SciPy} `{Externals}.

(** The tool description and the flow the session is bound to: fixed before
    the pumps start (lines 250-260 and the path parameter). *)
Variable flow_tool : value.
Variable flow_id : str.

Definition SILENCE_THRESHOLD : float := 0.5%float.
Definition PREFIX_PADDING_MS : Z := 300.
Definition SILENCE_DURATION_MS : Z := 500.
Definition SESSION_INSTRUCTIONS : str :=
  lit "Converse with the user to assist with their question. "
  ++ lit "When appropriate, call the execute_flow function to assist with the user's question "
  ++ lit "as the input parameter and use that to craft your responses. "
  ++ lit "Always tell the user before you call a function to assist with their question. "
  ++ lit "And let them know what it does.".

(** The [session.update] dicts of lines 273-292 and 425-444 differ in their
    [modalities] only. *)
#[warning="-inexact-float"]
Definition session_update (modalities : list value) : value :=
  JDict ["type" :- jstr "session.update";
       "session" :- JDict [
          "modalities" :- JList modalities;
          "instructions" :- JStr SESSION_INSTRUCTIONS;
          "voice" :- jstr "echo";
          "temperature" :- JFloat 0.8%float;
          "input_audio_format" :- jstr "pcm16";
          "output_audio_format" :- jstr "pcm16";
          "turn_detection" :- JDict [
             "type" :- jstr "server_vad";
             "threshold" :- JFloat SILENCE_THRESHOLD;
             "prefix_padding_ms" :- JInt PREFIX_PADDING_MS;
             "silence_duration_ms" :- JInt SILENCE_DURATION_MS];
          "input_audio_transcription" :- JDict ["model" :- jstr "whisper-1"];
          "tools" :- JList [flow_tool];
          "tool_choice" :- jstr "auto"]].

(** *** [handle_function_call], lines 124-182 *)

(** [str(uuid4())] *)
Definition fresh_uuid : M str :=
  fun w =>
    let n := uuid_draws (S w) in
    (Ok (uuid4 n), with_session (set_uuid_draws (Datatypes.S n)) w).

(** [InputValueRequest(input_value=.., components=.., type=.., session=..)] *)
Definition new_InputValueRequest (input components_ ty sess : _)
  : result InputValueRequest :=
  let r := {| input_value := input; components := components_;
              type_ := ty; session := sess |} in
  _ ← validate_request r;
  Ok r.

(** [await build_flow(..)]: the call is made, then returns or raises. *)
Definition call_build_flow (fid : str) (inputs : InputValueRequest)
  : M StreamingResponse :=
  _ ← modify (with_session
                 (fun s => set_flow_calls (flow_calls s ++ [(fid, inputs)]) s));
  lift (build_flow fid inputs).

(** The chain of [.get] calls of lines 153-160. *)
Definition end_vertex_text (event_data : value) : result value :=
  d ← get event_data (lit "data") (JDict []);
  d ← get d (lit "build_data") (JStr []);
  d ← get d (lit "data") (JDict []);
  d ← get d (lit "results") (JDict []);
  d ← get d (lit "message") (JDict []);
  get d (lit "text") (JStr []).

(** The double quote (U+0022) the interpreter puts around a type name. *)
Definition double_quote : str := [34%N].

(** [s += v] for a string [s]: only a string can be appended. *)
Definition str_iadd (s : str) (v : value) : result str :=
  match v with
  | JStr t => Ok (s ++ t)
  | _ => Raise (TypeError (lit "can only concatenate str (not "
                             ++ double_quote ++ type_name v ++ double_quote
                             ++ lit ") to str"))
  end.

(** [async for line in response.body_iterator: ..], lines 147-161, on the
    lines the iterator yields. *)
Fixpoint body_loop (lines : list str) (result_ : str) : M str :=
  match lines with
  | [] => mret result_
  | line :: rest =>
      if negb (truthy_str line) then body_loop rest result_
      else
        event_data ← lift (json_loads line);
        _ ← client_send (Dumps (JDict ["type" :- jstr "flow.build.progress";
                                      "data" :- event_data]));
        ev ← lift (get event_data (lit "event") JNull);
        result' ← (if eq_str ev (lit "end_vertex")
                   then lift (text_part ← end_vertex_text event_data;
                              str_iadd result_ text_part)
                   else mret result_);
        body_loop rest result'
  end.

Definition function_call_output (call_id : value) (output : str) : value :=
  JDict ["type" :- jstr "conversation.item.create";
       "item" :- JDict ["type" :- jstr "function_call_output";
                     "call_id" :- call_id;
                     "output" :- JStr output]].

Definition handle_function_call (function_call : value)
    (function_call_args : str) : M unit :=
  try_except
    (conversation_id ← fresh_uuid;
     args ← lift (if truthy_str function_call_args
                  then json_loads function_call_args
                  else Ok (JDict []));
     input ← lift (get args (lit "input") JNull);
     input_request ← lift (new_InputValueRequest input [] (lit "chat")
                             conversation_id);
     fid ← lift (UUID flow_id);
     response ← call_build_flow fid input_request;
     result_ ← body_loop (body_lines response) [];
     result_ ← lift (match body_failure response with
                     | Some e => Raise e
                     | None => Ok result_
                     end);
     call_id ← lift (get function_call (lit "call_id") JNull);
     _ ← openai_send (Dumps (function_call_output call_id result_));
     openai_send (Dumps (JDict ["type" :- jstr "response.create"])))
    (fun e =>
       call_id ← lift (get function_call (lit "call_id") JNull);
       openai_send
         (Dumps (function_call_output call_id
                   (lit "Error executing flow: " ++ exn_str e)))).

(** *** [process_vad_audio], lines 301-332 *)

Definition inspect {A} (a : A) : {b | a = b} := exist _ a eq_refl.
Notation "x 'eqn:' p" := (exist _ x p) (only parsing, at level 20).

Definition response_cancel : value := JDict ["type" :- jstr "response.cancel"].

(** Lines 313-314: the frame is resampled and classified; either call can
    raise. *)
Definition classify (frame_24k : bytes) : result bool :=
  frame_16k ← resample_24k_to_16k frame_24k;
  is_speech frame_16k VAD_SAMPLE_RATE_16K.

(** The [try] block of lines 312-325 for one frame.  [has_speech] is a local
    of the coroutine: the block sets it before it sends, and the [except]
    clause goes on with whatever it holds.  Its value after the block is the
    result. *)
Definition vad_frame (frame_24k : bytes) (has_speech : bool) : M bool :=
  _ ← modify (with_session (fun s => set_vad_calls (vad_calls s ++ [frame_24k]) s));
  classified ← attempt (lift (classify frame_24k));
  match classified with
  | Ok true =>
      flag ← gets (fun w => bot_speaking_flag (S w));
      _ ← (if flag : bool then
             sent_ ← attempt (openai_send (Dumps response_cancel));
             match sent_ with
             | Ok _ => modify (with_session (set_bot_speaking_flag false))
             | Raise _ => mret tt
             end
           else mret tt);
      mret true
  | Ok false => mret has_speech
  | Raise _ => mret has_speech
  end.

(** [while len(vad_audio_buffer) >= BYTES_PER_24K_FRAME: ..], lines 309-325.
    A pass cuts one frame off the front of the buffer ([frame_24k = ..[:n]],
    [del ..[:n]]) and hands it to the [try] block, which leaves the buffer
    alone: the loop ends when less than a frame is left. *)
Equations? vad_while (has_speech : bool) (w : world) : result bool * world
  by wf (length (vad_audio_buffer (S w))) lt :=
  vad_while has_speech w
    with decide (BYTES_PER_24K_FRAME <= length (vad_audio_buffer (S w))) := {
    | left E
        with inspect
               (vad_frame
                  (take BYTES_PER_24K_FRAME (vad_audio_buffer (S w)))
                  has_speech
                  (with_session
                     (set_vad_audio_buffer
                        (drop BYTES_PER_24K_FRAME (vad_audio_buffer (S w))))
                     w)) := {
        | (Ok hs, w2) eqn: F => vad_while hs w2
        | (Raise e, w2) eqn: F => (Raise e, w2)
        }
    | right E => (Ok has_speech, w)
    }.
Proof.
  assert (vad_audio_buffer (S w2)
          = drop BYTES_PER_24K_FRAME (vad_audio_buffer (S w))) as ->.
  { clear vad_while E. revert F.
    generalize (take BYTES_PER_24K_FRAME (vad_audio_buffer (S w))).
    generalize (drop BYTES_PER_24K_FRAME (vad_audio_buffer (S w))).
    intros rest frame_24k.
    cbv [vad_frame mbind M_bind attempt lift gets mret M_ret modify
         openai_send socket_send with_session].
    generalize (classify frame_24k). intros classified.
    repeat match goal with
           | |- context [match ?x with _ => _ end] =>
               lazymatch x with
               | context [match _ with _ => _ end] => fail
               | _ => destruct x
               end
           end; cbn; intros [= _ <-]; reflexivity. }
  rewrite length_drop.
  assert (0 < BYTES_PER_24K_FRAME) by (vm_compute; lia). lia.
Qed.

(** [base64.b64decode(base64_data)] on what the queue holds. *)
Definition b64decode_value (v : value) : result bytes :=
  match v with
  | JStr s => b64decode s
  | _ => Raise (TypeError
                  (lit "argument should be a bytes-like object or ASCII string, not "
                   ++ type_name v))
  end.

(** One pass of the outer [while True] loop, for the item
    [await vad_queue.get()] returned.  [last_speech_time] and the traces
    after the inner loop do not act on the shared state. *)
Definition vad_pass (base64_data : value) : M unit :=
  raw_chunk_24k ← lift (b64decode_value base64_data);
  _ ← modify (with_session
                 (fun s => set_vad_audio_buffer
                             (vad_audio_buffer s ++ raw_chunk_24k) s));
  _ ← vad_while false;
  mret tt.

(** [await vad_queue.get()] followed by the pass: with an empty queue the
    coroutine stays suspended. *)
Definition process_vad_audio_step : M unit :=
  q ← gets (fun w => vad_queue (S w));
  match q with
  | [] => mret tt
  | base64_data :: q' =>
      _ ← modify (with_session (set_vad_queue q'));
      vad_pass base64_data
  end.

(** *** [forward_to_openai], lines 403-449 *)

Definition set_use_elevenlabs (x : value) (g : globals) : globals :=
  {| use_elevenlabs := x; elevenlabs_voice := elevenlabs_voice g;
     elevenlabs_model := elevenlabs_model g;
     barge_in_enabled := barge_in_enabled g |}.
Definition set_elevenlabs_voice (x : value) (g : globals) : globals :=
  {| use_elevenlabs := use_elevenlabs g; elevenlabs_voice := x;
     elevenlabs_model := elevenlabs_model g;
     barge_in_enabled := barge_in_enabled g |}.

(** The local [modalities] of lines 422-424. *)
Definition local_modalities (use_elevenlabs_ : value) : list value :=
  if truthy use_elevenlabs_ then [jstr "text"]
  else [jstr "text"; jstr "audio"].

(** The first [if] of the loop body, lines 411-417: [true] stands for its
    [continue]. *)
Definition on_audio_append (msg : value) : M bool :=
  ty ← lift (get msg (lit "type") JNull);
  if eq_str ty (lit "input_audio_buffer.append") then
    base64_data ← lift (get msg (lit "audio") (JStr []));
    if negb (truthy base64_data) then mret true
    else
      _ ← openai_send (Dumps (JDict ["type" :- jstr "input_audio_buffer.append";
                                     "audio" :- base64_data]));
      _ ← modify (with_session
                     (fun s => set_vad_queue (vad_queue s ++ [base64_data]) s));
      mret false
  else mret false.

(** The second [if] with its [else], lines 418-447. *)
Definition on_config_or_other (message_text : str) (msg : value) : M unit :=
  ty ← lift (get msg (lit "type") JNull);
  if eq_str ty (lit "elevenlabs.config") then
    enabled ← lift (getitem msg (lit "enabled"));
    _ ← modify (with_globals (set_use_elevenlabs enabled));
    voice_id ← lift (getitem msg (lit "voice_id"));
    _ ← modify (with_globals (set_elevenlabs_voice voice_id));
    g ← gets (fun w => use_elevenlabs (G w));
    let modalities := local_modalities g in
    openai_send (Dumps (session_update [jstr "text"]))
  else openai_send (Text message_text).

(** The loop body for the text [await client_websocket.receive_text()]
    returned.  [log_event] (line 410) counts the message in [shared_state]
    and prints; the world holds neither the counters nor the console, so an
    equality of worlds says nothing of them. *)
Definition forward_to_openai_iteration (message_text : str) : M unit :=
  msg ← lift (json_loads message_text);
  event_type ← lift (get msg (lit "type") JNull);
  continue_ ← on_audio_append msg;
  if continue_ : bool then mret tt
  else on_config_or_other message_text msg.

(** [except (WebSocketDisconnect, ConnectionClosedOK, ConnectionClosedError)] *)
Definition is_disconnect (e : exn) : bool :=
  match e with
  | WebSocketDisconnect _ | ConnectionClosed _ => true
  | _ => false
  end.

Definition pump {A} (body : A -> M unit) (received : list A) : M unit :=
  try_except
    ((fix loop (l : list A) : M unit :=
        match l with
        | [] => mret tt
        | x :: l' => _ ← body x; loop l'
        end) received)
    (fun e => if is_disconnect e then mret tt else lift (Raise e)).

(** The coroutine on the texts received from the client, in order. *)
Definition forward_to_openai (received : list str) : M unit :=
  pump forward_to_openai_iteration received.

(** *** [forward_to_client], lines 451-511 *)

(** The locals [function_call] and [function_call_args] of the coroutine
    ([None] is [JNull]). *)
Record fc_locals := {
  function_call : value;
  function_call_args : str
}.

Definition initial_locals : fc_locals :=
  {| function_call := JNull; function_call_args := [] |}.

Definition forward_to_client_iteration (l : fc_locals) (data : str)
  : M fc_locals :=
  event ← lift (json_loads data);
  event_type ← lift (get event (lit "type") JNull);
  _ ← client_send (Text data);
  if eq_str event_type (lit "response.text.delta") then
    delta ← lift (get event (lit "delta") (JStr []));
    _ ← modify (with_session
                   (fun s => set_text_delta_queue (text_delta_queue s ++ [delta]) s));
    running ← gets (fun w => text_delta_task (S w));
    _ ← (if running : bool then mret tt
         else _ ← create_task ProcessTextDeltas;
              modify (with_session (set_text_delta_task true)));
    mret l
  else if eq_str event_type (lit "response.text.done") then
    _ ← modify (with_session
                   (fun s => set_text_delta_queue (text_delta_queue s ++ [JNull]) s));
    _ ← modify (with_session (set_text_delta_task false));
    mret l
  else if eq_str event_type (lit "response.output_item.added") then
    _ ← modify (with_session (set_bot_speaking_flag true));
    item_ ← lift (get event (lit "item") (JDict []));
    ty ← lift (get item_ (lit "type") JNull);
    if eq_str ty (lit "function_call")
    then mret {| function_call := item_; function_call_args := [] |}
    else mret l
  else if eq_str event_type (lit "response.output_item.done") then
    _ ← modify (with_session (set_bot_speaking_flag false));
    mret l
  else if eq_str event_type (lit "response.function_call_arguments.delta") then
    delta ← lift (get event (lit "delta") (JStr []));
    args ← lift (str_iadd (function_call_args l) delta);
    mret {| function_call := function_call l; function_call_args := args |}
  else if eq_str event_type (lit "response.function_call_arguments.done") then
    if truthy (function_call l) then
      _ ← create_task (HandleFunctionCall (function_call l)
                         (function_call_args l));
      mret {| function_call := JNull; function_call_args := [] |}
    else mret l
  else if eq_str event_type (lit "response.audio.delta") then
    audio_delta ← lift (get event (lit "delta") (JStr []));
    mret l
  else if eq_str event_type (lit "error") then mret l
  else
    _ ← client_send (Text data);
    mret l.

(** The loop on the texts [await openai_ws.recv()] returned, in order: the
    locals it ends with. *)
Fixpoint forward_to_client_loop (l : fc_locals) (received : list str)
  : M fc_locals :=
  match received with
  | [] => mret l
  | data :: rest =>
      l' ← forward_to_client_iteration l data;
      forward_to_client_loop l' rest
  end.

Definition forward_to_client (received : list str) : M unit :=
  try_except
    (_ ← forward_to_client_loop initial_locals received; mret tt)
    (fun e => if is_disconnect e then mret tt else lift (Raise e)).

(** The coroutine behind a task of the event loop.  The task of
    [process_text_deltas] hands the chunks to a thread of its own; what that
    thread runs is [run_tts] below. *)
Definition run_task (t : task) : option (M unit) :=
  match t with
  | HandleFunctionCall fc args => Some (handle_function_call fc args)
  | ProcessTextDeltas => None
  end.

(** *** [run_tts], lines 377-396 *)

(** [for chunk in audio_stream: ..], lines 387-393, on the chunks the stream
    yields: each is sent before the next is asked for. *)
Fixpoint send_audio (audio_stream : list bytes) : M unit :=
  match audio_stream with
  | [] => mret tt
  | chunk :: rest =>
      _ ← client_send (Dumps (JDict ["type" :- jstr "response.audio.delta";
                                     "delta" :- JStr (b64encode chunk)]));
      send_audio rest
  end.

(** [text] is what the chunk generator yields to the client library. *)
Definition run_tts (text : list str) : M unit :=
  try_except
    (voice ← gets (fun w => elevenlabs_voice (G w));
     model ← gets (fun w => elevenlabs_model (G w));
     _ ← modify (with_session
                    (fun s => set_tts_calls (tts_calls s ++ [(voice, model)]) s));
     audio_stream ← lift (generate voice model text);
     _ ← send_audio (audio_chunks audio_stream);
     lift (match audio_failure audio_stream with
           | Some e => Raise e
           | None => Ok tt
           end))
    (fun e => mret tt).

(** *** Several sessions in one process *)

(** The interpreter holds one copy of the module variables and, for every
    open connection, the state of its call of [flow_as_tool_websocket]. *)
Record process := {
  module_vars : globals;
  sessions : gmap nat session_state
}.

(** A coroutine of session [sid] runs on the module variables and on the
    state of its own session. *)
Definition in_session {A} (sid : nat) (m : M A) (p : process)
  : option (result A * process) :=
  match sessions p !! sid with
  | None => None
  | Some s =>
      let '(r, w) := m {| G := module_vars p; S := s |} in
      Some (r, {| module_vars := G w; sessions := <[sid := S w]> (sessions p) |})
  end.

(** What [run_tts] of session [sid] passes as [voice] if it runs now. *)
Definition voice_used_by (sid : nat) (p : process) : option value :=
  match in_session sid (run_tts []) p with
  | Some (_, p') =>
      match sessions p' !! sid with
      | Some s => option_map fst (last (tts_calls s))
      | None => None
      end
  | None => None
  end.

(** *** The event loop of a session *)

Definition initial_world (g : globals) (first_update : value) : world :=
  {| G := g; S := initial_session first_update |}.

(** What can happen to the state of a session between two suspensions: one
    of its coroutines runs a pass of its loop on what it was waiting for, a
    task or the TTS thread runs, or another session assigns the module
    variables.  The VAD monitor exists only if [barge_in_enabled] was set
    when the pumps started (line 574); the step asks for the flag. *)
Inductive step : world -> world -> Prop :=
| step_vad w :
    barge_in_enabled (G w) = true ->
    step w (snd (process_vad_audio_step w))
| step_from_client message_text w :
    step w (snd (forward_to_openai_iteration message_text w))
| step_from_upstream l data w :
    step w (snd (forward_to_client_iteration l data w))
| step_task t m w :
    In t (tasks (S w)) -> run_task t = Some m ->
    step w (snd (m w))
| step_tts text w :
    step w (snd (run_tts text w))
| step_module_vars g w :
    step w {| G := g; S := S w |}.

Inductive reachable (w0 : world) : world -> Prop :=
| reach_start : reachable w0 w0
| reach_step w w' : reachable w0 w -> step w w' -> reachable w0 w'.

End relay.
End Voice.

(** ** Reference collaborators

    Executable stand-ins for the libraries and the backend, used to run the
    relay on concrete inputs.  The codec reads and writes JSON texts without
    floats and without [\u] escapes. *)

Module Ref.

Definition quote : codepoint := 34%N.
Definition backslash : codepoint := 92%N.

Definition is_ws (c : codepoint) : bool :=
  (c =? 32)%N || (c =? 9)%N || (c =? 10)%N || (c =? 13)%N.

Definition is_digit (c : codepoint) : bool := (48 <=? c)%N && (c <=? 57)%N.

Fixpoint skip_ws (s : str) : str :=
  match s with
  | c :: s' => if is_ws c then skip_ws s' else s
  | [] => []
  end.

Definition unescape (c : codepoint) : option codepoint :=
  if (c =? 34)%N then Some 34%N          (* quote *)
  else if (c =? 92)%N then Some 92%N     (* backslash *)
  else if (c =? 47)%N then Some 47%N     (* slash *)
  else if (c =? 110)%N then Some 10%N    (* n *)
  else if (c =? 116)%N then Some 9%N     (* t *)
  else if (c =? 114)%N then Some 13%N    (* r *)
  else if (c =? 98)%N then Some 8%N      (* b *)
  else if (c =? 102)%N then Some 12%N    (* f *)
  else None.

(** The rest of a string literal after its opening quote. *)
Fixpoint parse_string (s acc : str) : option (str * str) :=
  match s with
  | [] => None
  | c :: rest =>
      if (c =? quote)%N then Some (rev acc, rest)
      else if (c =? backslash)%N then
        match rest with
        | e :: rest' =>
            match unescape e with
            | Some c' => parse_string rest' (c' :: acc)
            | None => None
            end
        | [] => None
        end
      else if (c <? 32)%N then None
      else parse_string rest (c :: acc)
  end.

Fixpoint parse_digits (s : str) (acc : Z) : Z * str :=
  match s with
  | c :: rest =>
      if is_digit c then parse_digits rest (10 * acc + Z.of_N (c - 48))%Z
      else (acc, s)
  | [] => (acc, [])
  end.

(** An integer literal without its sign; a fraction or an exponent is not
    read. *)
Definition parse_nat (s : str) : option (Z * str) :=
  match s with
  | c :: rest =>
      if is_digit c then
        let '(n, r) := parse_digits s 0 in
        let leading_zero := (c =? 48)%N && negb (length s - length r =? 1)%nat in
        let is_float :=
          match r with
          | d :: _ => (d =? 46)%N || (d =? 101)%N || (d =? 69)%N
          | [] => false
          end in
        if leading_zero || is_float then None else Some (n, r)
      else None
  | [] => None
  end.

Fixpoint strip_prefix (p s : str) : option str :=
  match p, s with
  | [], _ => Some s
  | a :: p', b :: s' => if (a =? b)%N then strip_prefix p' s' else None
  | _ :: _, [] => None
  end.

Fixpoint parse_elements (pv : str -> option (value * str)) (n : nat)
    (s : str) (acc : list value) : option (value * str) :=
  match n with
  | 0 => None
  | Datatypes.S n' =>
      match pv s with
      | Some (v, r) =>
          match skip_ws r with
          | c :: r' =>
              if (c =? 44)%N then parse_elements pv n' r' (v :: acc)
              else if (c =? 93)%N then Some (JList (rev (v :: acc)), r')
              else None
          | [] => None
          end
      | None => None
      end
  end.

Fixpoint parse_members (pv : str -> option (value * str)) (n : nat)
    (s : str) (acc : list (str * value)) : option (value * str) :=
  match n with
  | 0 => None
  | Datatypes.S n' =>
      match skip_ws s with
      | q :: r =>
          if (q =? quote)%N then
            match parse_string r [] with
            | Some (k, r1) =>
                match skip_ws r1 with
                | colon :: r2 =>
                    if (colon =? 58)%N then
                      match pv r2 with
                      | Some (v, r3) =>
                          match skip_ws r3 with
                          | c :: r4 =>
                              if (c =? 44)%N
                              then parse_members pv n' r4 (dict_set acc k v)
                              else if (c =? 125)%N
                              then Some (JDict (dict_set acc k v), r4)
                              else None
                          | [] => None
                          end
                      | None => None
                      end
                    else None
                | [] => None
                end
            | None => None
            end
          else None
      | [] => None
      end
  end.

Fixpoint parse_value (fuel : nat) (s : str) : option (value * str) :=
  match fuel with
  | 0 => None
  | Datatypes.S f =>
      match skip_ws s with
      | [] => None
      | c :: r =>
          if (c =? quote)%N then
            match parse_string r [] with
            | Some (t, r') => Some (JStr t, r')
            | None => None
            end
          else if (c =? 91)%N then
            match skip_ws r with
            | d :: r' =>
                if (d =? 93)%N then Some (JList [], r')
                else parse_elements (parse_value f) f r []
            | [] => None
            end
          else if (c =? 123)%N then
            match skip_ws r with
            | d :: r' =>
                if (d =? 125)%N then Some (JDict [], r')
                else parse_members (parse_value f) f r []
            | [] => None
            end
          else if (c =? 45)%N then
            match parse_nat r with
            | Some (n, r') => Some (JInt (- n), r')
            | None => None
            end
          else if is_digit c then
            match parse_nat (c :: r) with
            | Some (n, r') => Some (JInt n, r')
            | None => None
            end
          else
            match strip_prefix (lit "true") (c :: r) with
            | Some r' => Some (JBool true, r')
            | None =>
                match strip_prefix (lit "false") (c :: r) with
                | Some r' => Some (JBool false, r')
                | None =>
                    match strip_prefix (lit "null") (c :: r) with
                    | Some r' => Some (JNull, r')
                    | None => None
                    end
                end
            end
      end
  end.

Definition loads (s : str) : result value :=
  match parse_value (Datatypes.S (length s)) s with
  | Some (v, r) =>
      match skip_ws r with
      | [] => Ok v
      | _ => Raise (JSONDecodeError (lit "Extra data"))
      end
  | None => Raise (JSONDecodeError (lit "Expecting value"))
  end.

Definition escape (s : str) : str :=
  flat_map (fun c => if (c =? quote)%N || (c =? backslash)%N
                     then [backslash; c] else [c]) s.

Definition quoted (s : str) : str := [quote] ++ escape s ++ [quote].

Fixpoint join (sep : str) (l : list str) : str :=
  match l with
  | [] => []
  | [x] => x
  | x :: l' => x ++ sep ++ join sep l'
  end.

Fixpoint digits_of (fuel : nat) (n : N) (acc : str) : str :=
  match fuel with
  | 0 => acc
  | Datatypes.S f =>
      let acc' := (48 + n mod 10)%N :: acc in
      if (n <? 10)%N then acc' else digits_of f (n / 10)%N acc'
  end.

Definition decimal (z : Z) : str :=
  let n := Z.abs_N z in
  (if (z <? 0)%Z then [45%N] else []) ++ digits_of (Datatypes.S (N.to_nat (N.log2 n))) n [].

(** The text of a value; a float has no text here. *)
Fixpoint dumps (v : value) : str :=
  match v with
  | JNull => lit "null"
  | JBool true => lit "true"
  | JBool false => lit "false"
  | JInt n => decimal n
  | JFloat _ => lit "NaN"
  | JStr s => quoted s
  | JList l => lit "[" ++ join (lit ", ") (map dumps l) ++ lit "]"
  | JDict d =>
      lit "{"
      ++ join (lit ", ")
           (map (fun kv => quoted (fst kv) ++ lit ": " ++ dumps (snd kv)) d)
      ++ lit "}"
  end.

(** Base64, standard alphabet. *)
Definition b64_index (c : codepoint) : option N :=
  if (65 <=? c)%N && (c <=? 90)%N then Some (c - 65)%N
  else if (97 <=? c)%N && (c <=? 122)%N then Some (c - 71)%N
  else if (48 <=? c)%N && (c <=? 57)%N then Some (c + 4)%N
  else if (c =? 43)%N then Some 62%N
  else if (c =? 47)%N then Some 63%N
  else None.

Definition b64_char (n : N) : codepoint :=
  if (n <? 26)%N then (n + 65)%N
  else if (n <? 52)%N then (n + 71)%N
  else if (n <? 62)%N then (n - 4)%N
  else if (n =? 62)%N then 43%N else 47%N.

Definition byte_of_N (n : N) : Byte.byte :=
  match Byte.of_N (n mod 256) with Some b => b | None => Byte.x00 end.

Fixpoint b64_sextets (s : str) : list N :=
  match s with
  | [] => []
  | c :: rest =>
      match b64_index c with
      | Some n => n :: b64_sextets rest
      | None => b64_sextets rest
      end
  end.

Fixpoint b64_octets (l : list N) : bytes :=
  match l with
  | a :: b :: c :: d :: rest =>
      let n := (a * 262144 + b * 4096 + c * 64 + d)%N in
      byte_of_N (n / 65536) :: byte_of_N (n / 256) :: byte_of_N n
        :: b64_octets rest
  | [a; b; c] =>
      let n := (a * 4096 + b * 64 + c)%N in
      [byte_of_N (n / 1024); byte_of_N (n / 4)]
  | [a; b] => [byte_of_N ((a * 64 + b) / 16)]
  | _ => []
  end.

Definition b64decode (s : str) : result bytes :=
  let data := b64_sextets s in
  let pad := length (filter (fun c => (c =? 61)%N) s) in
  if ((length data + pad) mod 4 =? 0)%nat then Ok (b64_octets data)
  else Raise (ValueError (lit "Incorrect padding")).

Fixpoint b64encode (b : bytes) : str :=
  match b with
  | x :: y :: z :: rest =>
      let n := (Byte.to_N x * 65536 + Byte.to_N y * 256 + Byte.to_N z)%N in
      b64_char (n / 262144) :: b64_char (n / 4096 mod 64)
        :: b64_char (n / 64 mod 64) :: b64_char (n mod 64) :: b64encode rest
  | [x; y] =>
      let n := (Byte.to_N x * 1024 + Byte.to_N y * 4)%N in
      [b64_char (n / 4096); b64_char (n / 64 mod 64); b64_char (n mod 64); 61%N]
  | [x] =>
      let n := (Byte.to_N x * 16)%N in
      [b64_char (n / 64); b64_char (n mod 64); 61%N; 61%N]
  | [] => []
  end.

(** A resampler of the documented shape: [num] samples taken at
    proportional positions of a non-empty input. *)
Definition pick_resample (x : list Z) (num : nat) : result (list Q) :=
  match x with
  | [] => Raise (ValueError (lit "invalid number of data points (0) specified"))
  | _ => Ok (map (fun k => inject_Z (nth (k * length x / num) x 0%Z))
               (seq 0 num))
  end.

Program Definition scipy : SciPy := {| resample := pick_resample |}.
Next Obligation.
  destruct x as [|a x]; [congruence|].
  eexists; split; [reflexivity|].
  rewrite length_map, length_seq. reflexivity.
Qed.

(** A frame of 10, 20 or 30 ms at a rate the detector knows is speech when
    it is not all zero; any other frame is refused. *)
Definition frame_is_speech (frame : bytes) (rate : Z) : result bool :=
  let n := Z.of_nat (length frame) in
  if existsb (Z.eqb rate) [8000; 16000; 32000; 48000]%Z
     && existsb (fun ms => (n =? rate * ms / 1000 * 2)%Z) [10; 20; 30]%Z
  then Ok (existsb (fun b => negb (Byte.eqb b Byte.x00)) frame)
  else Raise (RuntimeError (lit "Error while processing frame")).

(** A backend that echoes: one [end_vertex] event whose message text is the
    input. *)
Definition echo_flow (fid : str) (inputs : InputValueRequest)
  : result StreamingResponse :=
  Ok {| body_lines :=
          [dumps (JDict ["event" :- jstr "end_vertex";
                         "data" :- JDict ["build_data" :- JDict ["data" :-
                           JDict ["results" :- JDict ["message" :-
                             JDict ["text" :- input_value inputs]]]]]])];
        body_failure := None |}.

(** A backend that fails. *)
Definition failing_flow (fid : str) (inputs : InputValueRequest)
  : result StreamingResponse :=
  Raise (RuntimeError (lit "backend unavailable")).

Definition externals
    (flow : str -> InputValueRequest -> result StreamingResponse)
  : Externals := {|
  json_loads := loads;
  Env.b64decode := b64decode;
  Env.b64encode := b64encode;
  uuid4 := fun n => lit "00000000-0000-4000-8000-" ++ decimal (Z.of_nat n);
  UUID := fun s => if (length s =? 36)%nat then Ok s
                   else Raise (ValueError (lit "badly formed hexadecimal UUID string"));
  validate_request := fun r =>
    match input_value r with
    | JStr _ | JNull => Ok tt
    | _ => Raise (ValidationError (lit "Input should be a valid string"))
    end;
  build_flow := flow;
  is_speech := frame_is_speech;
  generate := fun voice model text =>
    Ok {| audio_chunks := map (fun _ => [Byte.x00; Byte.x00]) text;
          audio_failure := None |}
|}.

End Ref.

(** ** The relay, continued: whole coroutines *)

Module VoiceLoops.
Import Voice.

Section loops.
Context `{SciPy} `{Externals}.

(** [process_vad_audio], lines 304-332, on the items [vad_queue.get()] hands
    over in order: a pass each, until one raises and ends the coroutine. *)
Fixpoint process_vad_audio (items : list value) : M unit :=
  match items with
  | [] => mret tt
  | base64_data :: rest => _ ← vad_pass base64_data; process_vad_audio rest
  end.

End loops.
End VoiceLoops.

(** ** The speech client and its key ([voice_mode.py], lines 544-572) *)

Module TtsClient.

(** [ElevenLabs(api_key=..)]; the key is what the module variable holds,
    [None] included. *)
Record ElevenLabs := { api_key : option str }.

(** How [variable_service.get_variable(..)] ends: with the stored value,
    with [InvalidToken] or [ValueError], or with any other exception. *)
Inductive variable_lookup :=
| Found (stored : str)
| NoSuchVariable
| LookupFailed (e : exn).

(** The two module variables the function assigns, shared by every session
    of the process, and the client socket of the session that calls it. *)
Record state := {
  elevenlabs_client : option ElevenLabs;
  elevenlabs_key : option str;
  client_websocket : socket
}.

Definition api_key_missing (key_name message : string) : value :=
  JDict ["type" :- jstr "error";
         "code" :- jstr "api_key_missing";
         "key_name" :- jstr key_name;
         "message" :- jstr message].

Definition elevenlabs_key_missing : value :=
  api_key_missing "ELEVENLABS_API_KEY"
    "ELEVENLABS API key not found. Please set your API key as an env var or a global variable.".

(** [not key] for a key that is [None] or a string. *)
Definition no_key (key : option str) : bool :=
  match key with
  | None => true
  | Some k => negb (truthy_str k)
  end.

(** [ElevenLabs(api_key=elevenlabs_key)], assigned and returned. *)
Definition create (s : state) : result (option ElevenLabs) * state :=
  let c := {| api_key := elevenlabs_key s |} in
  (Ok (Some c),
   {| elevenlabs_client := Some c; elevenlabs_key := elevenlabs_key s;
      client_websocket := client_websocket s |}).

(** [get_or_create_elevenlabs_client], for what the variable service
    answers to this caller and what [os.getenv("ELEVENLABS_API_KEY")]
    returns. *)
Definition get_or_create_elevenlabs_client (get_variable : variable_lookup)
    (getenv : option str) (s : state) : result (option ElevenLabs) * state :=
  match elevenlabs_client s with
  | Some c => (Ok (Some c), s)
  | None =>
      match elevenlabs_key s with
      | Some _ => create s
      | None =>
          match get_variable with
          | Found stored =>
              create {| elevenlabs_client := None; elevenlabs_key := Some stored;
                        client_websocket := client_websocket s |}
          | NoSuchVariable =>
              let s1 := {| elevenlabs_client := None; elevenlabs_key := getenv;
                           client_websocket := client_websocket s |} in
              if no_key getenv then
                let '(r, sock) :=
                  socket_send (Dumps elevenlabs_key_missing)
                    (client_websocket s1) in
                let s2 := {| elevenlabs_client := None; elevenlabs_key := getenv;
                             client_websocket := sock |} in
                match r with
                | Ok _ => (Ok None, s2)
                | Raise e => (Raise e, s2)
                end
              else create s1
          | LookupFailed _ => create s
          end
      end
  end.

End TtsClient.

(** ** Before the pumps start ([voice_mode.py], lines 227-270) *)

Module ToolSetup.
Import TtsClient.

(** How the part of [flow_as_tool_websocket] before the upstream connection
    ends: ready to connect with a key and the tool description, returned
    early, stopped by the exception of a send, or stopped at line 268 by
    [UnboundLocalError], the local [openai_key] never having been
    assigned. *)
Inductive outcome :=
| Ready (openai_key : str) (flow_tool : value)
| ReturnedEarly
| Raised (e : exn)
| UnboundOpenaiKey.

Definition openai_key_missing : value :=
  api_key_missing "OPENAI_API_KEY"
    "OpenAI API key not found. Please set your API key as an env var or a global variable.".

(** [not openai_key or openai_key == "dummy"] *)
Definition unusable (key : option str) : bool :=
  match key with
  | None => true
  | Some k => negb (truthy_str k) || str_eqb k (lit "dummy")
  end.

(** [flow_description or "Execute the flow with the given input"] *)
Definition description_or_default (flow_description : value) : value :=
  if truthy flow_description then flow_description
  else jstr "Execute the flow with the given input".

(** Lines 251-260. *)
Definition make_flow_tool (flow_description : value) : value :=
  JDict ["name" :- jstr "execute_flow";
         "type" :- jstr "function";
         "description" :- description_or_default flow_description;
         "parameters" :-
           JDict ["type" :- jstr "object";
                  "properties" :-
                    JDict ["input" :-
                      JDict ["type" :- jstr "string";
                             "description" :- jstr "The input to send to the flow"]];
                  "required" :- JList [jstr "input"]]].

Definition failed_to_load (e : exn) : value :=
  JDict ["error" :- JStr (lit "Failed to load flow: " ++ exn_str e)].

(** Lines 249-270, with the key the first [try] left in the local, if it
    assigned one. *)
Definition load_flow (openai_key : option str) (flow_description : result value)
    (client : socket) : outcome * socket :=
  match flow_description with
  | Ok description =>
      match openai_key with
      | Some key => (Ready key (make_flow_tool description), client)
      | None => (UnboundOpenaiKey, client)
      end
  | Raise e =>
      let '(r, client') := socket_send (Dumps (failed_to_load e)) client in
      match r with
      | Ok _ => (ReturnedEarly, client')
      | Raise e' => (Raised e', client')
      end
  end.

(** Lines 227-270, for what the variable service answers, what
    [os.getenv("OPENAI_API_KEY")] returns and how [get_flow_desc_from_db]
    ends. *)
Definition setup (get_variable : variable_lookup) (getenv : option str)
    (flow_description : result value) (client : socket) : outcome * socket :=
  match get_variable with
  | Found stored => load_flow (Some stored) flow_description client
  | NoSuchVariable =>
      if unusable getenv then
        let '(r, client') := socket_send (Dumps openai_key_missing) client in
        match r with
        | Ok _ => (ReturnedEarly, client')
        | Raise e => (Raised e, client')
        end
      else load_flow getenv flow_description client
  | LookupFailed _ => load_flow None flow_description client
  end.

End ToolSetup.

(** ** The event endpoint ([voice_mode.py], lines 583-697) *)

Module AudioEndpoint.
Import Voice.

Section endpoint.
Context `{Externals}.

(** [json.dumps] on a received message, and what awaiting
    [safe_build_flow(flow_id=.., inputs=.., ..)] hands over, read as the
    lines of its [body_iterator]: an exception of the call or of that
    attribute access is the [Raise] case. *)
Variable json_dumps : value -> str.
Variable safe_build_flow : str -> InputValueRequest -> result StreamingResponse.
Variable flow_id : str.

(** *** The [ChatInput] lookup, lines 601-609 *)

(** [for node in v]: a list yields its items, a dict its keys, a string its
    characters; nothing else can be iterated. *)
Definition iterate (v : value) : result (list value) :=
  match v with
  | JList l => Ok l
  | JDict d => Ok (map (fun kv => JStr (fst kv)) d)
  | JStr s => Ok (map (fun c => JStr [c]) s)
  | _ => Raise (TypeError (lit "'" ++ type_name v
                           ++ lit "' object is not iterable"))
  end.

(** [node.get("data", {}).get("type") == "ChatInput"] *)
Definition is_chat_input (node : value) : result bool :=
  data ← get node (lit "data") (JDict []);
  ty ← get data (lit "type") JNull;
  Ok (eq_str ty (lit "ChatInput")).

(** The [for] loop with its [break]: the value of [chat_input_id] after
    it, [JNull] for [None]. *)
Fixpoint find_chat_input (nodes : list value) : result value :=
  match nodes with
  | [] => Ok JNull
  | node :: rest =>
      found ← is_chat_input node;
      if found : bool then get node (lit "id") JNull
      else find_chat_input rest
  end.

(** Either the socket is closed with code 4004 and the reason
    [No ChatInput component found in flow], or the stream starts. *)
Inductive opening :=
| NoChatInput
| Streaming (chat_input_id : value).

(** Lines 601-609 on [flow.data]. *)
Definition open_stream (flow_data : value) : result opening :=
  nodes ← get flow_data (lit "nodes") (JList []);
  nodes ← iterate nodes;
  chat_input_id ← find_chat_input nodes;
  Ok (if truthy chat_input_id then Streaming chat_input_id else NoChatInput).

(** *** The receiving loop, lines 669-677 *)

(** The loop on what [receive_json()] returns or raises, call after call:
    the messages it puts on the queue, and the exception that ends it if
    one does. *)
Fixpoint receive_loop (incoming : list (result value))
  : list value * option exn :=
  match incoming with
  | [] => ([], None)
  | Raise e :: _ => ([], Some e)
  | Ok message :: rest =>
      match get message (lit "type") JNull with
      | Raise e => ([], Some e)
      | Ok event_type =>
          if eq_str event_type (lit "end_stream") then ([], None)
          else
            let '(queued, e) := receive_loop rest in
            (message :: queued, e)
      end
  end.

Definition receive_error (e : exn) : value :=
  JDict ["type" :- jstr "error"; "message" :- JStr (exn_str e)].

(** [except WebSocketDisconnect: pass] around a send. *)
Definition pass_on_disconnect {A} (a : A) (e : exn) : M A :=
  match e with
  | WebSocketDisconnect _ => mret a
  | _ => lift (Raise e)
  end.

(** The [except] clauses of lines 678-685. *)
Definition after_receive (e : option exn) : M unit :=
  match e with
  | None => mret tt
  | Some (WebSocketDisconnect _) => mret tt
  | Some e =>
      try_except (client_send (Dumps (receive_error e)))
        (pass_on_disconnect tt)
  end.

(** *** [process_events], lines 612-666 *)

(** The chain of [.get] calls of lines 638-647. *)
Definition transcript_text (event_data : value) : result value :=
  d ← get event_data (lit "data") (JDict []);
  d ← get d (lit "build_data") (JStr []);
  d ← get d (lit "data") (JDict []);
  d ← get d (lit "results") (JDict []);
  d ← get d (lit "message") (JDict []);
  d ← get d (lit "transcript") (JDict []);
  d ← get d (lit "raw") (JDict []);
  get d (lit "text") (JStr []).

(** [async for line in response.body_iterator: ..], lines 633-648. *)
Fixpoint collect (lines : list str) (result_ : str) : result str :=
  match lines with
  | [] => Ok result_
  | line :: rest =>
      if negb (truthy_str line) then collect rest result_
      else
        event_data ← json_loads line;
        ev ← get event_data (lit "event") JNull;
        result' ← (if eq_str ev (lit "end_vertex")
                   then text_part ← transcript_text event_data;
                        str_iadd result_ text_part
                   else Ok result_);
        collect rest result'
  end.

(** The text a response gives: its lines are read, then the iterator
    raises if it fails. *)
Definition read_response (response : StreamingResponse) : result str :=
  result_ ← collect (body_lines response) [];
  match body_failure response with
  | Some e => Raise e
  | None => Ok result_
  end.

(** [await safe_build_flow(..)]: the call is made, then returns or
    raises. *)
Definition call_safe_build_flow (fid : str) (inputs : InputValueRequest)
  : M StreamingResponse :=
  _ ← modify (with_session
                 (fun s => set_flow_calls (flow_calls s ++ [(fid, inputs)]) s));
  lift (safe_build_flow fid inputs).

Definition flow_processing_error (e : exn) : value :=
  JDict ["type" :- jstr "error";
         "message" :- JStr (lit "Flow processing error: " ++ exn_str e)].

(** One turn of the [while] loop for an event that is not [None], with a
    [ChatInput] id that is a string.  The result tells whether the turn
    ends the loop. *)
Definition process_event (chat_input_id websocket_session_id : str)
    (event : value) : M bool :=
  try_except
    (input_request ← lift (new_InputValueRequest (JStr (json_dumps event))
                             [chat_input_id] (lit "any")
                             websocket_session_id);
     try_except
       (fid ← lift (UUID flow_id);
        response ← call_safe_build_flow fid input_request;
        _ ← lift (read_response response);
        mret false)
       (fun e =>
          try_except
            (_ ← client_send (Dumps (flow_processing_error e)); mret false)
            (pass_on_disconnect true)))
    (fun _ => mret false).

(** The loop on what [event_queue.get()] hands over in order. *)
Fixpoint process_events (chat_input_id websocket_session_id : str)
    (queue : list (option value)) : M unit :=
  match queue with
  | [] => mret tt
  | None :: _ => mret tt
  | Some event :: rest =>
      stop ← process_event chat_input_id websocket_session_id event;
      if stop : bool then mret tt
      else process_events chat_input_id websocket_session_id rest
  end.

End endpoint.
End AudioEndpoint.

(** * Properties *)

(** ** The text chunkers *)

Module ChunkerProps.
Import Chunker.

(** The fragments of the example, then the end-of-stream sentinel. *)
Definition hello_world : list str :=
  [lit "Hello"; lit ","; lit " world"; lit "."].

Definition ends_with_splitter (buffer : str) : bool :=
  match last buffer with
  | Some c => in_splitters c
  | None => false
  end.

Lemma index_last (s : str) :
  truthy_str s = true ->
  exists c, index s (-1) = Ok c /\ last s = Some c.
Proof.
  intros Hs. destruct s as [|a s]; [discriminate|].
  unfold index. cbn [length]. set (n := Z.of_nat (Datatypes.S (length s))).
  assert (Hn : (1 <= n)%Z) by lia.
  replace (-1 <? 0)%Z with true by reflexivity.
  destruct (Z.ltb_spec (-1 + n) 0); [lia|].
  destruct (Z.leb_spec n (-1 + n)); [lia|]. cbn [orb].
  replace (Z.to_nat (-1 + n)) with (pred (length (a :: s)))
    by (cbn [length]; lia).
  rewrite <- last_lookup.
  destruct (last (a :: s)) as [c|] eqn:E; [eauto|].
  apply last_None in E. discriminate.
Qed.

Lemma index_first (c : codepoint) (s : str) : index (c :: s) 0 = Ok c.
Proof.
  unfold index. cbn [length]. replace (0 <? 0)%Z with false by reflexivity.
  destruct (Z.leb_spec (Z.of_nat (Datatypes.S (length s))) 0); [lia|].
  reflexivity.
Qed.

Lemma on_text_ok (buffer text : str) : is_ok (on_text buffer text) = true.
Proof.
  unfold on_text, mbind, result_bind, rbind.
  destruct (truthy_str buffer) eqn:Hb.
  - destruct (index_last buffer Hb) as (c & -> & _).
    destruct (in_splitters c); [reflexivity|].
    destruct text as [|t text]; [reflexivity|]. cbn [truthy_str].
    rewrite index_first. destruct (in_splitters t); reflexivity.
  - destruct text as [|t text]; [reflexivity|]. cbn [truthy_str].
    rewrite index_first. destruct (in_splitters t); reflexivity.
Qed.

Lemma sync_iteration_ok (buffer : str) (ev : queue_get) :
  is_ok (sync_iteration buffer ev) = true.
Proof.
  destruct ev as [[text|]|]; cbn; auto using on_text_ok.
  destruct (truthy_str buffer); reflexivity.
Qed.

Lemma async_iteration_ok (buffer : str) (ev : anext_outcome) :
  is_ok (async_iteration buffer ev) = true.
Proof.
  destruct ev as [[text|]| |]; cbn; auto using on_text_ok.
  destruct (truthy_str buffer); reflexivity.
Qed.

Lemma sync_loop_ok (evs : list queue_get) :
  forall buffer, is_ok (sync_loop buffer evs) = true.
Proof.
  induction evs as [|ev evs IH]; intros buffer; [reflexivity|].
  cbn [sync_loop]. pose proof (sync_iteration_ok buffer ev) as Hit.
  destruct (sync_iteration buffer ev) as [[out [b|]]|]; try discriminate; cbn.
  - specialize (IH b). destruct (sync_loop b evs); [reflexivity|discriminate].
  - reflexivity.
Qed.

Lemma async_loop_ok (evs : list anext_outcome) :
  forall buffer, is_ok (async_loop buffer evs) = true.
Proof.
  induction evs as [|ev evs IH]; intros buffer; [reflexivity|].
  cbn [async_loop]. pose proof (async_iteration_ok buffer ev) as Hit.
  destruct (async_iteration buffer ev) as [[out [b|]]|]; try discriminate; cbn.
  - specialize (IH b). destruct (async_loop b evs); [reflexivity|discriminate].
  - reflexivity.
Qed.

Lemma sync_idle (n : nat) :
  sync_loop [] (repeat Empty n) = Ok ([], Running []).
Proof. induction n as [|n IH]; [reflexivity|]. cbn. rewrite IH. reflexivity. Qed.

Lemma async_idle (n : nat) :
  async_loop [] (repeat TimeoutError n) = Ok ([], Running []).
Proof. induction n as [|n IH]; [reflexivity|]. cbn. rewrite IH. reflexivity. Qed.

(** C3, as stated: the example does not yield exactly two chunks. *)
Lemma hello_world_not_two_chunks :
  ~ (exists chunks st,
        sync_text_chunker (map (fun f => Got (Some f)) hello_world ++ [Got None])
        = Ok (chunks, st)
        /\ length chunks = 2).
Proof.
  intros (chunks & st & Hrun & Hlen).
  vm_compute in Hrun. injection Hrun as <- _. discriminate Hlen.
Qed.

(** C3, amended: on the fragments "Hello", ",", " world", "." followed by
    the end of the stream, either chunker yields exactly three chunks,
    "Hello, " then a chunk of two spaces then "world. ", and returns; the
    first ends after the ',' and the last after the '.', and each chunk is
    non-empty and ends with a space. *)
Theorem hello_world_three_chunks :
  let chunks := [lit "Hello, "; lit "  "; lit "world. "] in
  sync_text_chunker (map (fun f => Got (Some f)) hello_world ++ [Got None])
  = Ok (chunks, Returned)
  /\ text_chunker_with_timeout
       (map (fun f => Next (Some f)) hello_world ++ [Next None])
     = Ok (chunks, Returned)
  /\ text_chunker_with_timeout
       (map (fun f => Next (Some f)) hello_world ++ [StopAsyncIteration])
     = Ok (chunks, Returned)
  /\ Forall (fun c => c <> [] /\ ends_with_space c = true) chunks
  /\ ends_after 44 (lit "Hello, ") = true
  /\ ends_after 46 (lit "world. ") = true.
Proof.
  cbv zeta. repeat split; try reflexivity.
  repeat constructor; discriminate.
Qed.

(** C6: the fragment "partial" followed by one or more expired waits yields
    exactly one chunk, "partial ", and leaves the buffer empty, in the
    chunker on the thread queue and in the asynchronous one alike. *)
Theorem partial_timeout_flush (n : nat) :
  sync_text_chunker (Got (Some (lit "partial")) :: repeat Empty (Datatypes.S n))
  = Ok ([lit "partial "], Running [])
  /\ text_chunker_with_timeout
       (Next (Some (lit "partial")) :: repeat TimeoutError (Datatypes.S n))
     = Ok ([lit "partial "], Running []).
Proof.
  split.
  - unfold sync_text_chunker. cbn [repeat sync_loop].
    change (sync_iteration [] (Got (Some (lit "partial"))))
      with (Ok (@nil str, Running (lit "partial"))).
    cbn [mbind result_bind rbind].
    change (sync_iteration (lit "partial") Empty)
      with (Ok ([lit "partial "], Running [])).
    cbn [mbind result_bind rbind]. rewrite sync_idle. reflexivity.
  - unfold text_chunker_with_timeout. cbn [repeat async_loop].
    change (async_iteration [] (Next (Some (lit "partial"))))
      with (Ok (@nil str, Running (lit "partial"))).
    cbn [mbind result_bind rbind].
    change (async_iteration (lit "partial") TimeoutError)
      with (Ok ([lit "partial "], Running [])).
    cbn [mbind result_bind rbind]. rewrite async_idle. reflexivity.
Qed.

(** C8, as stated: an empty fragment is not a no-op in every buffer state.
    After the fragment "Hi." the buffer holds "Hi.", and the empty fragment
    then yields "Hi. " and empties the buffer. *)
Lemma empty_fragment_flushes :
  sync_text_chunker [Got (Some (lit "Hi."))] = Ok ([], Running (lit "Hi."))
  /\ ~ (forall buffer,
           sync_iteration buffer (Got (Some [])) = Ok ([], Running buffer)).
Proof.
  split; [reflexivity|].
  intros Hall. specialize (Hall (lit "Hi.")). vm_compute in Hall. discriminate.
Qed.

(** C8, amended: the chunkers never raise, whatever the waits return; and
    an empty fragment yields no chunk and leaves the buffer as it is unless
    the buffer ends with a boundary character, in which case it yields the
    buffer with a trailing space and empties the buffer. *)
Theorem empty_fragment_handling :
  (forall evs, is_ok (sync_text_chunker evs) = true)
  /\ (forall evs, is_ok (text_chunker_with_timeout evs) = true)
  /\ (forall buffer,
        let after :=
          if ends_with_splitter buffer
          then Ok ([buffer ++ space], Running [])
          else Ok ([], Running buffer) in
        sync_iteration buffer (Got (Some [])) = after
        /\ async_iteration buffer (Next (Some [])) = after).
Proof.
  split; [intros; apply sync_loop_ok|].
  split; [intros; apply async_loop_ok|].
  intros buffer. cbv zeta. cbn [sync_iteration async_iteration].
  assert (on_text buffer []
          = if ends_with_splitter buffer
            then Ok ([buffer ++ space], Running [])
            else Ok ([], Running buffer)) as ->; [|split; reflexivity].
  unfold on_text, ends_with_splitter, mbind, result_bind, rbind.
  destruct (truthy_str buffer) eqn:Hb.
  - destruct (index_last buffer Hb) as (c & -> & ->).
    destruct (in_splitters c); [reflexivity|].
    cbn. rewrite app_nil_r. reflexivity.
  - destruct buffer; [|discriminate]. reflexivity.
Qed.

End ChunkerProps.

(** ** The resampler *)

Module AudioProps.

Lemma frame_constants :
  BYTES_PER_24K_FRAME = 960 /\ BYTES_PER_16K_FRAME = 640.
Proof. split; reflexivity. Qed.










Section resampler.
Context `{SciPy}.


End resampler.


(** A resampled value beyond the range is not clamped: the nearest integer
    of 36131.097 is 36131, and its int16 is 36131 - 65536. *)
Lemma overshoot_wraps :
  rint (36131097 # 1000) = 36131%Z
  /\ astype_int16 (rint (36131097 # 1000)) = (-29405)%Z.
Proof. split; reflexivity. Qed.


End AudioProps.

(** ** Coroutines that leave a part of the state alone *)

Module Frame.

Section keeps.
Context {V : Type} (view : world -> V).

(** [m] never changes what [view] shows of the state, whether it returns or
    raises. *)
Definition keeps {A} (m : M A) : Prop :=
  forall w, view (snd (m w)) = view w.

Lemma keeps_ret {A} (a : A) : keeps (mret a).
Proof. intros w. reflexivity. Qed.

Lemma keeps_lift {A} (r : result A) : keeps (lift r).
Proof. intros w. reflexivity. Qed.

Lemma keeps_gets {A} (f : world -> A) : keeps (gets f).
Proof. intros w. reflexivity. Qed.

Lemma keeps_modify (f : world -> world) :
  (forall w, view (f w) = view w) -> keeps (modify f).
Proof. intros Hf w. apply Hf. Qed.

Lemma keeps_bind {A B} (m : M A) (k : A -> M B) :
  keeps m -> (forall a, keeps (k a)) -> keeps (m ≫= k).
Proof.
  intros Hm Hk w. unfold mbind, M_bind. specialize (Hm w).
  destruct (m w) as [[a|e] w1]; cbn in *; [|exact Hm].
  rewrite Hk. exact Hm.
Qed.

Lemma keeps_try_except {A} (body : M A) (handler : exn -> M A) :
  keeps body -> (forall e, keeps (handler e)) -> keeps (try_except body handler).
Proof.
  intros Hb Hh w. unfold try_except. specialize (Hb w).
  destruct (body w) as [[a|e] w1]; cbn in *; [exact Hb|].
  rewrite Hh. exact Hb.
Qed.

Lemma keeps_attempt {A} (body : M A) : keeps body -> keeps (attempt body).
Proof.
  intros Hb w. unfold attempt. specialize (Hb w).
  destruct (body w) as [r w1]. exact Hb.
Qed.

Lemma keeps_openai_send (fr : frame) :
  (forall x w, view (with_session (set_openai_ws x) w) = view w) ->
  keeps (openai_send fr).
Proof.
  intros Hset w. unfold openai_send.
  destruct (socket_send fr (openai_ws (S w))) as [r s]. apply Hset.
Qed.

Lemma keeps_client_send (fr : frame) :
  (forall x w, view (with_session (set_client_websocket x) w) = view w) ->
  keeps (client_send fr).
Proof.
  intros Hset w. unfold client_send.
  destruct (socket_send fr (client_websocket (S w))) as [r s]. apply Hset.
Qed.

End keeps.

(** Splits a coroutine along its binds and branches; what is left are the
    assignments, to be checked against the view. *)
Ltac keeps_step :=
  lazymatch goal with
  | |- keeps _ (mret _) => apply keeps_ret
  | |- keeps _ (lift _) => apply keeps_lift
  | |- keeps _ (gets _) => apply keeps_gets
  | |- keeps _ (_ ≫= _) => apply keeps_bind; [|intros ?]
  | |- keeps _ (try_except _ _) => apply keeps_try_except; [|intros ?]
  | |- keeps _ (attempt _) => apply keeps_attempt
  | |- keeps _ (openai_send _) => apply keeps_openai_send; intros ? ?; reflexivity
  | |- keeps _ (client_send _) => apply keeps_client_send; intros ? ?; reflexivity
  | |- keeps _ (create_task _) => apply keeps_modify; intros ?; reflexivity
  | |- keeps _ (modify _) => apply keeps_modify; intros ?; reflexivity
  | |- keeps _ (let _ := _ in _) => cbv zeta
  | |- keeps _ (match ?x with _ => _ end) => destruct x
  end.

Ltac keeps_auto := repeat keeps_step.

End Frame.

(** ** The VAD monitor *)

Module VadProps.
Import Voice Frame.

(** The whole frames at the front of a buffer, oldest first. *)
Fixpoint chunks (k : nat) (buf : bytes) : list bytes :=
  match k with
  | 0 => []
  | Datatypes.S k' =>
      take BYTES_PER_24K_FRAME buf :: chunks k' (drop BYTES_PER_24K_FRAME buf)
  end.

Definition whole_frames (buf : bytes) : list bytes :=
  chunks (length buf / BYTES_PER_24K_FRAME) buf.

Definition is_open (s : socket) : bool :=
  match closed s with None => true | Some _ => false end.

(** The cancellations among the frames sent upstream. *)
Definition is_cancel (fr : frame) : bool :=
  match fr with
  | Dumps v =>
      match get v (lit "type") JNull with
      | Ok ty => eq_str ty (lit "response.cancel")
      | Raise _ => false
      end
  | Text _ => false
  end.

Definition cancellations (w : world) : nat :=
  length (filter (fun fr => is_cancel fr = true) (sent (openai_ws (S w)))).

Section vad.
Context `{SciPy} `{Externals}.

(** The frame is classified as speech: both calls return, the second one
    [True]. *)
Definition speech (frame_24k : bytes) : bool :=
  match classify frame_24k with
  | Ok true => true
  | _ => false
  end.

Lemma vad_while_unfold (hs : bool) (w : world) :
  vad_while hs w
  = if decide (BYTES_PER_24K_FRAME <= length (vad_audio_buffer (S w))) then
      match vad_frame (take BYTES_PER_24K_FRAME (vad_audio_buffer (S w))) hs
              (with_session
                 (set_vad_audio_buffer
                    (drop BYTES_PER_24K_FRAME (vad_audio_buffer (S w)))) w)
      with
      | (Ok hs', w2) => vad_while hs' w2
      | (Raise e, w2) => (Raise e, w2)
      end
    else (Ok hs, w).
Proof.
  funelim (vad_while hs w); rewrite Heq; try reflexivity.
  all: rewrite F; reflexivity.
Qed.

(** What the [try] block does to the state, field by field. *)
Lemma vad_frame_spec (frame_24k : bytes) (hs : bool) (w : world) :
  let r := vad_frame frame_24k hs w in
  let fire := bot_speaking_flag (S w) && speech frame_24k
              && is_open (openai_ws (S w)) in
  fst r = Ok (speech frame_24k || hs)
  /\ vad_audio_buffer (S (snd r)) = vad_audio_buffer (S w)
  /\ vad_calls (S (snd r)) = vad_calls (S w) ++ [frame_24k]
  /\ sent (openai_ws (S (snd r)))
     = sent (openai_ws (S w)) ++ (if fire then [Dumps response_cancel] else [])
  /\ closed (openai_ws (S (snd r))) = closed (openai_ws (S w))
  /\ bot_speaking_flag (S (snd r)) = bot_speaking_flag (S w) && negb fire.
Proof.
  destruct w as [g [[cl snt] cw vq vb vc flag tq tt tk ud fc tc]].
  cbv zeta. unfold speech, is_open.
  cbv [vad_frame mbind M_bind attempt lift gets mret M_ret modify
       openai_send socket_send with_session].
  cbn.
  destruct (classify frame_24k) as [[|]|e]; destruct flag; destruct cl;
    cbn; rewrite ?app_nil_r; repeat split; reflexivity.
Qed.

Lemma frame_positive : 0 < BYTES_PER_24K_FRAME.
Proof. vm_compute. lia. Qed.

Lemma div_frame_zero (n : nat) :
  n / BYTES_PER_24K_FRAME = 0 -> n < BYTES_PER_24K_FRAME.
Proof.
  pose proof frame_positive. intros Hq. apply Nat.div_small_iff in Hq; lia.
Qed.

Lemma div_frame_succ (n k : nat) :
  n / BYTES_PER_24K_FRAME = Datatypes.S k ->
  BYTES_PER_24K_FRAME <= n
  /\ (n - BYTES_PER_24K_FRAME) / BYTES_PER_24K_FRAME = k.
Proof.
  pose proof frame_positive as Hpos. intros Hq.
  pose proof (Nat.div_mod_eq n BYTES_PER_24K_FRAME) as Hdm.
  pose proof (Nat.mod_upper_bound n BYTES_PER_24K_FRAME ltac:(lia)) as Hr.
  rewrite Hq in Hdm. split; [nia|].
  symmetry. apply (Nat.div_unique _ _ _ (n mod BYTES_PER_24K_FRAME)); nia.
Qed.

Local Opaque BYTES_PER_24K_FRAME.

(** What the inner loop does to the state when [k] whole frames are in the
    buffer. *)
Lemma vad_while_spec (k : nat) :
  forall (hs : bool) (w : world),
    length (vad_audio_buffer (S w)) / BYTES_PER_24K_FRAME = k ->
    let frames := chunks k (vad_audio_buffer (S w)) in
    let r := vad_while hs w in
    let fire := bot_speaking_flag (S w) && existsb speech frames
                && is_open (openai_ws (S w)) in
    fst r = Ok (existsb speech frames || hs)
    /\ vad_audio_buffer (S (snd r))
       = drop (k * BYTES_PER_24K_FRAME) (vad_audio_buffer (S w))
    /\ vad_calls (S (snd r)) = vad_calls (S w) ++ frames
    /\ sent (openai_ws (S (snd r)))
       = sent (openai_ws (S w)) ++ (if fire then [Dumps response_cancel] else [])
    /\ closed (openai_ws (S (snd r))) = closed (openai_ws (S w))
    /\ bot_speaking_flag (S (snd r)) = bot_speaking_flag (S w) && negb fire.
Proof.
  induction k as [|k IH]; intros hs w Hk; cbv zeta; rewrite vad_while_unfold.
  - apply div_frame_zero in Hk.
    destruct (decide _) as [Hge|_]; [lia|]. cbn [chunks existsb fst snd].
    rewrite andb_false_r, andb_true_r, !app_nil_r. cbn [drop Nat.mul].
    repeat split; reflexivity.
  - apply div_frame_succ in Hk as [Hge Hk].
    destruct (decide _) as [_|Hlt]; [|lia].
    set (buf := vad_audio_buffer (S w)) in *.
    set (w1 := with_session (set_vad_audio_buffer (drop BYTES_PER_24K_FRAME buf)) w).
    pose proof (vad_frame_spec (take BYTES_PER_24K_FRAME buf) hs w1)
      as (Hr & Hbuf & Hcalls & Hsent & Hclosed & Hflag).
    destruct (vad_frame (take BYTES_PER_24K_FRAME buf) hs w1) as [[hs'|e] w2];
      cbn [fst snd] in *; [|discriminate].
    injection Hr as ->.
    change (vad_audio_buffer (S w1)) with (drop BYTES_PER_24K_FRAME buf) in Hbuf.
    change (vad_calls (S w1)) with (vad_calls (S w)) in Hcalls.
    change (openai_ws (S w1)) with (openai_ws (S w)) in Hsent, Hclosed, Hflag.
    change (bot_speaking_flag (S w1)) with (bot_speaking_flag (S w)) in Hsent, Hflag.
    specialize (IH (speech (take BYTES_PER_24K_FRAME buf) || hs) w2).
    rewrite Hbuf, length_drop in IH. specialize (IH Hk). cbv zeta in IH.
    destruct IH as (Ir & Ibuf & Icalls & Isent & Iclosed & Iflag).
    cbn [chunks existsb].
    set (s1 := speech (take BYTES_PER_24K_FRAME buf)) in *.
    set (rest := existsb speech (chunks k (drop BYTES_PER_24K_FRAME buf))) in *.
    rewrite Ir, Ibuf, Icalls, Isent, Iclosed, Iflag.
    rewrite Hcalls, Hsent, Hflag. unfold is_open in *. rewrite Hclosed.
    rewrite drop_drop, <- !app_assoc.
    replace (BYTES_PER_24K_FRAME + k * BYTES_PER_24K_FRAME)
      with (Datatypes.S k * BYTES_PER_24K_FRAME) by lia.
    cbn [app].
    destruct s1, rest, (bot_speaking_flag (S w)), hs,
      (closed (openai_ws (S w))); cbn; repeat split; reflexivity.
Qed.

Lemma is_cancel_response_cancel : is_cancel (Dumps response_cancel) = true.
Proof. reflexivity. Qed.

(** What a pass of the outer loop does: a chunk that does not decode ends
    the coroutine with the state as it was; otherwise the chunk joins the
    buffer and the inner loop runs on every whole frame in it. *)
Lemma vad_pass_spec (base64_data : value) (w : world) :
  let r := vad_pass base64_data w in
  match b64decode_value base64_data with
  | Raise e => r = (Raise e, w)
  | Ok raw_chunk_24k =>
      let buf := vad_audio_buffer (S w) ++ raw_chunk_24k in
      let frames := whole_frames buf in
      let fire := bot_speaking_flag (S w) && existsb speech frames
                  && is_open (openai_ws (S w)) in
      fst r = Ok tt
      /\ vad_audio_buffer (S (snd r))
         = drop (length buf / BYTES_PER_24K_FRAME * BYTES_PER_24K_FRAME) buf
      /\ vad_calls (S (snd r)) = vad_calls (S w) ++ frames
      /\ sent (openai_ws (S (snd r)))
         = sent (openai_ws (S w))
           ++ (if fire then [Dumps response_cancel] else [])
      /\ closed (openai_ws (S (snd r))) = closed (openai_ws (S w))
      /\ bot_speaking_flag (S (snd r)) = bot_speaking_flag (S w) && negb fire
  end.
Proof.
  cbv zeta. unfold vad_pass, mbind, M_bind, lift, modify, mret, M_ret.
  destruct (b64decode_value base64_data) as [raw|e]; [|reflexivity].
  set (w0 := with_session _ w).
  pose proof (vad_while_spec _ false w0 eq_refl)
    as (Hr & Hbuf & Hcalls & Hsent & Hclosed & Hflag).
  destruct (vad_while false w0) as [[hs|e] w1]; cbn [fst snd] in *;
    [|discriminate].
  repeat split; assumption.
Qed.

(** The frames the loop cuts are whole, and what it leaves is less than
    one. *)
Lemma chunks_whole (k : nat) :
  forall buf : bytes,
    k * BYTES_PER_24K_FRAME <= length buf ->
    Forall (fun f => length f = BYTES_PER_24K_FRAME) (chunks k buf).
Proof.
  induction k as [|k IH]; intros buf Hlen; cbn [chunks]; constructor.
  - rewrite length_take. lia.
  - apply IH. rewrite length_drop. lia.
Qed.

Lemma whole_frames_whole (buf : bytes) :
  Forall (fun f => length f = BYTES_PER_24K_FRAME) (whole_frames buf).
Proof.
  apply chunks_whole. pose proof frame_positive.
  pose proof (Nat.div_mod_eq (length buf) BYTES_PER_24K_FRAME). nia.
Qed.

Lemma leftover_short (buf : bytes) :
  length (drop (length buf / BYTES_PER_24K_FRAME * BYTES_PER_24K_FRAME) buf)
  < BYTES_PER_24K_FRAME.
Proof.
  pose proof frame_positive. rewrite length_drop.
  pose proof (Nat.div_mod_eq (length buf) BYTES_PER_24K_FRAME).
  pose proof (Nat.mod_upper_bound (length buf) BYTES_PER_24K_FRAME). nia.
Qed.

(** The accumulator and the log of classified frames. *)
Definition vad_view (w : world) : bytes * list bytes :=
  (vad_audio_buffer (S w), vad_calls (S w)).

Definition accumulator_ok (w : world) : Prop :=
  length (vad_audio_buffer (S w)) < BYTES_PER_24K_FRAME
  /\ Forall (fun f => length f = BYTES_PER_24K_FRAME) (vad_calls (S w)).

Lemma vad_pass_accumulator (base64_data : value) (w : world) :
  accumulator_ok w -> accumulator_ok (snd (vad_pass base64_data w)).
Proof.
  intros [Hbuf Hcalls]. pose proof (vad_pass_spec base64_data w) as Hspec.
  cbv zeta in Hspec. destruct (b64decode_value base64_data) as [raw|e].
  - destruct Hspec as (_ & Hb & Hc & _). split.
    + rewrite Hb. apply leftover_short.
    + rewrite Hc. apply Forall_app. split; [exact Hcalls|].
      apply whole_frames_whole.
  - rewrite Hspec. split; assumption.
Qed.

Lemma process_vad_audio_step_accumulator (w : world) :
  accumulator_ok w -> accumulator_ok (snd (process_vad_audio_step w)).
Proof.
  intros Hok. unfold process_vad_audio_step, mbind, M_bind, gets, modify.
  destruct (vad_queue (S w)) as [|item q]; [exact Hok|].
  apply vad_pass_accumulator. exact Hok.
Qed.

(** No other coroutine touches the accumulator. *)
Variable flow_tool : value.
Variable flow_id : str.

Lemma forward_to_openai_iteration_vad (message_text : str) :
  keeps vad_view (forward_to_openai_iteration flow_tool message_text).
Proof.
  unfold forward_to_openai_iteration, on_audio_append, on_config_or_other.
  keeps_auto.
Qed.

Lemma forward_to_client_iteration_vad (l : fc_locals) (data : str) :
  keeps vad_view (forward_to_client_iteration l data).
Proof. unfold forward_to_client_iteration. keeps_auto. Qed.

Lemma body_loop_vad (lines : list str) :
  forall result_, keeps vad_view (body_loop lines result_).
Proof.
  induction lines as [|line lines IH]; intros result_; cbn [body_loop].
  - keeps_auto.
  - destruct (negb (truthy_str line)); [apply IH|]. keeps_auto. apply IH.
Qed.

Lemma handle_function_call_vad (fc : value) (args : str) :
  keeps vad_view (handle_function_call flow_id fc args).
Proof.
  unfold handle_function_call, call_build_flow.
  keeps_auto; try apply body_loop_vad.
  intros w. reflexivity.
Qed.

Lemma send_audio_vad (audio_stream : list bytes) :
  keeps vad_view (send_audio audio_stream).
Proof.
  induction audio_stream as [|chunk rest IH]; cbn [send_audio]; keeps_auto.
  exact IH.
Qed.

Lemma run_tts_vad (text : list str) : keeps vad_view (run_tts text).
Proof. unfold run_tts. keeps_auto. apply send_audio_vad. Qed.

Lemma step_accumulator (w w' : world) :
  step flow_tool flow_id w w' -> accumulator_ok w -> accumulator_ok w'.
Proof.
  assert (Hview : forall a b, vad_view b = vad_view a ->
                              accumulator_ok a -> accumulator_ok b).
  { intros a b [= Hb Hc] [? ?]. split; [rewrite Hb|rewrite Hc]; assumption. }
  intros Hstep Hok. destruct Hstep as [w _|text w|l data w|t m w _ Hrun|text w|g w].
  - apply process_vad_audio_step_accumulator. exact Hok.
  - eapply Hview; [apply forward_to_openai_iteration_vad|exact Hok].
  - eapply Hview; [apply forward_to_client_iteration_vad|exact Hok].
  - destruct t as [|fc args]; [discriminate|]. injection Hrun as <-.
    eapply Hview; [apply handle_function_call_vad|exact Hok].
  - eapply Hview; [apply run_tts_vad|exact Hok].
  - exact Hok.
Qed.

(** C7: whenever the monitor waits for the next chunk, in any state the
    session can reach, the accumulator holds less than one native frame, and
    every frame handed to the classifier so far was a whole one. *)
Theorem vad_accumulator_invariant (g : globals) (first_update : value)
    (w : world) :
  reachable flow_tool flow_id (initial_world g first_update) w ->
  length (vad_audio_buffer (S w)) < BYTES_PER_24K_FRAME
  /\ Forall (fun f => length f = BYTES_PER_24K_FRAME) (vad_calls (S w)).
Proof.
  intros Hreach. change (accumulator_ok w).
  induction Hreach as [|w w' _ IH Hstep].
  - split; [apply frame_positive|constructor].
  - eapply step_accumulator; eassumption.
Qed.

(** The frame-level and the pass-level halves of the barge-in rule. *)
Definition frame_barge_in (frame_24k : bytes) (hs : bool) (w : world) : Prop :=
  let w' := snd (vad_frame frame_24k hs w) in
  (bot_speaking_flag (S w) = true ->
   speech frame_24k = true ->
   closed (openai_ws (S w)) = None ->
   sent (openai_ws (S w')) = sent (openai_ws (S w)) ++ [Dumps response_cancel]
   /\ bot_speaking_flag (S w') = false)
  /\ (bot_speaking_flag (S w) = false ->
      sent (openai_ws (S w')) = sent (openai_ws (S w))
      /\ bot_speaking_flag (S w') = false).

Definition pass_barge_in (base64_data : value) (raw_chunk_24k : bytes)
    (w : world) : Prop :=
  let w' := snd (vad_pass base64_data w) in
  let frames := whole_frames (vad_audio_buffer (S w) ++ raw_chunk_24k) in
  (bot_speaking_flag (S w) = true ->
   existsb speech frames = true ->
   closed (openai_ws (S w)) = None ->
   cancellations w' = cancellations w + 1
   /\ bot_speaking_flag (S w') = false)
  /\ (bot_speaking_flag (S w) = false ->
      cancellations w' = cancellations w
      /\ bot_speaking_flag (S w') = false).

(** C1, amended: while the upstream socket is open, a frame classified as
    speech while the speaking flag is set sends exactly one
    [response.cancel] upstream and clears the flag at once; with the flag
    clear nothing is sent, whatever the classification and the socket.  Over
    the frames of one pass the cancellation is sent once, at the first
    speech frame, however many follow. *)
Theorem barge_in :
  (forall frame_24k hs w, frame_barge_in frame_24k hs w)
  /\ (forall base64_data raw_chunk_24k w,
        b64decode_value base64_data = Ok raw_chunk_24k ->
        pass_barge_in base64_data raw_chunk_24k w).
Proof.
  split.
  - intros frame_24k hs w. unfold frame_barge_in. cbv zeta.
    pose proof (vad_frame_spec frame_24k hs w) as (_ & _ & _ & Hs & _ & Hf).
    cbv zeta in Hs, Hf. unfold is_open in Hs, Hf. split.
    + intros Hflag Hspeech Hopen.
      rewrite Hflag, Hspeech, Hopen in Hs, Hf. split; assumption.
    + intros Hflag. rewrite Hflag in Hs, Hf. cbn in Hs, Hf.
      rewrite app_nil_r in Hs. split; assumption.
  - intros base64_data raw w Hraw. unfold pass_barge_in. cbv zeta.
    pose proof (vad_pass_spec base64_data w) as Hspec. cbv zeta in Hspec.
    rewrite Hraw in Hspec. destruct Hspec as (_ & _ & _ & Hs & _ & Hf).
    unfold cancellations, is_open in *. rewrite Hs, filter_app, length_app.
    split.
    + intros Hflag Hspeech Hopen.
      rewrite Hflag, Hspeech, Hopen in *. split; [reflexivity|exact Hf].
    + intros Hflag. rewrite Hflag in *. cbn. split; [lia|exact Hf].
Qed.

End vad.
End VadProps.

(** ** The monitor on concrete audio *)

Module VadExamples.
Import Voice VadProps.

Definition E : Externals := Ref.externals Ref.echo_flow.

Definition barge_in_on : globals :=
  {| use_elevenlabs := JBool false;
     elevenlabs_voice := jstr "JBFqnCBsd6RMkjVDRZzb";
     elevenlabs_model := lit "eleven_multilingual_v2";
     barge_in_enabled := true |}.

(** A client message carrying 1000 bytes of audio: one frame and 40 bytes. *)
Definition append_1000 : str :=
  Ref.dumps (JDict ["type" :- jstr "input_audio_buffer.append";
                    "audio" :- JStr (Ref.b64encode (repeat Byte.x01 1000))]).

Definition w0 : world := initial_world barge_in_on JNull.
Definition w1 : world :=
  snd (@forward_to_openai_iteration E JNull append_1000 w0).
Definition w2 : world :=
  snd (@process_vad_audio_step Ref.scipy E w1).

(** The invariant at a state reached by a client message and a pass of the
    monitor. *)
Lemma vad_accumulator_invariant_witness :
  reachable (H := Ref.scipy) (H0 := E) JNull [] w0 w2
  /\ length (vad_audio_buffer (S w2)) < BYTES_PER_24K_FRAME
  /\ Forall (fun f => length f = BYTES_PER_24K_FRAME) (vad_calls (S w2)).
Proof.
  assert (Hreach : reachable (H := Ref.scipy) (H0 := E) JNull [] w0 w2).
  { eapply reach_step; [eapply reach_step; [apply reach_start|]|].
    - apply (step_from_client (H := Ref.scipy) (H0 := E) JNull [] append_1000 w0).
    - apply (step_vad (H := Ref.scipy) (H0 := E) JNull [] w1).
      vm_compute. reflexivity. }
  split; [exact Hreach|].
  exact (@vad_accumulator_invariant Ref.scipy E JNull [] barge_in_on JNull w2
           Hreach).
Defined.

(** The same message while the assistant speaks: the pass over its one whole
    frame, which is speech, cancels once. *)
Definition w1_speaking : world := with_session (set_bot_speaking_flag true) w1.

Lemma barge_in_witness :
  bot_speaking_flag (S w1_speaking) = true
  /\ cancellations (snd (@vad_pass Ref.scipy E (JStr (Ref.b64encode (repeat Byte.x01 1000)))
                           w1_speaking))
     = cancellations w1_speaking + 1
  /\ bot_speaking_flag
       (S (snd (@vad_pass Ref.scipy E (JStr (Ref.b64encode (repeat Byte.x01 1000)))
                  w1_speaking))) = false.
Proof.
  split; [reflexivity|].
  apply (proj1 (proj2 (@barge_in Ref.scipy E)
                  (JStr (Ref.b64encode (repeat Byte.x01 1000)))
                  (repeat Byte.x01 1000) w1_speaking
                  ltac:(vm_compute; reflexivity)));
    vm_compute; reflexivity.
Defined.

(** The same state with the upstream connection gone: every send on it
    raises. *)
Definition w1_gone : world :=
  with_session
    (set_openai_ws
       {| closed := Some (ConnectionClosed
                            (lit "no close frame received or sent"));
          sent := sent (openai_ws (S w1_speaking)) |})
    w1_speaking.

(** Without a condition on the upstream socket the rule of C1 fails: in
    [w1_gone] the flag is set and the frame of 960 octets [01] is speech, yet
    the send of line 320 raises, the [except] clause of line 323 takes over,
    no cancellation is sent and the flag stays set. *)
Lemma barge_in_needs_open_socket :
  ~ (forall (frame_24k : bytes) (hs : bool) (w : world),
       bot_speaking_flag (S w) = true ->
       @speech Ref.scipy E frame_24k = true ->
       let w' := snd (@vad_frame Ref.scipy E frame_24k hs w) in
       sent (openai_ws (S w'))
       = sent (openai_ws (S w)) ++ [Dumps response_cancel]
       /\ bot_speaking_flag (S w') = false).
Proof.
  intros Hrule.
  destruct (Hrule (repeat Byte.x01 960) false w1_gone
              ltac:(reflexivity) ltac:(vm_compute; reflexivity)) as [_ Hflag].
  vm_compute in Hflag. discriminate Hflag.
Qed.

End VadExamples.

(** ** The client-to-upstream pump *)

Module PumpProps.
Import Voice Frame.

Lemma eq_str_true (v : value) (s : str) : eq_str v s = true -> v = JStr s.
Proof.
  destruct v; cbn; try discriminate. unfold str_eqb.
  intros Heq. apply bool_decide_eq_true in Heq. congruence.
Qed.

Lemma eq_str_other (v : value) (a b : str) :
  eq_str v a = true -> a <> b -> eq_str v b = false.
Proof.
  intros Ha Hab. apply eq_str_true in Ha as ->. cbn. unfold str_eqb.
  apply bool_decide_eq_false. exact Hab.
Qed.

Lemma openai_send_open (fr : frame) (w : world) :
  closed (openai_ws (S w)) = None ->
  openai_send fr w
  = (Ok tt,
     with_session
       (set_openai_ws {| closed := None;
                         sent := sent (openai_ws (S w)) ++ [fr] |}) w).
Proof. intros Hopen. unfold openai_send, socket_send. rewrite Hopen. reflexivity. Qed.

Lemma client_send_open (fr : frame) (w : world) :
  closed (client_websocket (S w)) = None ->
  client_send fr w
  = (Ok tt,
     with_session
       (set_client_websocket {| closed := None;
                                sent := sent (client_websocket (S w)) ++ [fr] |}) w).
Proof. intros Hopen. unfold client_send, socket_send. rewrite Hopen. reflexivity. Qed.

Section pump.
Context `{SciPy} `{Externals}.
Variable flow_tool : value.

(** The type a frame on the wire declares: of a dumped value directly, of a
    text passed on through the decoder. *)
Definition frame_type (fr : frame) : result value :=
  match fr with
  | Dumps v => get v (lit "type") JNull
  | Text s => v ← json_loads s; get v (lit "type") JNull
  end.

Definition is_audio_append (fr : frame) : bool :=
  match frame_type fr with
  | Ok ty => eq_str ty (lit "input_audio_buffer.append")
  | Raise _ => false
  end.

(** [message_text] decodes to a dict of type [ty]. *)
Definition message_of_type (message_text : str) (msg : value) (ty : string)
  : Prop :=
  json_loads message_text = Ok msg
  /\ exists t, get msg (lit "type") JNull = Ok t /\ eq_str t (lit ty) = true.

(** What reaches the upstream socket and the VAD queue for an audio message:
    the claim of C4 asks for one append frame. *)
Definition audio_append_outcome (message_text : str) (audio : value)
    (w : world) : Prop :=
  let w' := snd (forward_to_openai_iteration flow_tool message_text w) in
  let new :=
    [Dumps (JDict ["type" :- jstr "input_audio_buffer.append";
                   "audio" :- audio]);
     Text message_text] in
  sent (openai_ws (S w')) = sent (openai_ws (S w)) ++ new
  /\ length (List.filter is_audio_append new) = 2
  /\ vad_queue (S w') = vad_queue (S w) ++ [audio].

(** C4, on the code: an audio message with a non-empty payload reaches the
    upstream socket twice, once rebuilt by the first [if] and once verbatim
    by the [else] of the second, which the first does not skip.  The payload
    joins the VAD queue once. *)
Theorem audio_append_sent_twice (message_text : str) (msg audio : value)
    (w : world) :
  message_of_type message_text msg "input_audio_buffer.append" ->
  get msg (lit "audio") (JStr []) = Ok audio ->
  truthy audio = true ->
  closed (openai_ws (S w)) = None ->
  audio_append_outcome message_text audio w.
Proof.
  intros (Hparse & ty & Hty & Happ) Haudio Htruthy Hopen.
  assert (Hcfg : eq_str ty (lit "elevenlabs.config") = false)
    by (eapply eq_str_other; [exact Happ|discriminate]).
  unfold audio_append_outcome. cbv zeta.
  assert (Hrun : forward_to_openai_iteration flow_tool message_text w
                 = openai_send (Text message_text)
                     (with_session
                        (fun s => set_vad_queue (vad_queue s ++ [audio]) s)
                        (with_session
                           (set_openai_ws
                              {| closed := None;
                                 sent := sent (openai_ws (S w))
                                         ++ [Dumps (JDict ["type" :- jstr "input_audio_buffer.append";
                                                           "audio" :- audio])] |})
                           w))).
  { unfold forward_to_openai_iteration, on_audio_append, on_config_or_other,
      mbind, M_bind, lift, modify, mret, M_ret.
    rewrite Hparse, Hty, Happ, Haudio, Htruthy. cbn [negb].
    rewrite openai_send_open by exact Hopen. rewrite ?Hty, Hcfg. reflexivity. }
  rewrite Hrun, openai_send_open by reflexivity. cbn [snd S with_session].
  repeat split.
  - cbn. rewrite <- app_assoc. reflexivity.
  - assert (is_audio_append (Text message_text) = true) as Hverbatim.
    { unfold is_audio_append, frame_type, mbind, result_bind, rbind.
      rewrite Hparse, Hty. exact Happ. }
    cbn [List.filter]. rewrite Hverbatim. reflexivity.
Qed.

(** The [session.update] a frame carries declares these modalities. *)
Definition modalities_of (fr : frame) : result value :=
  match fr with
  | Dumps v =>
      session_ ← get v (lit "session") JNull;
      get session_ (lit "modalities") JNull
  | Text _ => Raise (ValueError [])
  end.

(** C10: for a configuration message, whatever it says under [enabled], the
    one frame sent upstream is the [session.update] whose modalities are
    exactly ["text"]; the local [modalities] is computed and dropped, so a
    message with [enabled] false does not bring ["text", "audio"] back.
    The module variables take the two values of the message. *)
Theorem config_modalities_text_only (message_text : str)
    (msg enabled voice_id : value) (w : world) :
  message_of_type message_text msg "elevenlabs.config" ->
  getitem msg (lit "enabled") = Ok enabled ->
  getitem msg (lit "voice_id") = Ok voice_id ->
  closed (openai_ws (S w)) = None ->
  let w' := snd (forward_to_openai_iteration flow_tool message_text w) in
  let update := Dumps (session_update flow_tool [jstr "text"]) in
  sent (openai_ws (S w')) = sent (openai_ws (S w)) ++ [update]
  /\ modalities_of update = Ok (JList [jstr "text"])
  /\ local_modalities (JBool false) = [jstr "text"; jstr "audio"]
  /\ use_elevenlabs (G w') = enabled
  /\ elevenlabs_voice (G w') = voice_id.
Proof.
  intros (Hparse & ty & Hty & Hcfg) Hen Hvoice Hopen.
  assert (Happ : eq_str ty (lit "input_audio_buffer.append") = false)
    by (eapply eq_str_other; [exact Hcfg|discriminate]).
  cbv zeta.
  unfold forward_to_openai_iteration, on_audio_append, on_config_or_other,
    mbind, M_bind, lift, modify, mret, M_ret, gets.
  rewrite Hparse, !Hty, Happ, ?Hty, Hcfg, Hen, Hvoice.
  rewrite openai_send_open by exact Hopen.
  repeat split.
Qed.

(** Without the two keys, or on a closed socket, a configuration message
    sends nothing: no other [session.update] can leave this branch. *)
Lemma config_sends_at_most_the_update (message_text : str) (msg : value)
    (w : world) :
  message_of_type message_text msg "elevenlabs.config" ->
  let w' := snd (forward_to_openai_iteration flow_tool message_text w) in
  sent (openai_ws (S w')) = sent (openai_ws (S w))
  \/ sent (openai_ws (S w'))
     = sent (openai_ws (S w)) ++ [Dumps (session_update flow_tool [jstr "text"])].
Proof.
  intros (Hparse & ty & Hty & Hcfg).
  assert (Happ : eq_str ty (lit "input_audio_buffer.append") = false)
    by (eapply eq_str_other; [exact Hcfg|discriminate]).
  cbv zeta.
  unfold forward_to_openai_iteration, on_audio_append, on_config_or_other,
    mbind, M_bind, lift, modify, mret, M_ret, gets.
  rewrite Hparse, !Hty, Happ, ?Hty, Hcfg.
  destruct (getitem msg (lit "enabled")) as [enabled|e]; [|left; reflexivity].
  destruct (getitem msg (lit "voice_id")) as [voice|e]; [|left; reflexivity].
  unfold openai_send, socket_send. cbn.
  destruct (closed (openai_ws (S w))); [left|right]; reflexivity.
Qed.

End pump.
End PumpProps.

(** ** Module variables and concurrent sessions *)

Module SessionProps.
Import Voice Frame PumpProps.

Section sessions.
Context `{SciPy} `{Externals}.
Variable flow_tool : value.

(** C9 as stated: a message handled by one session changes neither the
    voice nor the backend selection another session works with. *)
Definition tts_config_is_per_session : Prop :=
  forall (p p' : process) (sid other : nat) (message_text : str)
         (r : result unit),
    sid <> other ->
    in_session sid (forward_to_openai_iteration flow_tool message_text) p
    = Some (r, p') ->
    voice_used_by other p' = voice_used_by other p
    /\ use_elevenlabs (module_vars p') = use_elevenlabs (module_vars p).

Lemma send_audio_tts_calls (audio_stream : list bytes) :
  keeps (fun w => tts_calls (S w)) (send_audio audio_stream).
Proof.
  induction audio_stream as [|chunk rest IH]; cbn [send_audio]; keeps_auto.
  exact IH.
Qed.

(** [run_tts] passes the module variables as they are when it runs. *)
Lemma run_tts_reads_module_vars (text : list str) (w : world) :
  tts_calls (S (snd (run_tts text w)))
  = tts_calls (S w) ++ [(elevenlabs_voice (G w), elevenlabs_model (G w))].
Proof.
  unfold run_tts, try_except.
  cbv [mbind M_bind gets modify lift].
  set (w1 := with_session _ w).
  destruct (generate _ _ text) as [audio|e]; [|reflexivity].
  pose proof (send_audio_tts_calls (audio_chunks audio) w1) as Hk.
  destruct (send_audio (audio_chunks audio) w1) as [[u|e] w2];
    [destruct (audio_failure audio)|]; cbn in *; exact Hk.
Qed.

(** The two assignments of lines 420-421 happen whether or not the frame can
    be sent afterwards. *)
Lemma config_sets_module_vars (message_text : str)
    (msg enabled voice_id : value) (w : world) :
  message_of_type message_text msg "elevenlabs.config" ->
  getitem msg (lit "enabled") = Ok enabled ->
  getitem msg (lit "voice_id") = Ok voice_id ->
  let w' := snd (forward_to_openai_iteration flow_tool message_text w) in
  use_elevenlabs (G w') = enabled /\ elevenlabs_voice (G w') = voice_id.
Proof.
  intros (Hparse & ty & Hty & Hcfg) Hen Hvoice.
  assert (Happ : eq_str ty (lit "input_audio_buffer.append") = false)
    by (eapply eq_str_other; [exact Hcfg|discriminate]).
  cbv zeta.
  unfold forward_to_openai_iteration, on_audio_append, on_config_or_other,
    mbind, M_bind, lift, modify, mret, M_ret, gets.
  rewrite Hparse, !Hty, Happ, ?Hty, Hcfg, Hen, Hvoice.
  unfold openai_send, socket_send. cbn.
  destruct (closed (openai_ws (S w))); split; reflexivity.
Qed.

(** C9, amended: the backend selection and the voice are module variables,
    one copy for all sessions of the process.  A configuration message
    handled by one session leaves the state of every other session as it
    was, and sets the selection and the voice for all of them: the voice
    [run_tts] of another session passes from then on is the [voice_id] of
    that message. *)
Theorem tts_config_is_process_wide (p : process) (sid other : nat)
    (s o : session_state) (message_text : str)
    (msg enabled voice_id : value) :
  sid <> other ->
  sessions p !! sid = Some s ->
  sessions p !! other = Some o ->
  message_of_type message_text msg "elevenlabs.config" ->
  getitem msg (lit "enabled") = Ok enabled ->
  getitem msg (lit "voice_id") = Ok voice_id ->
  exists r p',
    in_session sid (forward_to_openai_iteration flow_tool message_text) p
    = Some (r, p')
    /\ sessions p' !! other = Some o
    /\ use_elevenlabs (module_vars p') = enabled
    /\ elevenlabs_voice (module_vars p') = voice_id
    /\ voice_used_by other p' = Some voice_id.
Proof.
  intros Hne Hs Ho Hmsg Hen Hvoice.
  pose proof (config_sets_module_vars message_text msg enabled voice_id
                {| G := module_vars p; S := s |} Hmsg Hen Hvoice) as [Hu Hv].
  cbv zeta in Hu, Hv. unfold in_session at 1. rewrite Hs.
  destruct (forward_to_openai_iteration flow_tool message_text
              {| G := module_vars p; S := s |}) as [r w'].
  cbn [snd] in Hu, Hv.
  eexists r, _. split; [reflexivity|]. cbn [module_vars sessions].
  assert (Hother : (<[sid:=S w']> (sessions p)) !! other = Some o)
    by (rewrite lookup_insert_ne by exact Hne; exact Ho).
  split; [exact Hother|]. split; [exact Hu|]. split; [exact Hv|].
  unfold voice_used_by, in_session. cbn [module_vars sessions].
  rewrite Hother.
  pose proof (run_tts_reads_module_vars [] {| G := G w'; S := o |}) as Hcalls.
  destruct (run_tts [] {| G := G w'; S := o |}) as [r2 w2].
  cbn [snd module_vars sessions G S] in *.
  rewrite lookup_insert_eq, Hcalls, last_snoc. cbn. rewrite Hv. reflexivity.
Qed.

End sessions.
End SessionProps.

(** ** The pump and the module variables on concrete messages *)

Module PumpExamples.
Import Voice PumpProps SessionProps.

Definition E : Externals := Ref.externals Ref.echo_flow.

(** The text of [{"type": "input_audio_buffer.append", "audio": "AAAA"}]. *)
Definition append_AAAA : str :=
  Ref.dumps (JDict ["type" :- jstr "input_audio_buffer.append";
                    "audio" :- jstr "AAAA"]).

(** The text of a configuration message that turns the backend off. *)
Definition config_off : str :=
  Ref.dumps (JDict ["type" :- jstr "elevenlabs.config";
                    "enabled" :- JBool false;
                    "voice_id" :- jstr "voice-of-session-1"]).

Definition w0 : world := initial_world initial_globals JNull.

Lemma append_AAAA_message :
  message_of_type (H0 := E) append_AAAA
    (JDict ["type" :- jstr "input_audio_buffer.append"; "audio" :- jstr "AAAA"])
    "input_audio_buffer.append".
Proof. split; [reflexivity|]. eexists; split; reflexivity. Defined.

Lemma config_off_message :
  message_of_type (H0 := E) config_off
    (JDict ["type" :- jstr "elevenlabs.config"; "enabled" :- JBool false;
            "voice_id" :- jstr "voice-of-session-1"])
    "elevenlabs.config".
Proof. split; [reflexivity|]. eexists; split; reflexivity. Defined.

(** The audio message above, on a fresh session: two append frames. *)
Lemma audio_append_sent_twice_witness :
  audio_append_outcome (H0 := E) JNull append_AAAA (jstr "AAAA") w0.
Proof.
  apply (audio_append_sent_twice (H0 := E) JNull append_AAAA
           (JDict ["type" :- jstr "input_audio_buffer.append";
                   "audio" :- jstr "AAAA"]) (jstr "AAAA") w0
           append_AAAA_message); reflexivity.
Defined.

(** The very frames on the upstream socket after that message, the
    [session.update] of connection time first. *)
Lemma audio_append_upstream_frames :
  sent (openai_ws (S (snd (forward_to_openai_iteration (H0 := E) JNull
                             append_AAAA w0))))
  = [Dumps JNull;
     Dumps (JDict ["type" :- jstr "input_audio_buffer.append";
                   "audio" :- jstr "AAAA"]);
     Text append_AAAA].
Proof. vm_compute. reflexivity. Qed.

(** The configuration message above, on a fresh session. *)
Lemma config_modalities_text_only_witness :
  let w' := snd (forward_to_openai_iteration (H0 := E) JNull config_off w0) in
  let update := Dumps (session_update JNull [jstr "text"]) in
  sent (openai_ws (S w')) = sent (openai_ws (S w0)) ++ [update]
  /\ modalities_of update = Ok (JList [jstr "text"])
  /\ local_modalities (JBool false) = [jstr "text"; jstr "audio"]
  /\ use_elevenlabs (G w') = JBool false
  /\ elevenlabs_voice (G w') = jstr "voice-of-session-1".
Proof.
  apply (config_modalities_text_only (H0 := E) JNull config_off
           (JDict ["type" :- jstr "elevenlabs.config"; "enabled" :- JBool false;
                   "voice_id" :- jstr "voice-of-session-1"])
           (JBool false) (jstr "voice-of-session-1") w0
           config_off_message); reflexivity.
Defined.

(** Two sessions of one process. *)
Definition two_sessions : process :=
  {| module_vars := initial_globals;
     sessions := <[1 := initial_session JNull]>
                   (<[2 := initial_session JNull]> ∅) |}.

(** The amended C9 at these two sessions. *)
Lemma tts_config_is_process_wide_witness :
  exists r p',
    in_session 1 (forward_to_openai_iteration (H0 := E) JNull config_off)
      two_sessions = Some (r, p')
    /\ sessions p' !! 2 = Some (initial_session JNull)
    /\ use_elevenlabs (module_vars p') = JBool false
    /\ elevenlabs_voice (module_vars p') = jstr "voice-of-session-1"
    /\ voice_used_by (H0 := E) 2 p' = Some (jstr "voice-of-session-1").
Proof.
  apply (tts_config_is_process_wide (H0 := E) JNull two_sessions 1 2
           (initial_session JNull) (initial_session JNull) config_off
           (JDict ["type" :- jstr "elevenlabs.config"; "enabled" :- JBool false;
                   "voice_id" :- jstr "voice-of-session-1"])
           (JBool false) (jstr "voice-of-session-1"));
    [lia | reflexivity | reflexivity | exact config_off_message
    | reflexivity | reflexivity].
Defined.

(** C9, as stated, fails: after session 1 handles the configuration message,
    session 2 synthesises with the voice session 1 asked for. *)
Lemma config_leaks_across_sessions :
  ~ tts_config_is_per_session (H0 := E) JNull.
Proof.
  intros Hper.
  destruct (in_session 1 (forward_to_openai_iteration (H0 := E) JNull config_off)
              two_sessions) as [[r p']|] eqn:Hrun;
    [|vm_compute in Hrun; discriminate].
  destruct (Hper two_sessions p' 1 2 config_off r ltac:(lia) Hrun) as [Hsame _].
  vm_compute in Hrun. injection Hrun as <- <-.
  vm_compute in Hsame. discriminate Hsame.
Qed.

End PumpExamples.

(** ** The tool-call round trip *)

Module ToolProps.
Import Voice Frame PumpProps.

Definition response_create : value := JDict ["type" :- jstr "response.create"].

Definition error_text (e : exn) : str :=
  lit "Error executing flow: " ++ exn_str e.

(** The call id and the output of a frame that is a
    [function_call_output]. *)
Definition as_function_call_output (fr : frame) : option (value * value) :=
  match fr with
  | Dumps v =>
      match (item_ ← get v (lit "item") JNull;
             ty ← get item_ (lit "type") JNull;
             call_id ← get item_ (lit "call_id") JNull;
             output ← get item_ (lit "output") JNull;
             Ok (ty, (call_id, output))) with
      | Ok (ty, answer) =>
          if eq_str ty (lit "function_call_output") then Some answer else None
      | Raise _ => None
      end
  | Text _ => None
  end.

Definition function_call_outputs (frames : list frame)
  : list (value * value) :=
  omap as_function_call_output frames.

(** The text [{"input":"hi"}]. *)
Definition input_hi : str :=
  lit "{" ++ [Ref.quote] ++ lit "input" ++ [Ref.quote] ++ lit ":"
  ++ [Ref.quote] ++ lit "hi" ++ [Ref.quote] ++ lit "}".

(** The request the handler builds around an input. *)
Definition request_for (input : value) (conversation_id : str)
  : InputValueRequest :=
  {| input_value := input; components := []; type_ := lit "chat";
     session := conversation_id |}.

Section tool.
Context `{SciPy} `{Externals}.
Variable flow_id : str.

(** Lines 136-141 up to the call: the arguments are decoded, the request is
    built, the flow id is parsed.  None of this touches the state. *)
Definition prepare (function_call_args conversation_id : str)
  : result (str * InputValueRequest) :=
  args ← (if truthy_str function_call_args
          then json_loads function_call_args
          else Ok (JDict []));
  input ← get args (lit "input") JNull;
  input_request ← new_InputValueRequest input [] (lit "chat") conversation_id;
  fid ← UUID flow_id;
  Ok (fid, input_request).

(** The [except] clause, lines 172-182. *)
Definition on_error (function_call : value) (e : exn) : M unit :=
  call_id ← lift (get function_call (lit "call_id") JNull);
  openai_send (Dumps (function_call_output call_id (error_text e))).

(** Lines 162-171. *)
Definition reply (function_call : value) (result_ : str) : M unit :=
  call_id ← lift (get function_call (lit "call_id") JNull);
  _ ← openai_send (Dumps (function_call_output call_id result_));
  openai_send (Dumps response_create).

(** The handler along its points of failure. *)
Lemma handle_function_call_cases (fc : value) (args : str) (w : world) :
  handle_function_call flow_id fc args w
  = let n := uuid_draws (S w) in
    let w1 := with_session (set_uuid_draws (Datatypes.S n)) w in
    match prepare args (uuid4 n) with
    | Raise e => on_error fc e w1
    | Ok (fid, input_request) =>
        let w2 := with_session
                    (fun s => set_flow_calls
                                (flow_calls s ++ [(fid, input_request)]) s) w1 in
        match build_flow fid input_request with
        | Raise e => on_error fc e w2
        | Ok response =>
            match body_loop (body_lines response) [] w2 with
            | (Raise e, w3) => on_error fc e w3
            | (Ok result_, w3) =>
                match body_failure response with
                | Some e => on_error fc e w3
                | None => try_except (reply fc result_) (on_error fc) w3
                end
            end
        end
    end.
Proof.
  cbv zeta.
  unfold handle_function_call, prepare, try_except, call_build_flow, fresh_uuid.
  cbv [mbind M_bind result_bind rbind lift modify].
  destruct (if truthy_str args then json_loads args else Ok (JDict []))
    as [a|e]; [|reflexivity].
  destruct (get a (lit "input") JNull) as [input|e]; [|reflexivity].
  destruct (new_InputValueRequest input [] (lit "chat") _) as [req|e];
    [|reflexivity].
  destruct (UUID flow_id) as [fid|e]; [|reflexivity].
  destruct (build_flow fid req) as [response|e]; [|reflexivity].
  destruct (body_loop (body_lines response) [] _) as [[result_|e] w3];
    [|reflexivity].
  destruct (body_failure response) as [e|]; [reflexivity|].
  unfold reply, on_error. cbv [mbind M_bind lift].
  destruct (get fc (lit "call_id") JNull) as [call_id|e]; [|reflexivity].
  destruct (openai_send _ w3) as [[u|e] w4]; [|reflexivity].
  destruct (openai_send _ w4) as [[u'|e] w5]; reflexivity.
Qed.

Definition tool_view (w : world)
  : socket * list (str * InputValueRequest) :=
  (openai_ws (S w), flow_calls (S w)).

Lemma body_loop_upstream (lines : list str) :
  forall result_, keeps tool_view (body_loop lines result_).
Proof.
  induction lines as [|line lines IH]; intros result_; cbn [body_loop].
  - keeps_auto.
  - destruct (negb (truthy_str line)); [apply IH|]. keeps_auto. apply IH.
Qed.

Lemma on_error_flow_calls (fc : value) (e : exn) :
  keeps (fun w => flow_calls (S w)) (on_error fc e).
Proof. unfold on_error. keeps_auto. Qed.

Lemma reply_flow_calls (fc : value) (result_ : str) :
  keeps (fun w => flow_calls (S w)) (try_except (reply fc result_) (on_error fc)).
Proof. unfold reply, on_error. keeps_auto. Qed.

Lemma on_error_open (fc call_id : value) (e : exn) (w : world) :
  get fc (lit "call_id") JNull = Ok call_id ->
  closed (openai_ws (S w)) = None ->
  on_error fc e w
  = (Ok tt,
     with_session
       (set_openai_ws
          {| closed := None;
             sent := sent (openai_ws (S w))
                     ++ [Dumps (function_call_output call_id (error_text e))] |})
       w).
Proof.
  intros Hid Hopen. unfold on_error, mbind, M_bind, lift. rewrite Hid.
  apply openai_send_open. exact Hopen.
Qed.

Lemma reply_open (fc call_id : value) (result_ : str) (w : world) :
  get fc (lit "call_id") JNull = Ok call_id ->
  closed (openai_ws (S w)) = None ->
  let r := try_except (reply fc result_) (on_error fc) w in
  fst r = Ok tt
  /\ sent (openai_ws (S (snd r)))
     = sent (openai_ws (S w))
       ++ [Dumps (function_call_output call_id result_); Dumps response_create]
  /\ flow_calls (S (snd r)) = flow_calls (S w).
Proof.
  intros Hid Hopen. cbv zeta.
  unfold try_except, reply, mbind, M_bind, lift. rewrite Hid.
  rewrite openai_send_open by exact Hopen.
  rewrite openai_send_open by reflexivity. cbn.
  rewrite <- app_assoc. repeat split.
Qed.

(** The executor is called when, and only when, the request could be
    prepared: once. *)
Lemma handle_function_call_invokes (fc : value) (args : str) (w : world) :
  flow_calls (S (snd (handle_function_call flow_id fc args w)))
  = match prepare args (uuid4 (uuid_draws (S w))) with
    | Ok call => flow_calls (S w) ++ [call]
    | Raise _ => flow_calls (S w)
    end.
Proof.
  rewrite handle_function_call_cases. cbv zeta.
  destruct (prepare args _) as [[fid req]|e];
    [|exact (on_error_flow_calls fc e _)].
  cbv beta iota.
  set (w2 := with_session _ (with_session _ w)).
  transitivity (flow_calls (S w2)); [|reflexivity].
  destruct (build_flow fid req) as [response|e];
    [|exact (on_error_flow_calls fc e _)].
  pose proof (body_loop_upstream (body_lines response) [] w2) as Hk.
  destruct (body_loop (body_lines response) [] w2) as [[result_|e] w3];
    cbn [snd] in Hk; injection Hk as _ Hfc;
    (transitivity (flow_calls (S w3)); [|exact Hfc]).
  - destruct (body_failure response) as [e|];
      [exact (on_error_flow_calls fc e _)
      |exact (reply_flow_calls fc result_ _)].
  - exact (on_error_flow_calls fc e _).
Qed.

(** What the handler leaves on an open upstream socket: it returns, and it
    has sent one [function_call_output] for the call, followed by
    [response.create] or, after a failure, carrying the text of the
    exception. *)
Definition answered (call_id : value) (w : world) (r : result unit * world)
    (output : str) (rest : list frame) : Prop :=
  fst r = Ok tt
  /\ sent (openai_ws (S (snd r)))
     = sent (openai_ws (S w))
       ++ Dumps (function_call_output call_id output) :: rest
  /\ function_call_outputs (Dumps (function_call_output call_id output) :: rest)
     = [(call_id, JStr output)].

Lemma answered_error (call_id fc : value) (e : exn) (w0 w : world) :
  get fc (lit "call_id") JNull = Ok call_id ->
  closed (openai_ws (S w)) = None ->
  sent (openai_ws (S w)) = sent (openai_ws (S w0)) ->
  answered call_id w0 (on_error fc e w) (error_text e) [].
Proof.
  intros Hid Hopen Hsent. rewrite (on_error_open fc call_id e w Hid Hopen).
  repeat split. cbn. rewrite Hsent. reflexivity.
Qed.

Lemma handle_function_call_answers (fc call_id : value) (args : str)
    (w : world) :
  get fc (lit "call_id") JNull = Ok call_id ->
  closed (openai_ws (S w)) = None ->
  let r := handle_function_call flow_id fc args w in
  exists output rest,
    answered call_id w r output rest
    /\ match prepare args (uuid4 (uuid_draws (S w))) with
       | Raise e => rest = [] /\ output = error_text e
       | Ok (fid, input_request) =>
           match build_flow fid input_request with
           | Raise e => rest = [] /\ output = error_text e
           | Ok _ =>
               rest = [Dumps response_create]
               \/ (rest = [] /\ exists e, output = error_text e)
           end
       end.
Proof.
  intros Hid Hopen. cbv zeta. rewrite handle_function_call_cases. cbv zeta.
  destruct (prepare args _) as [[fid req]|e].
  2: { exists (error_text e), []. split; [|split; reflexivity].
       apply (answered_error call_id fc e w); [exact Hid|exact Hopen|reflexivity]. }
  set (w2 := with_session _ (with_session _ w)).
  destruct (build_flow fid req) as [response|e].
  2: { exists (error_text e), []. split; [|split; reflexivity].
       apply (answered_error call_id fc e w); [exact Hid|exact Hopen|reflexivity]. }
  pose proof (body_loop_upstream (body_lines response) [] w2) as Hk.
  destruct (body_loop (body_lines response) [] w2) as [[result_|e] w3];
    cbn [snd] in Hk; injection Hk as Hws _;
    change (openai_ws (S w2)) with (openai_ws (S w)) in Hws.
  - destruct (body_failure response) as [e|].
    + exists (error_text e), []. split; [|right; split; [reflexivity|eauto]].
      apply (answered_error call_id fc e w); rewrite ?Hws; auto.
    + exists result_, [Dumps response_create]. split; [|left; reflexivity].
      destruct (reply_open fc call_id result_ w3 Hid) as (Hr & Hs & _);
        [rewrite Hws; exact Hopen|].
      repeat split; [exact Hr|]. rewrite Hs, Hws. reflexivity.
  - exists (error_text e), []. split; [|right; split; [reflexivity|eauto]].
    apply (answered_error call_id fc e w); rewrite ?Hws; auto.
Qed.

(** *** Every failure is answered *)

(** What reading the lines of a response comes to, as a function of the
    lines alone and of whether the client socket has gone: the text of the
    [end_vertex] messages, or the first exception met.  A line is decoded
    before it is passed on to the client, so a line that does not decode
    fails with the decoder's exception on either kind of socket. *)
Fixpoint stream_text (client_closed : option exn) (lines : list str)
    (result_ : str) : result str :=
  match lines with
  | [] => Ok result_
  | line :: rest =>
      if negb (truthy_str line) then stream_text client_closed rest result_
      else
        event_data ← json_loads line;
        _ ← match client_closed with
            | Some e => Raise e
            | None => Ok tt
            end;
        ev ← get event_data (lit "event") JNull;
        result' ← (if eq_str ev (lit "end_vertex")
                   then text_part ← end_vertex_text event_data;
                        str_iadd result_ text_part
                   else Ok result_);
        stream_text client_closed rest result'
  end.

(** How the [try] block of lines 135-171 ends before anything is sent
    upstream: with the text of the result, or with the first exception
    raised by the decoder, the request, the flow id, the executor, a line of
    the response or the iterator of the response. *)
Definition flow_outcome (function_call_args conversation_id : str)
    (client_closed : option exn) : result str :=
  match prepare function_call_args conversation_id with
  | Raise e => Raise e
  | Ok (fid, input_request) =>
      match build_flow fid input_request with
      | Raise e => Raise e
      | Ok response =>
          match stream_text client_closed (body_lines response) [] with
          | Raise e => Raise e
          | Ok result_ =>
              match body_failure response with
              | Some e => Raise e
              | None => Ok result_
              end
          end
      end
  end.

(** The frames that answer a call: the result and [response.create], or the
    error text alone. *)
Definition answer (call_id : value) (outcome : result str) : list frame :=
  match outcome with
  | Ok result_ =>
      [Dumps (function_call_output call_id result_); Dumps response_create]
  | Raise e => [Dumps (function_call_output call_id (error_text e))]
  end.

Lemma body_loop_outcome (lines : list str) :
  forall (result_ : str) (w : world),
    fst (body_loop lines result_ w)
    = stream_text (closed (client_websocket (S w))) lines result_.
Proof.
  induction lines as [|line lines IH]; intros result_ w;
    cbn [body_loop stream_text]; [reflexivity|].
  destruct (negb (truthy_str line)); [apply IH|].
  unfold mbind, M_bind, result_bind, rbind, lift.
  destruct (json_loads line) as [event_data|e]; [|reflexivity].
  unfold client_send, socket_send.
  destruct (closed (client_websocket (S w))) as [e|] eqn:Hclosed;
    [reflexivity|].
  destruct (get event_data (lit "event") JNull) as [ev|e]; [|reflexivity].
  destruct (eq_str ev (lit "end_vertex")).
  - destruct (end_vertex_text event_data) as [text_part|e]; [|reflexivity].
    destruct (str_iadd result_ text_part) as [result'|e]; [|reflexivity].
    cbn [mret M_ret]. rewrite IH. reflexivity.
  - cbn [mret M_ret]. rewrite IH. reflexivity.
Qed.

(** On an open upstream socket the handler returns, and what it has sent is
    the answer to the outcome of the [try] block. *)
Lemma handle_function_call_upstream (fc call_id : value) (args : str)
    (w : world) :
  get fc (lit "call_id") JNull = Ok call_id ->
  closed (openai_ws (S w)) = None ->
  let r := handle_function_call flow_id fc args w in
  fst r = Ok tt
  /\ sent (openai_ws (S (snd r)))
     = sent (openai_ws (S w))
       ++ answer call_id
            (flow_outcome args (uuid4 (uuid_draws (S w)))
               (closed (client_websocket (S w)))).
Proof.
  intros Hid Hopen. cbv zeta. rewrite handle_function_call_cases. cbv zeta.
  unfold flow_outcome.
  destruct (prepare args _) as [[fid req]|e].
  2: { match goal with
       | |- context [on_error fc e ?x] =>
           rewrite (on_error_open fc call_id e x Hid Hopen)
       end.
       split; reflexivity. }
  set (w2 := with_session _ (with_session _ w)).
  destruct (build_flow fid req) as [response|e].
  2: { match goal with
       | |- context [on_error fc e ?x] =>
           rewrite (on_error_open fc call_id e x Hid Hopen)
       end.
       split; reflexivity. }
  pose proof (body_loop_upstream (body_lines response) [] w2) as Hk.
  pose proof (body_loop_outcome (body_lines response) [] w2) as Hout.
  change (closed (client_websocket (S w2)))
    with (closed (client_websocket (S w))) in Hout.
  rewrite <- Hout.
  destruct (body_loop (body_lines response) [] w2) as [[result_|e] w3];
    cbn [fst snd] in *; injection Hk as Hws _;
    change (openai_ws (S w2)) with (openai_ws (S w)) in Hws.
  - destruct (body_failure response) as [e|].
    + rewrite (on_error_open fc call_id e w3 Hid) by (rewrite Hws; exact Hopen).
      cbn. rewrite Hws. split; reflexivity.
    + destruct (reply_open fc call_id result_ w3 Hid) as (Hr & Hs & _);
        [rewrite Hws; exact Hopen|].
      split; [exact Hr|]. rewrite Hs, Hws. reflexivity.
  - rewrite (on_error_open fc call_id e w3 Hid) by (rewrite Hws; exact Hopen).
    cbn. rewrite Hws. split; reflexivity.
Qed.

(** *** The upstream-to-client pump on the events of a call *)

(** [data] is a [function_call_arguments.delta] event carrying [d]. *)
Definition is_delta (data d : str) : Prop :=
  exists ev,
    message_of_type data ev "response.function_call_arguments.delta"
    /\ get ev (lit "delta") (JStr []) = Ok (JStr d).

(** [data] is a [function_call_arguments.done] event. *)
Definition is_done (data : str) : Prop :=
  exists ev, message_of_type data ev "response.function_call_arguments.done".

Definition client_view (w : world) : socket * list task :=
  (client_websocket (S w), tasks (S w)).

Lemma delta_iteration (l : fc_locals) (data d : str) (w : world) :
  is_delta data d ->
  closed (client_websocket (S w)) = None ->
  exists w',
    forward_to_client_iteration l data w
    = (Ok {| function_call := function_call l;
             function_call_args := function_call_args l ++ d |}, w')
    /\ closed (client_websocket (S w')) = None
    /\ tasks (S w') = tasks (S w).
Proof.
  intros (ev & (Hparse & ty & Hty & Hdelta) & Hd) Hopen.
  unfold forward_to_client_iteration, mbind, M_bind, lift.
  rewrite Hparse, Hty, client_send_open by exact Hopen.
  rewrite !(eq_str_other ty _ _ Hdelta) by discriminate.
  rewrite Hdelta, Hd. cbn [str_iadd].
  eexists; split; [reflexivity|]. split; reflexivity.
Qed.

Lemma done_iteration (l : fc_locals) (data : str) (w : world) :
  is_done data ->
  truthy (function_call l) = true ->
  closed (client_websocket (S w)) = None ->
  exists w',
    forward_to_client_iteration l data w = (Ok initial_locals, w')
    /\ tasks (S w')
       = tasks (S w)
         ++ [HandleFunctionCall (function_call l) (function_call_args l)].
Proof.
  intros (ev & Hparse & ty & Hty & Hdone) Htracked Hopen.
  unfold forward_to_client_iteration, mbind, M_bind, lift.
  rewrite Hparse, Hty, client_send_open by exact Hopen.
  rewrite !(eq_str_other ty _ _ Hdone) by discriminate.
  rewrite Hdone, Htracked.
  eexists; split; reflexivity.
Qed.

Lemma delta_loop (datas ds : list str) :
  Forall2 is_delta datas ds ->
  forall (l : fc_locals) (w : world),
    closed (client_websocket (S w)) = None ->
    exists w',
      forward_to_client_loop l datas w
      = (Ok {| function_call := function_call l;
               function_call_args := function_call_args l ++ concat ds |}, w')
      /\ closed (client_websocket (S w')) = None
      /\ tasks (S w') = tasks (S w).
Proof.
  induction 1 as [|data d datas ds Hd _ IH]; intros l w Hopen.
  - exists w. cbn. rewrite app_nil_r. destruct l. repeat split; assumption.
  - destruct (delta_iteration l data d w Hd Hopen) as (w1 & Hit & Hopen1 & Ht1).
    destruct (IH {| function_call := function_call l;
                    function_call_args := function_call_args l ++ d |}
                 w1 Hopen1) as (w2 & Hloop & Hopen2 & Ht2).
    exists w2. cbn [forward_to_client_loop]. unfold mbind, M_bind.
    rewrite Hit, Hloop. cbn [function_call function_call_args concat].
    rewrite <- app_assoc. repeat split; [exact Hopen2|congruence].
Qed.

Lemma forward_to_client_loop_app (a b : list str) :
  forall (l : fc_locals) (w : world),
    forward_to_client_loop l (a ++ b) w
    = match forward_to_client_loop l a w with
      | (Ok l', w') => forward_to_client_loop l' b w'
      | (Raise e, w') => (Raise e, w')
      end.
Proof.
  induction a as [|x a IH]; intros l w; [reflexivity|].
  cbn [forward_to_client_loop app]. unfold mbind, M_bind.
  destruct (forward_to_client_iteration l x w) as [[l'|e] w']; [apply IH|].
  reflexivity.
Qed.

(** *** The round trip *)

(** The claim of C2, for a pending call [fc] with id [call_id], the texts
    [received] from upstream and the flow [fid]:
    - the pump hands exactly one task to the event loop, for [fc] with the
      arguments [{"input":"hi"}];
    - that task, on an open upstream socket, calls the executor exactly once,
      with input "hi", and sends exactly one [function_call_output] with the
      id of the call, also when the executor raises;
    - whatever the arguments, the handler returns and sends exactly one
      [function_call_output] with the id of the call; it is followed by
      [response.create], or else carries the text of an exception, which for
      arguments that do not decode is the exception of the decoder, the
      executor not being called;
    - with no arguments at all nothing is decoded and the input is [None],
      as for the empty object;
    - whatever the arguments, what the handler sends on an open upstream
      socket is the answer to the outcome of its [try] block: the result and
      [response.create] when nothing failed, and otherwise the one output
      [Error executing flow: ] followed by the text of the exception that
      failed first, be it raised by the decoder, the request, the flow id,
      the executor, a line of the response or the response breaking off. *)
Definition round_trip (fc call_id : value) (fid : str) (received : list str)
    (w : world) : Prop :=
  (exists w1,
      forward_to_client_loop
        {| function_call := fc; function_call_args := [] |} received w
      = (Ok initial_locals, w1)
      /\ tasks (S w1) = tasks (S w) ++ [HandleFunctionCall fc input_hi])
  /\ (forall w2,
        closed (openai_ws (S w2)) = None ->
        let r := handle_function_call flow_id fc input_hi w2 in
        let request := request_for (jstr "hi") (uuid4 (uuid_draws (S w2))) in
        flow_calls (S (snd r)) = flow_calls (S w2) ++ [(fid, request)]
        /\ exists output rest,
             answered call_id w2 r output rest
             /\ (rest = [Dumps response_create]
                 \/ (rest = [] /\ exists e, output = error_text e))
             /\ (forall e, build_flow fid request = Raise e ->
                           rest = [] /\ output = error_text e))
  /\ (forall args w2,
        closed (openai_ws (S w2)) = None ->
        let r := handle_function_call flow_id fc args w2 in
        exists output rest,
          answered call_id w2 r output rest
          /\ (rest = [Dumps response_create]
              \/ (rest = [] /\ exists e, output = error_text e))
          /\ (forall e, truthy_str args = true -> json_loads args = Raise e ->
                        rest = [] /\ output = error_text e
                        /\ flow_calls (S (snd r)) = flow_calls (S w2)))
  /\ (forall w2,
        let request := request_for JNull (uuid4 (uuid_draws (S w2))) in
        validate_request request = Ok tt ->
        flow_calls (S (snd (handle_function_call flow_id fc [] w2)))
        = flow_calls (S w2) ++ [(fid, request)])
  /\ (forall args w2,
        closed (openai_ws (S w2)) = None ->
        let r := handle_function_call flow_id fc args w2 in
        fst r = Ok tt
        /\ sent (openai_ws (S (snd r)))
           = sent (openai_ws (S w2))
             ++ answer call_id
                  (flow_outcome args (uuid4 (uuid_draws (S w2)))
                     (closed (client_websocket (S w2))))).

(** C2, amended: the round trip of a tool call whose argument deltas add
    up to [{"input":"hi"}], with the client socket open for the pump and the
    upstream socket open for the handler: one task, one call of the executor
    with input "hi", one [function_call_output] with the id of the call,
    also when the executor raises; every failure of the handler before its
    reply is answered by the text of its exception. *)
Theorem tool_round_trip (fc call_id : value) (fid : str)
    (datas ds : list str) (done_data : str) (w : world) :
  get fc (lit "call_id") JNull = Ok call_id ->
  truthy fc = true ->
  Forall2 is_delta datas ds ->
  concat ds = input_hi ->
  is_done done_data ->
  json_loads input_hi = Ok (JDict ["input" :- jstr "hi"]) ->
  (forall conversation_id,
      validate_request (request_for (jstr "hi") conversation_id) = Ok tt) ->
  UUID flow_id = Ok fid ->
  closed (client_websocket (S w)) = None ->
  round_trip fc call_id fid (datas ++ [done_data]) w.
Proof.
  intros Hid Htracked Hdeltas Hconcat Hdone Hparse Hvalid Hfid Hclient.
  assert (Hprep : forall cid,
             prepare input_hi cid = Ok (fid, request_for (jstr "hi") cid)).
  { intros cid. unfold prepare.
    change (truthy_str input_hi) with true. cbv iota.
    unfold mbind, result_bind, rbind. rewrite Hparse.
    change (get (JDict ["input" :- jstr "hi"]) (lit "input") JNull)
      with (Ok (jstr "hi")). cbv iota.
    unfold new_InputValueRequest, mbind, result_bind, rbind.
    fold (request_for (jstr "hi") cid). rewrite Hvalid, Hfid. reflexivity. }
  split; [|split; [|split; [|split]]].
  - destruct (delta_loop datas ds Hdeltas
                {| function_call := fc; function_call_args := [] |} w Hclient)
      as (w1 & Hloop & Hopen1 & Htasks1).
    cbn [function_call function_call_args app] in Hloop.
    rewrite Hconcat in Hloop.
    destruct (done_iteration
                {| function_call := fc; function_call_args := input_hi |}
                done_data w1 Hdone Htracked Hopen1) as (w2 & Hit & Htasks2).
    exists w2. rewrite forward_to_client_loop_app, Hloop.
    cbn [forward_to_client_loop]. unfold mbind, M_bind. rewrite Hit.
    split; [reflexivity|]. rewrite Htasks2, Htasks1. reflexivity.
  - intros w2 Hopen. cbv zeta. split.
    + rewrite handle_function_call_invokes, Hprep. reflexivity.
    + destruct (handle_function_call_answers fc call_id input_hi w2 Hid Hopen)
        as (output & rest & Hans & Hcase).
      rewrite Hprep in Hcase. exists output, rest. split; [exact Hans|].
      destruct (build_flow fid _) as [response|e0].
      * split; [exact Hcase|]. intros e [=].
      * split; [right; destruct Hcase; eauto|]. intros e [= <-]. exact Hcase.
  - intros args w2 Hopen. cbv zeta.
    destruct (handle_function_call_answers fc call_id args w2 Hid Hopen)
      as (output & rest & Hans & Hcase).
    exists output, rest. split; [exact Hans|]. split.
    + destruct (prepare args _) as [[fid' req]|e];
        [destruct (build_flow fid' req)|]; try exact Hcase;
        right; destruct Hcase; eauto.
    + intros e Htruthy Hbad.
      assert (Hraise : forall cid, prepare args cid = Raise e).
      { intros cid. unfold prepare. rewrite Htruthy, Hbad. reflexivity. }
      rewrite handle_function_call_invokes. rewrite Hraise in *.
      destruct Hcase as [-> ->]. repeat split.
  - intros w2. cbv zeta. intros Hvalid0.
    rewrite handle_function_call_invokes.
    assert (prepare [] (uuid4 (uuid_draws (S w2)))
            = Ok (fid, request_for JNull (uuid4 (uuid_draws (S w2))))) as ->;
      [|reflexivity].
    unfold prepare. cbn [truthy_str]. unfold mbind, result_bind, rbind.
    change (get (JDict []) (lit "input") JNull) with (Ok JNull). cbv iota.
    unfold new_InputValueRequest, mbind, result_bind, rbind.
    fold (request_for JNull (uuid4 (uuid_draws (S w2)))).
    rewrite Hvalid0, Hfid. reflexivity.
  - intros args w2 Hopen.
    exact (handle_function_call_upstream fc call_id args w2 Hid Hopen).
Qed.

End tool.
End ToolProps.

(** ** The round trip on concrete events *)

Module ToolExamples.
Import Voice PumpProps ToolProps.

(** A backend whose executor raises. *)
Definition E : Externals := Ref.externals Ref.failing_flow.

Definition a_flow_id : str := lit "123e4567-e89b-12d3-a456-426614174000".

(** The pending call, as [response.output_item.added] delivered it. *)
Definition pending_call : value :=
  JDict ["type" :- jstr "function_call";
         "call_id" :- jstr "call_1";
         "name" :- jstr "execute_flow"].

(** The arguments arrive in two pieces. *)
Definition pieces : list str :=
  [lit "{" ++ [Ref.quote] ++ lit "input" ++ [Ref.quote] ++ lit ":";
   [Ref.quote] ++ lit "hi" ++ [Ref.quote] ++ lit "}"].

Definition delta_event (d : str) : str :=
  Ref.dumps (JDict ["type" :- jstr "response.function_call_arguments.delta";
                    "delta" :- JStr d]).

Definition done_event : str :=
  Ref.dumps (JDict ["type" :- jstr "response.function_call_arguments.done"]).

Definition w0 : world := initial_world initial_globals JNull.

Lemma pieces_are_deltas :
  Forall2 (is_delta (H0 := E)) (map delta_event pieces) pieces.
Proof.
  repeat constructor;
    (eexists; split; [split; [reflexivity|eexists; split; reflexivity]
                     |reflexivity]).
Defined.

Lemma done_event_is_done : is_done (H0 := E) done_event.
Proof. eexists; split; [reflexivity|]. eexists; split; reflexivity. Defined.

(** The round trip with an executor that raises. *)
Lemma tool_round_trip_witness :
  round_trip (H0 := E) a_flow_id pending_call (jstr "call_1") a_flow_id
    (map delta_event pieces ++ [done_event]) w0.
Proof.
  apply (tool_round_trip (H0 := E) a_flow_id pending_call (jstr "call_1")
           a_flow_id (map delta_event pieces) pieces done_event w0);
    [reflexivity | reflexivity | exact pieces_are_deltas | reflexivity
    | exact done_event_is_done | vm_compute; reflexivity
    | intros; reflexivity | reflexivity | reflexivity].
Defined.

(** What the task leaves upstream when the executor raises, and when it
    echoes its input. *)
Lemma failing_executor_is_answered :
  let r := handle_function_call (H0 := E) a_flow_id pending_call input_hi w0 in
  fst r = Ok tt
  /\ sent (openai_ws (S (snd r)))
     = [Dumps JNull;
        Dumps (function_call_output (jstr "call_1")
                 (lit "Error executing flow: backend unavailable"))]
  /\ map (fun call => input_value (snd call)) (flow_calls (S (snd r)))
     = [jstr "hi"].
Proof. vm_compute. repeat split. Qed.

Lemma echoing_executor_is_answered :
  let r := handle_function_call (H0 := Ref.externals Ref.echo_flow)
             a_flow_id pending_call input_hi w0 in
  fst r = Ok tt
  /\ sent (openai_ws (S (snd r)))
     = [Dumps JNull;
        Dumps (function_call_output (jstr "call_1") (lit "hi"));
        Dumps response_create]
  /\ map (fun call => input_value (snd call)) (flow_calls (S (snd r)))
     = [jstr "hi"].
Proof. vm_compute. repeat split. Qed.

(** An executor whose response yields one event and then breaks off. *)
Definition breaking_flow (fid : str) (inputs : InputValueRequest)
  : result StreamingResponse :=
  Ok {| body_lines :=
          [Ref.dumps (JDict ["event" :- jstr "vertices_sorted"])];
        body_failure := Some (RuntimeError (lit "stream broke off")) |}.

Lemma breaking_executor_is_answered :
  let r := handle_function_call (H0 := Ref.externals breaking_flow)
             a_flow_id pending_call input_hi w0 in
  fst r = Ok tt
  /\ sent (openai_ws (S (snd r)))
     = [Dumps JNull;
        Dumps (function_call_output (jstr "call_1")
                 (lit "Error executing flow: stream broke off"))]
  /\ map (fun call => input_value (snd call)) (flow_calls (S (snd r)))
     = [jstr "hi"].
Proof. vm_compute. repeat split. Qed.

(** The session once the upstream connection has gone. *)
Definition w_gone : world :=
  with_session
    (set_openai_ws
       {| closed := Some (ConnectionClosed
                            (lit "no close frame received or sent"));
          sent := sent (openai_ws (S w0)) |})
    w0.

(** C2 as stated, with no condition on the upstream socket, fails: in
    [w_gone] the executor raises, the send of the [except] clause (line 182)
    raises in its turn, and the handler ends with that exception, no
    [function_call_output] having been sent. *)
Lemma tool_call_unanswered_when_upstream_gone :
  ~ (forall w : world,
       let r := handle_function_call (H0 := E) a_flow_id pending_call
                  input_hi w in
       exists output rest, answered (jstr "call_1") w r output rest).
Proof.
  intros Hall. destruct (Hall w_gone) as (output & rest & Hr & _).
  vm_compute in Hr. discriminate Hr.
Qed.

End ToolExamples.

(** ** More on the text chunkers *)

Module ChunkerMore.
Import Chunker ChunkerProps.

(** A chunk without its trailing space. *)
Definition payload (chunk : str) : str := take (length chunk - 1) chunk.

(** What a wait on the queue gives when nothing ends the stream: a fragment,
    or nothing within the timeout. *)
Definition got (o : option str) : queue_get :=
  match o with Some text => Got (Some text) | None => Empty end.

Definition awaited (o : option str) : anext_outcome :=
  match o with Some text => Next (Some text) | None => TimeoutError end.

(** A yielded chunk: at least one character, then the space. *)
Definition well_formed (chunk : str) : Prop :=
  2 <= length chunk /\ ends_with_space chunk = true.

Lemma payload_spaced (s : str) : payload (s ++ space) = s.
Proof.
  unfold payload, space. rewrite length_app. cbn [length].
  replace (length s + 1 - 1) with (length s) by lia.
  rewrite take_app_length. reflexivity.
Qed.

Lemma spaced_well_formed (s : str) : s <> [] -> well_formed (s ++ space).
Proof.
  intros Hs. split.
  - rewrite length_app. destruct s; [congruence|]. cbn. lia.
  - unfold ends_with_space, space. rewrite last_snoc. reflexivity.
Qed.

Lemma truthy_nonempty (s : str) : truthy_str s = true -> s <> [].
Proof. destruct s; [discriminate|congruence]. Qed.

(** One fragment: what is yielded and what stays buffered add up to the
    buffer followed by the fragment, and what is yielded is well formed. *)
Lemma on_text_spec (buffer text : str) :
  exists out buffer',
    on_text buffer text = Ok (out, Running buffer')
    /\ concat (map payload out) ++ buffer' = buffer ++ text
    /\ Forall well_formed out.
Proof.
  unfold on_text, mbind, result_bind, rbind.
  assert (Hsecond :
            exists out buffer',
              (match (if truthy_str text
                      then match index text 0 with
                           | Ok c => Ok (in_splitters c)
                           | Raise e => Raise e
                           end
                      else Ok false) with
               | Ok b2 =>
                   if b2 : bool
                   then match index text 0 with
                        | Ok c => Ok ([buffer ++ [c] ++ space],
                                      Running (slice_from text 1))
                        | Raise e => Raise e
                        end
                   else Ok ([], Running (buffer ++ text))
               | Raise e => Raise e
               end) = Ok (out, Running buffer')
              /\ concat (map payload out) ++ buffer' = buffer ++ text
              /\ Forall well_formed out).
  { destruct text as [|t text]; cbn [truthy_str].
    - exists [], (buffer ++ []). repeat split. constructor.
    - rewrite index_first. destruct (in_splitters t).
      + exists [buffer ++ [t] ++ space], text. split; [reflexivity|]. split.
        * cbn [map concat]. rewrite app_assoc, payload_spaced, app_nil_r.
          rewrite <- app_assoc. reflexivity.
        * repeat constructor; rewrite app_assoc.
          -- rewrite !length_app. cbn. lia.
          -- unfold ends_with_space, space. rewrite last_snoc. reflexivity.
      + exists [], (buffer ++ t :: text). repeat split. constructor. }
  destruct (truthy_str buffer) eqn:Hb; [|exact Hsecond].
  destruct (index_last buffer Hb) as (c & -> & _).
  destruct (in_splitters c); [|exact Hsecond].
  exists [buffer ++ space], text. split; [reflexivity|]. split.
  - cbn [map concat]. rewrite payload_spaced, app_nil_r. reflexivity.
  - repeat constructor; apply spaced_well_formed, truthy_nonempty, Hb.
Qed.

Lemma flush_spec (buffer : str) :
  concat (map payload (flush buffer)) = buffer
  /\ Forall well_formed (flush buffer).
Proof.
  unfold flush. destruct (truthy_str buffer) eqn:Hb.
  - cbn [map concat]. rewrite payload_spaced, app_nil_r. split; [reflexivity|].
    repeat constructor; apply spaced_well_formed, truthy_nonempty, Hb.
  - destruct buffer; [|discriminate]. split; [reflexivity|constructor].
Qed.

Lemma timeout_spec (buffer : str) :
  exists out buffer',
    (if truthy_str buffer then Ok ([buffer ++ space], Running [])
     else Ok ([], Running buffer)) = Ok (out, Running buffer')
    /\ concat (map payload out) ++ buffer' = buffer
    /\ Forall well_formed out.
Proof.
  destruct (truthy_str buffer) eqn:Hb.
  - exists [buffer ++ space], []. split; [reflexivity|]. split.
    + cbn [map concat]. rewrite payload_spaced, !app_nil_r. reflexivity.
    + repeat constructor; apply spaced_well_formed, truthy_nonempty, Hb.
  - exists [], buffer. repeat split. constructor.
Qed.

Lemma sync_run (l : list (option str)) :
  forall buffer,
    exists chunks buffer',
      sync_loop buffer (map got l) = Ok (chunks, Running buffer')
      /\ concat (map payload chunks) ++ buffer' = buffer ++ concat (omap id l)
      /\ Forall well_formed chunks.
Proof.
  induction l as [|o l IH]; intros buffer.
  - exists [], buffer. cbn. rewrite app_nil_r. repeat split. constructor.
  - assert (Hstep : exists out b1,
               sync_iteration buffer (got o) = Ok (out, Running b1)
               /\ concat (map payload out) ++ b1
                  = buffer ++ concat (omap id [o])
               /\ Forall well_formed out).
    { destruct o as [text|]; cbn [got sync_iteration omap id concat option_map].
      - cbn. rewrite app_nil_r. apply on_text_spec.
      - cbn. rewrite app_nil_r. apply timeout_spec. }
    destruct Hstep as (out & b1 & Hit & Hcat & Hwf).
    destruct (IH b1) as (chunks & b2 & Hloop & Hcat2 & Hwf2).
    exists (out ++ chunks), b2. cbn [map sync_loop].
    unfold mbind, result_bind, rbind. rewrite Hit, Hloop. cbn [fst snd].
    split; [reflexivity|]. split; [|apply Forall_app; split; assumption].
    rewrite map_app, concat_app, <- app_assoc, Hcat2, app_assoc, Hcat.
    rewrite <- app_assoc. f_equal. destruct o; cbn; rewrite ?app_nil_r;
      reflexivity.
Qed.

Lemma async_run (l : list (option str)) :
  forall buffer,
    exists chunks buffer',
      async_loop buffer (map awaited l) = Ok (chunks, Running buffer')
      /\ concat (map payload chunks) ++ buffer' = buffer ++ concat (omap id l)
      /\ Forall well_formed chunks.
Proof.
  induction l as [|o l IH]; intros buffer.
  - exists [], buffer. cbn. rewrite app_nil_r. repeat split. constructor.
  - assert (Hstep : exists out b1,
               async_iteration buffer (awaited o) = Ok (out, Running b1)
               /\ concat (map payload out) ++ b1
                  = buffer ++ concat (omap id [o])
               /\ Forall well_formed out).
    { destruct o as [text|]; cbn [awaited async_iteration].
      - cbn. rewrite app_nil_r. apply on_text_spec.
      - cbn. rewrite app_nil_r. apply timeout_spec. }
    destruct Hstep as (out & b1 & Hit & Hcat & Hwf).
    destruct (IH b1) as (chunks & b2 & Hloop & Hcat2 & Hwf2).
    exists (out ++ chunks), b2. cbn [map async_loop].
    unfold mbind, result_bind, rbind. rewrite Hit, Hloop. cbn [fst snd].
    split; [reflexivity|]. split; [|apply Forall_app; split; assumption].
    rewrite map_app, concat_app, <- app_assoc, Hcat2, app_assoc, Hcat.
    rewrite <- app_assoc. f_equal. destruct o; cbn; rewrite ?app_nil_r;
      reflexivity.
Qed.

Lemma runs_agree (l : list (option str)) :
  forall buffer,
    async_loop buffer (map awaited l) = sync_loop buffer (map got l).
Proof.
  induction l as [|o l IH]; intros buffer; [reflexivity|].
  cbn [map async_loop sync_loop].
  replace (async_iteration buffer (awaited o))
    with (sync_iteration buffer (got o)) by (destruct o; reflexivity).
  unfold mbind, result_bind, rbind.
  destruct (sync_iteration buffer (got o)) as [[out [b|]]|e];
    [rewrite IH|..]; reflexivity.
Qed.

Lemma sync_loop_app (evs1 evs2 : list queue_get) :
  forall buffer chunks buffer',
    sync_loop buffer evs1 = Ok (chunks, Running buffer') ->
    sync_loop buffer (evs1 ++ evs2)
    = (r ← sync_loop buffer' evs2; Ok (chunks ++ fst r, snd r)).
Proof.
  induction evs1 as [|ev evs1 IH]; intros buffer chunks b' Hrun.
  - injection Hrun as <- <-. cbn [app].
    unfold mbind, result_bind, rbind.
    destruct (sync_loop buffer evs2) as [[c st]|e]; reflexivity.
  - cbn [app sync_loop] in *. unfold mbind, result_bind, rbind in *.
    destruct (sync_iteration buffer ev) as [[out [b1|]]|e]; try discriminate.
    destruct (sync_loop b1 evs1) as [[c1 st1]|e] eqn:E1; try discriminate.
    cbn [fst snd] in Hrun. injection Hrun as <- ->.
    rewrite (IH b1 c1 b' E1). unfold mbind, result_bind, rbind.
    destruct (sync_loop b' evs2) as [[c2 st2]|e]; [|reflexivity].
    cbn [fst snd]. rewrite app_assoc. reflexivity.
Qed.

Lemma async_loop_app (evs1 evs2 : list anext_outcome) :
  forall buffer chunks buffer',
    async_loop buffer evs1 = Ok (chunks, Running buffer') ->
    async_loop buffer (evs1 ++ evs2)
    = (r ← async_loop buffer' evs2; Ok (chunks ++ fst r, snd r)).
Proof.
  induction evs1 as [|ev evs1 IH]; intros buffer chunks b' Hrun.
  - injection Hrun as <- <-. cbn [app].
    unfold mbind, result_bind, rbind.
    destruct (async_loop buffer evs2) as [[c st]|e]; reflexivity.
  - cbn [app async_loop] in *. unfold mbind, result_bind, rbind in *.
    destruct (async_iteration buffer ev) as [[out [b1|]]|e]; try discriminate.
    destruct (async_loop b1 evs1) as [[c1 st1]|e] eqn:E1; try discriminate.
    cbn [fst snd] in Hrun. injection Hrun as <- ->.
    rewrite (IH b1 c1 b' E1). unfold mbind, result_bind, rbind.
    destruct (async_loop b' evs2) as [[c2 st2]|e]; [|reflexivity].
    cbn [fst snd]. rewrite app_assoc. reflexivity.
Qed.

Lemma sync_chunks_well_formed (evs : list queue_get) :
  forall buffer chunks st,
    sync_loop buffer evs = Ok (chunks, st) -> Forall well_formed chunks.
Proof.
  induction evs as [|ev evs IH]; intros buffer chunks st Hrun.
  - injection Hrun as <- _. constructor.
  - cbn [sync_loop] in Hrun. unfold mbind, result_bind, rbind in Hrun.
    assert (Hout : forall out st1, sync_iteration buffer ev = Ok (out, st1) ->
                                   Forall well_formed out).
    { intros out st1 Hit. destruct ev as [[text|]|]; cbn in Hit.
      - destruct (on_text_spec buffer text) as (o & b & Ho & _ & Hwf).
        rewrite Ho in Hit. injection Hit as <- _. exact Hwf.
      - unfold on_none in Hit. injection Hit as <- _.
        apply Forall_app; split; apply flush_spec.
      - destruct (timeout_spec buffer) as (o & b & Ho & _ & Hwf).
        rewrite Ho in Hit. injection Hit as <- _. exact Hwf. }
    destruct (sync_iteration buffer ev) as [[out [b1|]]|e]; try discriminate.
    + destruct (sync_loop b1 evs) as [[c1 st1]|e] eqn:E1; try discriminate.
      injection Hrun as <- _. apply Forall_app. split; eauto.
    + injection Hrun as <- _. eauto.
Qed.

Lemma async_chunks_well_formed (evs : list anext_outcome) :
  forall buffer chunks st,
    async_loop buffer evs = Ok (chunks, st) -> Forall well_formed chunks.
Proof.
  induction evs as [|ev evs IH]; intros buffer chunks st Hrun.
  - injection Hrun as <- _. constructor.
  - cbn [async_loop] in Hrun. unfold mbind, result_bind, rbind in Hrun.
    assert (Hout : forall out st1, async_iteration buffer ev = Ok (out, st1) ->
                                   Forall well_formed out).
    { intros out st1 Hit. destruct ev as [[text|]| |]; cbn in Hit.
      - destruct (on_text_spec buffer text) as (o & b & Ho & _ & Hwf).
        rewrite Ho in Hit. injection Hit as <- _. exact Hwf.
      - unfold on_none in Hit. injection Hit as <- _.
        apply Forall_app; split; apply flush_spec.
      - destruct (timeout_spec buffer) as (o & b & Ho & _ & Hwf).
        rewrite Ho in Hit. injection Hit as <- _. exact Hwf.
      - injection Hit as <- _. apply flush_spec. }
    destruct (async_iteration buffer ev) as [[out [b1|]]|e]; try discriminate.
    + destruct (async_loop b1 evs) as [[c1 st1]|e] eqn:E1; try discriminate.
      injection Hrun as <- _. apply Forall_app. split; eauto.
    + injection Hrun as <- _. eauto.
Qed.

(** X1: as long as the stream has not ended, no text is lost, repeated or
    reordered: the chunks yielded so far, without their trailing spaces,
    followed by what is still buffered, are the fragments received so far,
    whatever the timeouts in between.  Both chunkers. *)
Theorem chunkers_keep_the_text (l : list (option str)) :
  exists chunks buffer,
    sync_text_chunker (map got l) = Ok (chunks, Running buffer)
    /\ text_chunker_with_timeout (map awaited l) = Ok (chunks, Running buffer)
    /\ concat (map payload chunks) ++ buffer = concat (omap id l).
Proof.
  destruct (sync_run l []) as (chunks & b & Hrun & Hcat & _).
  exists chunks, b. unfold sync_text_chunker, text_chunker_with_timeout.
  rewrite runs_agree. repeat split; assumption.
Qed.

(** X2: when the [None] sentinel ends the stream, the chunker yields what
    is left in the buffer twice, once in the branch of the sentinel and once
    after the loop; when the asynchronous source is exhausted instead, the
    rest is yielded once. *)
Theorem sentinel_flushes_twice (l : list (option str)) :
  exists chunks buffer,
    sync_text_chunker (map got l) = Ok (chunks, Running buffer)
    /\ sync_text_chunker (map got l ++ [Got None])
       = Ok (chunks ++ flush buffer ++ flush buffer, Returned)
    /\ text_chunker_with_timeout (map awaited l ++ [Next None])
       = Ok (chunks ++ flush buffer ++ flush buffer, Returned)
    /\ text_chunker_with_timeout (map awaited l ++ [StopAsyncIteration])
       = Ok (chunks ++ flush buffer, Returned)
    /\ (buffer <> [] -> flush buffer = [buffer ++ space]).
Proof.
  destruct (sync_run l []) as (chunks & b & Hrun & _ & _).
  exists chunks, b. unfold sync_text_chunker, text_chunker_with_timeout.
  split; [exact Hrun|]. split; [|split; [|split]].
  - rewrite (sync_loop_app _ _ _ _ _ Hrun). reflexivity.
  - rewrite <- runs_agree in Hrun.
    rewrite (async_loop_app _ _ _ _ _ Hrun). reflexivity.
  - rewrite <- runs_agree in Hrun.
    rewrite (async_loop_app _ _ _ _ _ Hrun). reflexivity.
  - intros Hb. unfold flush. destruct b; [congruence|reflexivity].
Qed.

(** X3: whatever the waits return, every chunk either chunker yields has at
    least one character before the space it ends with. *)
Theorem chunks_are_well_formed :
  (forall evs, match sync_text_chunker evs with
               | Ok (chunks, _) => Forall well_formed chunks
               | Raise _ => False
               end)
  /\ (forall evs, match text_chunker_with_timeout evs with
                  | Ok (chunks, _) => Forall well_formed chunks
                  | Raise _ => False
                  end).
Proof.
  split; intros evs.
  - pose proof (sync_loop_ok evs []) as Hok. unfold sync_text_chunker.
    destruct (sync_loop [] evs) as [[chunks st]|e] eqn:E; [|discriminate].
    eapply sync_chunks_well_formed, E.
  - pose proof (async_loop_ok evs []) as Hok. unfold text_chunker_with_timeout.
    destruct (async_loop [] evs) as [[chunks st]|e] eqn:E; [|discriminate].
    eapply async_chunks_well_formed, E.
Qed.

End ChunkerMore.

(** ** More on the VAD monitor and the resampler *)

Module VadMore.
Import Voice VoiceLoops VadProps.

Section vad.
Context `{SciPy} `{Externals}.

Local Opaque BYTES_PER_24K_FRAME.

Lemma concat_chunks (k : nat) :
  forall buf : bytes,
    k * BYTES_PER_24K_FRAME <= length buf ->
    concat (chunks k buf) = take (k * BYTES_PER_24K_FRAME) buf.
Proof.
  induction k as [|k IH]; intros buf Hlen; cbn [chunks concat].
  - reflexivity.
  - rewrite IH by (rewrite length_drop; lia).
    replace (Datatypes.S k * BYTES_PER_24K_FRAME)
      with (BYTES_PER_24K_FRAME + k * BYTES_PER_24K_FRAME) by lia.
    rewrite <- take_take_drop. reflexivity.
Qed.

Lemma concat_whole_frames (buf : bytes) :
  concat (whole_frames buf)
  ++ drop (length buf / BYTES_PER_24K_FRAME * BYTES_PER_24K_FRAME) buf
  = buf.
Proof.
  unfold whole_frames. rewrite concat_chunks.
  - apply take_drop.
  - pose proof frame_positive.
    pose proof (Nat.div_mod_eq (length buf) BYTES_PER_24K_FRAME). nia.
Qed.

(** X4: a pass neither loses nor repeats nor reorders audio: the frames it
    hands to the classifier, in order, followed by what it leaves in the
    accumulator, are the old accumulator followed by the decoded chunk. *)
Theorem vad_pass_keeps_the_audio (base64_data : value) (w : world) :
  let w' := snd (vad_pass base64_data w) in
  match b64decode_value base64_data with
  | Ok raw_chunk_24k =>
      exists frames,
        vad_calls (S w') = vad_calls (S w) ++ frames
        /\ concat frames ++ vad_audio_buffer (S w')
           = vad_audio_buffer (S w) ++ raw_chunk_24k
  | Raise _ =>
      vad_calls (S w') = vad_calls (S w)
      /\ vad_audio_buffer (S w') = vad_audio_buffer (S w)
  end.
Proof.
  cbv zeta. pose proof (vad_pass_spec base64_data w) as Hspec.
  cbv zeta in Hspec. destruct (b64decode_value base64_data) as [raw|e].
  - destruct Hspec as (_ & Hbuf & Hcalls & _).
    eexists. split; [exact Hcalls|]. rewrite Hbuf. apply concat_whole_frames.
  - rewrite Hspec. split; reflexivity.
Qed.

(** X5: failures inside a pass stay inside it.  Whatever the resampler, the
    classifier and the upstream socket do, a pass on a chunk that decodes
    returns normally; a chunk that does not decode is the one thing that
    ends the monitor, with the exception of the decoder and the state as it
    was. *)
Theorem vad_pass_failures (base64_data : value) (w : world) :
  vad_pass base64_data w
  = match b64decode_value base64_data with
    | Ok _ => (Ok tt, snd (vad_pass base64_data w))
    | Raise e => (Raise e, w)
    end.
Proof.
  pose proof (vad_pass_spec base64_data w) as Hspec. cbv zeta in Hspec.
  destruct (b64decode_value base64_data) as [raw|e]; [|exact Hspec].
  destruct Hspec as (Hr & _).
  destruct (vad_pass base64_data w) as [r w']. cbn in *. congruence.
Qed.

(** X6: on an upstream socket that is closed, a pass sends nothing and
    leaves the speaking flag as it is, speech or not: the failed send is
    swallowed before the flag is cleared. *)
Theorem vad_pass_on_closed_socket (base64_data : value) (w : world) (e : exn) :
  closed (openai_ws (S w)) = Some e ->
  let w' := snd (vad_pass base64_data w) in
  sent (openai_ws (S w')) = sent (openai_ws (S w))
  /\ bot_speaking_flag (S w') = bot_speaking_flag (S w).
Proof.
  intros Hclosed. cbv zeta.
  pose proof (vad_pass_spec base64_data w) as Hspec. cbv zeta in Hspec.
  destruct (b64decode_value base64_data) as [raw|e'].
  - destruct Hspec as (_ & _ & _ & Hs & _ & Hf).
    unfold is_open in Hs, Hf. rewrite Hclosed in Hs, Hf.
    rewrite !andb_false_r in Hs, Hf. cbn in Hf.
    rewrite app_nil_r in Hs. rewrite andb_true_r in Hf. split; assumption.
  - rewrite Hspec. split; reflexivity.
Qed.

Lemma vad_pass_cancellations (base64_data : value) (w : world) :
  let w' := snd (vad_pass base64_data w) in
  cancellations w' + (if bot_speaking_flag (S w') then 1 else 0)
  <= cancellations w + (if bot_speaking_flag (S w) then 1 else 0)
  /\ cancellations w <= cancellations w'.
Proof.
  cbv zeta. pose proof (vad_pass_spec base64_data w) as Hspec.
  cbv zeta in Hspec. destruct (b64decode_value base64_data) as [raw|e].
  - destruct Hspec as (_ & _ & _ & Hs & _ & Hf).
    unfold cancellations. rewrite Hs, Hf, filter_app, length_app.
    assert (Hone : length (filter (fun fr => is_cancel fr = true)
                             [Dumps response_cancel]) = 1) by reflexivity.
    assert (Hnone : length (filter (fun fr => is_cancel fr = true) [])
                    = 0) by reflexivity.
    destruct (bot_speaking_flag (S w)), (existsb speech _),
      (is_open (openai_ws (S w))); cbn [andb negb];
      rewrite ?Hone, ?Hnone; lia.
  - rewrite Hspec. cbn. lia.
Qed.

(** X7: however much audio the monitor goes through, and however much of it
    is speech, it cancels at most once for as long as nothing sets the
    speaking flag again; if the flag is clear to begin with, it never
    cancels. *)
Theorem barge_in_at_most_once (items : list value) (w : world) :
  let w' := snd (process_vad_audio items w) in
  cancellations w <= cancellations w'
  /\ cancellations w'
     <= cancellations w + (if bot_speaking_flag (S w) then 1 else 0).
Proof.
  cbv zeta. revert w.
  assert (Hgen : forall w,
             let w' := snd (process_vad_audio items w) in
             cancellations w' + (if bot_speaking_flag (S w') then 1 else 0)
             <= cancellations w + (if bot_speaking_flag (S w) then 1 else 0)
             /\ cancellations w <= cancellations w').
  { induction items as [|item items IH]; intros w; cbv zeta.
    - cbn. lia.
    - cbn [process_vad_audio]. unfold mbind, M_bind.
      pose proof (vad_pass_cancellations item w) as Hpass. cbv zeta in Hpass.
      destruct (vad_pass item w) as [[u|e] w1]; cbn [snd] in *; [|exact Hpass].
      specialize (IH w1). cbv zeta in IH. lia. }
  intros w. specialize (Hgen w). cbv zeta in Hgen.
  destruct (bot_speaking_flag (S (snd (process_vad_audio items w)))); lia.
Qed.

End vad.
End VadMore.

Module AudioMore.
Import AudioProps.

Lemma frombuffer_int16_odd (n : nat) :
  forall frame : bytes,
    length frame = 2 * n + 1 ->
    frombuffer_int16 frame
    = Raise (ValueError (lit "buffer size must be a multiple of element size")).
Proof.
  induction n as [|n IH]; intros frame Hlen.
  - destruct frame as [|a [|b frame]]; cbn in Hlen; try lia. reflexivity.
  - destruct frame as [|a [|b frame]]; cbn [length] in Hlen; try lia.
    cbn [frombuffer_int16]. rewrite IH by lia. reflexivity.
Qed.

Section resampler.
Context `{SciPy}.

(** X8: a frame with an odd number of bytes is refused with [ValueError]
    before the samples reach the resampling routine, whichever that is. *)
Theorem resample_refuses_odd_frames (frame : bytes) :
  Nat.odd (length frame) = true ->
  resample_24k_to_16k frame
  = Raise (ValueError (lit "buffer size must be a multiple of element size")).
Proof.
  intros Hodd. apply Nat.odd_spec in Hodd as [n Hn].
  unfold resample_24k_to_16k, mbind, result_bind, rbind.
  rewrite (frombuffer_int16_odd n frame Hn). reflexivity.
Qed.

End resampler.

(** X8 at a frame of three bytes. *)
Lemma resample_refuses_odd_frames_witness :
  Nat.odd (length [Byte.x01; Byte.x02; Byte.x03]) = true
  /\ @resample_24k_to_16k Ref.scipy [Byte.x01; Byte.x02; Byte.x03]
     = Raise (ValueError (lit "buffer size must be a multiple of element size")).
Proof.
  split; [reflexivity|].
  apply (@resample_refuses_odd_frames Ref.scipy). reflexivity.
Defined.

End AudioMore.

(** ** More on the client-to-upstream pump *)

Module PumpMore.
Import Voice Frame PumpProps.

Section pump.
Context `{SciPy} `{Externals}.
Variable flow_tool : value.

(** X10: an audio message whose payload is missing or empty is dropped: the
    [continue] of line 415 leaves the pass before anything is sent upstream
    or queued for the VAD, and no module variable is assigned.  (The message
    has been counted by [log_event] before, which the world does not
    hold.) *)
Theorem empty_audio_is_dropped (message_text : str) (msg audio : value)
    (w : world) :
  message_of_type message_text msg "input_audio_buffer.append" ->
  get msg (lit "audio") (JStr []) = Ok audio ->
  truthy audio = false ->
  let r := forward_to_openai_iteration flow_tool message_text w in
  fst r = Ok tt
  /\ openai_ws (S (snd r)) = openai_ws (S w)
  /\ vad_queue (S (snd r)) = vad_queue (S w)
  /\ G (snd r) = G w.
Proof.
  intros (Hparse & ty & Hty & Happ) Haudio Hfalsy. cbv zeta.
  unfold forward_to_openai_iteration, on_audio_append,
    mbind, M_bind, lift, mret, M_ret.
  rewrite Hparse, !Hty, Happ, Haudio, Hfalsy. repeat split.
Qed.

(** X11: a message that is neither an audio message nor a configuration
    message is sent upstream as received, once; nothing is queued for the
    VAD and no module variable is assigned. *)
Theorem other_messages_pass_verbatim (message_text : str) (msg ty : value)
    (w : world) :
  json_loads message_text = Ok msg ->
  get msg (lit "type") JNull = Ok ty ->
  eq_str ty (lit "input_audio_buffer.append") = false ->
  eq_str ty (lit "elevenlabs.config") = false ->
  forward_to_openai_iteration flow_tool message_text w
  = openai_send (Text message_text) w
  /\ let w' := snd (forward_to_openai_iteration flow_tool message_text w) in
     vad_queue (S w') = vad_queue (S w)
     /\ G w' = G w
     /\ (closed (openai_ws (S w)) = None ->
         sent (openai_ws (S w')) = sent (openai_ws (S w)) ++ [Text message_text]).
Proof.
  intros Hparse Hty Happ Hcfg.
  assert (Hrun : forward_to_openai_iteration flow_tool message_text w
                 = openai_send (Text message_text) w).
  { unfold forward_to_openai_iteration, on_audio_append, on_config_or_other,
      mbind, M_bind, lift, mret, M_ret.
    rewrite Hparse, !Hty, Happ, ?Hty, Hcfg. reflexivity. }
  split; [exact Hrun|]. cbv zeta. rewrite Hrun.
  unfold openai_send, socket_send.
  destruct (closed (openai_ws (S w))) eqn:Hc; cbn; repeat split;
    intros; congruence.
Qed.

(** X12: a configuration message without [voice_id] raises [KeyError] out
    of the pump, which catches disconnections only: the coroutine ends there,
    the messages behind it are never read, nothing is sent, and
    [use_elevenlabs] has already taken the value of the message. *)
Theorem config_without_voice_ends_the_pump (message_text : str)
    (d : list (str * value)) (enabled : value) (later : list str)
    (w : world) :
  message_of_type message_text (JDict d) "elevenlabs.config" ->
  dict_lookup d (lit "enabled") = Some enabled ->
  dict_lookup d (lit "voice_id") = None ->
  forward_to_openai flow_tool (message_text :: later) w
  = (Raise (KeyError (lit "voice_id")),
     with_globals (set_use_elevenlabs enabled) w).
Proof.
  intros (Hparse & ty & Hty & Hcfg) Hen Hvoice.
  assert (Happ : eq_str ty (lit "input_audio_buffer.append") = false)
    by (eapply eq_str_other; [exact Hcfg|discriminate]).
  unfold forward_to_openai, pump, try_except. cbn [mbind M_bind].
  unfold mbind at 1, M_bind at 1.
  assert (Hit : forward_to_openai_iteration flow_tool message_text w
                = (Raise (KeyError (lit "voice_id")),
                   with_globals (set_use_elevenlabs enabled) w)).
  { unfold forward_to_openai_iteration, on_audio_append, on_config_or_other,
      mbind, M_bind, lift, modify, mret, M_ret.
    rewrite Hparse, !Hty, Happ, ?Hty, Hcfg. unfold getitem.
    rewrite Hen, Hvoice. reflexivity. }
  rewrite Hit. reflexivity.
Qed.

Lemma pump_swallows_disconnects {A} (body : A -> M unit) (received : list A)
    (w : world) :
  match fst (pump body received w) with
  | Ok _ => True
  | Raise e => is_disconnect e = false
  end.
Proof.
  unfold pump, try_except.
  destruct (_ received w) as [[u|e] w']; [exact I|].
  destruct (is_disconnect e) eqn:Hd; [exact I|exact Hd].
Qed.

(** X13: neither pump lets a disconnection out.  When the client or the
    upstream socket goes away ([WebSocketDisconnect], [ConnectionClosed]),
    the coroutine returns; it raises only for other exceptions. *)
Theorem pumps_swallow_disconnects (received : list str) (w : world) :
  match fst (forward_to_openai flow_tool received w) with
  | Ok _ => True
  | Raise e => is_disconnect e = false
  end
  /\ match fst (forward_to_client received w) with
     | Ok _ => True
     | Raise e => is_disconnect e = false
     end.
Proof.
  split; [apply pump_swallows_disconnects|].
  unfold forward_to_client, try_except.
  match goal with
  | |- context [match ?x with _ => _ end] => destruct x as [[u|e] w']
  end; [exact I|].
  destruct (is_disconnect e) eqn:Hd; [exact I|exact Hd].
Qed.

End pump.
End PumpMore.

(** ** More on the upstream-to-client pump *)

Module ClientPumpMore.
Import Voice Frame PumpProps ToolProps.

Section pump.
Context `{SciPy} `{Externals}.

(** The event types [forward_to_client] has a branch for. *)
Definition handled : list str :=
  [lit "response.text.delta"; lit "response.text.done";
   lit "response.output_item.added"; lit "response.output_item.done";
   lit "response.function_call_arguments.delta";
   lit "response.function_call_arguments.done";
   lit "response.audio.delta"; lit "error"].

(** X14: every event from upstream is passed on to the client as received,
    before it is looked at; an event of a type the pump has no branch for is
    then passed on a second time by the final [else].  Nothing else is sent
    to the client, whether the branch returns or raises. *)
Theorem events_reach_the_client (l : fc_locals) (data : str) (ev ty : value)
    (w : world) :
  json_loads data = Ok ev ->
  get ev (lit "type") JNull = Ok ty ->
  closed (client_websocket (S w)) = None ->
  let w' := snd (forward_to_client_iteration l data w) in
  sent (client_websocket (S w'))
  = sent (client_websocket (S w))
    ++ Text data :: (if existsb (eq_str ty) handled then [] else [Text data]).
Proof.
  intros Hparse Hty Hopen. cbv zeta.
  unfold forward_to_client_iteration.
  cbv [mbind M_bind lift modify mret M_ret gets create_task].
  rewrite Hparse, Hty, client_send_open by exact Hopen.
  unfold handled. cbn [existsb].
  repeat match goal with
         | |- context [eq_str ty ?s] => destruct (eq_str ty s)
         end; cbn [orb];
    first
      [ solve [ repeat match goal with
                       | |- context [match ?x with _ => _ end] =>
                           lazymatch x with
                           | context [match _ with _ => _ end] => fail
                           | _ => destruct x
                           end
                       end; reflexivity ]
      | rewrite client_send_open by reflexivity; cbn;
        rewrite <- app_assoc; reflexivity ].
Qed.

(** [data] is a [response.text.delta] event carrying [delta]. *)
Definition is_text_delta (data : str) (delta : value) : Prop :=
  exists ev,
    message_of_type data ev "response.text.delta"
    /\ get ev (lit "delta") (JStr []) = Ok delta.

Definition is_text_done (data : str) : Prop :=
  exists ev, message_of_type data ev "response.text.done".

Lemma text_delta_iteration (l : fc_locals) (data : str) (delta : value)
    (w : world) :
  is_text_delta data delta ->
  closed (client_websocket (S w)) = None ->
  exists w',
    forward_to_client_iteration l data w = (Ok l, w')
    /\ closed (client_websocket (S w')) = None
    /\ text_delta_queue (S w') = text_delta_queue (S w) ++ [delta]
    /\ text_delta_task (S w') = true
    /\ tasks (S w')
       = tasks (S w)
         ++ (if text_delta_task (S w) then [] else [ProcessTextDeltas]).
Proof.
  intros (ev & (Hparse & ty & Hty & Hdelta) & Hd) Hopen.
  unfold forward_to_client_iteration.
  cbv [mbind M_bind lift modify mret M_ret gets create_task].
  rewrite Hparse, Hty, client_send_open by exact Hopen.
  rewrite Hdelta, Hd. cbn.
  destruct (text_delta_task (S w)) eqn:Htask; cbn;
    eexists; repeat split; rewrite ?app_nil_r; reflexivity || assumption.
Qed.

Lemma text_delta_loop (datas : list str) (deltas : list value) :
  Forall2 is_text_delta datas deltas ->
  forall (l : fc_locals) (w : world),
    closed (client_websocket (S w)) = None ->
    exists w',
      forward_to_client_loop l datas w = (Ok l, w')
      /\ closed (client_websocket (S w')) = None
      /\ text_delta_queue (S w') = text_delta_queue (S w) ++ deltas
      /\ text_delta_task (S w')
         = (text_delta_task (S w) || negb (bool_decide (datas = [])))
      /\ tasks (S w')
         = tasks (S w)
           ++ (if text_delta_task (S w) || bool_decide (datas = [])
               then [] else [ProcessTextDeltas]).
Proof.
  induction 1 as [|data delta datas deltas Hd _ IH]; intros l w Hopen.
  - exists w. rewrite (bool_decide_eq_true_2 (@nil str = [])) by reflexivity.
    cbn. rewrite !app_nil_r, orb_false_r, orb_true_r. cbn.
    rewrite app_nil_r. repeat split; assumption.
  - destruct (text_delta_iteration l data delta w Hd Hopen)
      as (w1 & Hit & Hopen1 & Hq1 & Ht1 & Htasks1).
    destruct (IH l w1 Hopen1) as (w2 & Hloop & Hopen2 & Hq2 & Ht2 & Htasks2).
    exists w2. cbn [forward_to_client_loop]. unfold mbind, M_bind.
    rewrite Hit, Hloop. split; [reflexivity|]. split; [exact Hopen2|].
    rewrite Hq2, Hq1, Ht2, Htasks2, Htasks1, Ht1, <- !app_assoc.
    cbn [orb app]. rewrite orb_true_r, app_nil_r.
    rewrite (bool_decide_eq_false_2 (data :: datas = [])) by discriminate.
    rewrite orb_false_r. repeat split.
Qed.

(** X15: over the text deltas of a turn, one or more, the pump starts the
    text-to-speech task exactly once, and not at all if one is already
    noted as running; the deltas join the queue in order, and
    [response.text.done] puts the [None] sentinel behind them and forgets
    the task. *)
Theorem one_tts_task_per_turn (l : fc_locals) (data : str) (datas : list str)
    (delta : value) (deltas : list value) (done_data : str) (w : world) :
  Forall2 is_text_delta (data :: datas) (delta :: deltas) ->
  is_text_done done_data ->
  closed (client_websocket (S w)) = None ->
  exists w',
    forward_to_client_loop l (data :: datas ++ [done_data]) w = (Ok l, w')
    /\ text_delta_queue (S w')
       = text_delta_queue (S w) ++ delta :: deltas ++ [JNull]
    /\ text_delta_task (S w') = false
    /\ tasks (S w')
       = tasks (S w)
         ++ (if text_delta_task (S w) then [] else [ProcessTextDeltas]).
Proof.
  intros Hdeltas (ev & Hparse & ty & Hty & Hdone) Hopen.
  destruct (text_delta_loop _ _ Hdeltas l w Hopen)
    as (w1 & Hloop & Hopen1 & Hq1 & _ & Htasks1).
  change (data :: datas ++ [done_data]) with ((data :: datas) ++ [done_data]).
  rewrite forward_to_client_loop_app, Hloop.
  cbn [forward_to_client_loop]. unfold mbind at 1, M_bind at 1.
  assert (Hit : exists w',
             forward_to_client_iteration l done_data w1 = (Ok l, w')
             /\ text_delta_queue (S w') = text_delta_queue (S w1) ++ [JNull]
             /\ text_delta_task (S w') = false
             /\ tasks (S w') = tasks (S w1)).
  { unfold forward_to_client_iteration.
    cbv [mbind M_bind lift modify mret M_ret gets create_task].
    rewrite Hparse, Hty, client_send_open by exact Hopen1.
    rewrite (eq_str_other ty _ _ Hdone) by discriminate. rewrite Hdone.
    eexists; repeat split. }
  destruct Hit as (w2 & Hit & Hq2 & Ht2 & Htasks2).
  exists w2. rewrite Hit. split; [reflexivity|].
  rewrite Hq2, Hq1, Htasks2, Htasks1, <- app_assoc.
  rewrite (bool_decide_eq_false_2 (data :: datas = [])) by discriminate.
  rewrite orb_false_r. repeat split; assumption.
Qed.

(** X16: [function_call_arguments.done] starts a handler only for a call
    that is tracked, and forgets the call when it does: with no call pending
    the event starts nothing, and a second [done] right after the first
    starts nothing either. *)
Theorem done_starts_at_most_one_handler (l : fc_locals)
    (done_data again : str) (w : world) :
  is_done done_data ->
  is_done again ->
  closed (client_websocket (S w)) = None ->
  let r := forward_to_client_loop l [done_data; again] w in
  fst r = Ok (if truthy (function_call l) then initial_locals else l)
  /\ tasks (S (snd r))
     = tasks (S w)
       ++ (if truthy (function_call l)
           then [HandleFunctionCall (function_call l) (function_call_args l)]
           else []).
Proof.
  intros Hdone Hagain Hopen. cbv zeta.
  assert (Hidle : forall l0 data w0,
             is_done data -> truthy (function_call l0) = false ->
             closed (client_websocket (S w0)) = None ->
             exists w1,
               forward_to_client_iteration l0 data w0 = (Ok l0, w1)
               /\ closed (client_websocket (S w1)) = None
               /\ tasks (S w1) = tasks (S w0)).
  { intros l0 data w0 (ev & Hparse & ty & Hty & Hd) Hnone Hopen0.
    unfold forward_to_client_iteration.
    cbv [mbind M_bind lift modify mret M_ret gets create_task].
    rewrite Hparse, Hty, client_send_open by exact Hopen0.
    rewrite !(eq_str_other ty _ _ Hd) by discriminate.
    rewrite Hd, Hnone. eexists; repeat split. }
  assert (Hloop : exists w2,
             forward_to_client_loop l [done_data; again] w
             = (Ok (if truthy (function_call l) then initial_locals else l), w2)
             /\ tasks (S w2)
                = tasks (S w)
                  ++ (if truthy (function_call l)
                      then [HandleFunctionCall (function_call l)
                              (function_call_args l)]
                      else [])).
  { cbn [forward_to_client_loop]. unfold mbind, M_bind.
    destruct (truthy (function_call l)) eqn:Htracked.
    - destruct (done_iteration l done_data w Hdone Htracked Hopen)
        as (w1 & Hit & Htasks).
      assert (Hopen1 : closed (client_websocket (S w1)) = None).
      { destruct Hdone as (ev & Hparse & ty & Hty & Hd).
        revert Hit. unfold forward_to_client_iteration.
        cbv [mbind M_bind lift modify mret M_ret gets create_task].
        rewrite Hparse, Hty, client_send_open by exact Hopen.
        rewrite !(eq_str_other ty _ _ Hd) by discriminate.
        rewrite Hd, Htracked. intros [= <-]. reflexivity. }
      destruct (Hidle initial_locals again w1 Hagain eq_refl Hopen1)
        as (w2 & Hit2 & _ & Htasks2).
      exists w2. rewrite Hit, Hit2. split; [reflexivity|]. congruence.
    - destruct (Hidle l done_data w Hdone Htracked Hopen)
        as (w1 & Hit & Hopen1 & Htasks1).
      destruct (Hidle l again w1 Hagain Htracked Hopen1)
        as (w2 & Hit2 & _ & Htasks2).
      exists w2. rewrite Hit, Hit2. split; [reflexivity|].
      rewrite app_nil_r. congruence. }
  destruct Hloop as (w2 & -> & Htasks). split; [reflexivity|exact Htasks].
Qed.

End pump.
End ClientPumpMore.

(** ** More on the tool call and on the TTS thread *)

Module ToolMore.
Import Voice Frame PumpProps ToolProps.

Section tool.
Context `{SciPy} `{Externals}.
Variable flow_id : str.

Lemma on_error_closed (fc call_id : value) (e0 e : exn) (w : world) :
  get fc (lit "call_id") JNull = Ok call_id ->
  closed (openai_ws (S w)) = Some e ->
  fst (on_error fc e0 w) = Raise e
  /\ openai_ws (S (snd (on_error fc e0 w))) = openai_ws (S w).
Proof.
  intros Hid Hclosed.
  unfold on_error, mbind, M_bind, lift, openai_send, socket_send.
  rewrite Hid, Hclosed. split; reflexivity.
Qed.

Lemma reply_closed (fc call_id : value) (result_ : str) (e : exn) (w : world) :
  get fc (lit "call_id") JNull = Ok call_id ->
  closed (openai_ws (S w)) = Some e ->
  fst (try_except (reply fc result_) (on_error fc) w) = Raise e
  /\ openai_ws (S (snd (try_except (reply fc result_) (on_error fc) w)))
     = openai_ws (S w).
Proof.
  intros Hid Hclosed.
  unfold try_except, reply, on_error, mbind, M_bind, lift, openai_send,
    socket_send.
  rewrite Hid, Hclosed. cbn. rewrite ?Hid, ?Hclosed. split; reflexivity.
Qed.

(** X17: with the upstream socket closed the handler cannot answer: it
    raises the exception of the socket, from inside its own [except] clause,
    and nothing is sent.  The flow may have run all the same. *)
Theorem handler_on_closed_socket (fc call_id : value) (args : str)
    (e : exn) (w : world) :
  get fc (lit "call_id") JNull = Ok call_id ->
  closed (openai_ws (S w)) = Some e ->
  let r := handle_function_call flow_id fc args w in
  fst r = Raise e /\ openai_ws (S (snd r)) = openai_ws (S w).
Proof.
  intros Hid Hclosed. cbv zeta.
  assert (Herr : forall e0 w',
             openai_ws (S w') = openai_ws (S w) ->
             fst (on_error fc e0 w') = Raise e
             /\ openai_ws (S (snd (on_error fc e0 w'))) = openai_ws (S w)).
  { intros e0 w' Hws. rewrite <- Hws.
    apply (on_error_closed fc call_id); [exact Hid|].
    rewrite Hws. exact Hclosed. }
  rewrite handle_function_call_cases. cbv zeta.
  destruct (prepare flow_id args _) as [[fid req]|e0];
    [|apply Herr; reflexivity].
  set (w2 := with_session _ (with_session _ w)).
  destruct (build_flow fid req) as [response|e0]; [|apply Herr; reflexivity].
  pose proof (body_loop_upstream (body_lines response) [] w2) as Hk.
  destruct (body_loop (body_lines response) [] w2) as [[result_|e0] w3];
    cbn [snd] in Hk; injection Hk as Hws _;
    change (openai_ws (S w2)) with (openai_ws (S w)) in Hws.
  - destruct (body_failure response) as [e0|]; [apply Herr; exact Hws|].
    rewrite <- Hws. apply (reply_closed fc call_id); [exact Hid|].
    rewrite Hws. exact Hclosed.
  - apply Herr. exact Hws.
Qed.

(** The progress frame sent to the client for an event of the flow. *)
Definition progress_frame (event_data : value) : frame :=
  Dumps (JDict ["type" :- jstr "flow.build.progress"; "data" :- event_data]).

(** A non-empty line that decodes to [event_data], and the text it adds to
    the result: the message text of an [end_vertex] event, nothing for any
    other event. *)
Definition progress_line (line : str) (event_data : value) (text : str)
  : Prop :=
  truthy_str line = true
  /\ json_loads line = Ok event_data
  /\ exists ev,
       get event_data (lit "event") JNull = Ok ev
       /\ ((eq_str ev (lit "end_vertex") = true
            /\ end_vertex_text event_data = Ok (JStr text))
           \/ (eq_str ev (lit "end_vertex") = false /\ text = [])).

(** The lines of a response, the events they decode to and the texts they
    add; empty lines count for nothing. *)
Inductive reads : list str -> list value -> list str -> Prop :=
| reads_nil : reads [] [] []
| reads_empty lines events texts :
    reads lines events texts -> reads ([] :: lines) events texts
| reads_event line lines event_data events text texts :
    progress_line line event_data text ->
    reads lines events texts ->
    reads (line :: lines) (event_data :: events) (text :: texts).

(** X18: over the lines of a response the handler skips the empty ones,
    passes every event to the client as a [flow.build.progress] frame, in
    order, and collects the message texts of the [end_vertex] events, in
    order, into the result. *)
Theorem body_loop_collects_text (lines : list str) (events : list value)
    (texts : list str) :
  reads lines events texts ->
  forall (result_ : str) (w : world),
    closed (client_websocket (S w)) = None ->
    let r := body_loop lines result_ w in
    fst r = Ok (result_ ++ concat texts)
    /\ closed (client_websocket (S (snd r))) = None
    /\ sent (client_websocket (S (snd r)))
       = sent (client_websocket (S w)) ++ map progress_frame events.
Proof.
  induction 1 as [|lines events texts _ IH
                  |line lines ev events text texts Hline _ IH];
    intros result_ w Hopen; cbv zeta.
  - cbn. rewrite !app_nil_r. repeat split. exact Hopen.
  - cbn [body_loop truthy_str negb]. apply IH. exact Hopen.
  - destruct Hline as (Htruthy & Hparse & e & Hev & Hkind).
    set (w1 := with_session
                 (set_client_websocket
                    {| closed := None;
                       sent := sent (client_websocket (S w))
                               ++ [progress_frame ev] |}) w).
    assert (Heq : body_loop (line :: lines) result_ w
                  = body_loop lines (result_ ++ text) w1).
    { cbn [body_loop]. rewrite Htruthy. cbn [negb].
      unfold mbind at 1, M_bind at 1, lift at 1. rewrite Hparse.
      unfold mbind at 1, M_bind at 1.
      fold (progress_frame ev). rewrite client_send_open by exact Hopen.
      unfold mbind at 1, M_bind at 1, lift at 1. rewrite Hev.
      fold w1.
      assert (Hstep : (if eq_str e (lit "end_vertex")
                       then lift (text_part ← end_vertex_text ev;
                                  str_iadd result_ text_part)
                       else mret result_) w1 = (Ok (result_ ++ text), w1)).
      { destruct Hkind as [[-> Htext]|[-> ->]].
        - unfold lift, mbind, result_bind, rbind. rewrite Htext. reflexivity.
        - rewrite app_nil_r. reflexivity. }
      unfold mbind at 1, M_bind at 1. rewrite Hstep. reflexivity. }
    rewrite Heq.
    destruct (IH (result_ ++ text) w1 eq_refl) as (Hr & Hc & Hs).
    cbn [concat map].
    split; [rewrite Hr, app_assoc; reflexivity|]. split; [exact Hc|].
    etransitivity; [exact Hs|]. cbn. rewrite <- app_assoc. reflexivity.
Qed.

(** X19: an [end_vertex] event whose [data] has no [build_data] stops the
    collection with [AttributeError]: the default for the missing key is a
    string, and the next [.get] is called on it.  The event has been passed
    to the client by then; the lines behind it are not read. *)
Theorem end_vertex_without_build_data (line : str) (event_data : value)
    (d : list (str * value)) (later : list str) (result_ : str) (w : world) :
  truthy_str line = true ->
  json_loads line = Ok event_data ->
  get event_data (lit "event") JNull = Ok (jstr "end_vertex") ->
  get event_data (lit "data") (JDict []) = Ok (JDict d) ->
  dict_lookup d (lit "build_data") = None ->
  closed (client_websocket (S w)) = None ->
  body_loop (line :: later) result_ w
  = (Raise (AttributeError (lit "'str' object has no attribute 'get'")),
     with_session
       (set_client_websocket
          {| closed := None;
             sent := sent (client_websocket (S w))
                     ++ [progress_frame event_data] |}) w).
Proof.
  intros Htruthy Hparse Hev Hdata Hmissing Hopen.
  cbn [body_loop]. rewrite Htruthy. cbn [negb].
  unfold mbind at 1, M_bind at 1, lift at 1. rewrite Hparse.
  unfold mbind at 1, M_bind at 1.
  fold (progress_frame event_data). rewrite client_send_open by exact Hopen.
  unfold mbind at 1, M_bind at 1, lift at 1. rewrite Hev.
  unfold mbind at 1, M_bind at 1.
  change (eq_str (jstr "end_vertex") (lit "end_vertex")) with true. cbv iota.
  unfold lift, end_vertex_text, mbind, result_bind, rbind.
  rewrite Hdata. cbn [get]. rewrite Hmissing. reflexivity.
Qed.

(** The frame that carries a chunk of synthesised audio to the client. *)
Definition audio_frame (chunk : bytes) : frame :=
  Dumps (JDict ["type" :- jstr "response.audio.delta";
                "delta" :- JStr (b64encode chunk)]).

Lemma send_audio_open (audio_stream : list bytes) :
  forall w,
    closed (client_websocket (S w)) = None ->
    fst (send_audio audio_stream w) = Ok tt
    /\ sent (client_websocket (S (snd (send_audio audio_stream w))))
       = sent (client_websocket (S w)) ++ map audio_frame audio_stream.
Proof.
  induction audio_stream as [|chunk rest IH]; intros w Hopen.
  - cbn. rewrite app_nil_r. split; reflexivity.
  - cbn [send_audio]. unfold mbind, M_bind. fold (audio_frame chunk).
    rewrite client_send_open by exact Hopen.
    set (w1 := with_session _ w).
    destruct (IH w1 eq_refl) as (Hr & Hs).
    destruct (send_audio rest w1) as [[u|e] w2]; cbn [fst snd] in *;
      [|discriminate].
    split; [exact Hr|]. rewrite Hs. cbn. rewrite <- app_assoc. reflexivity.
Qed.

Lemma send_audio_client (audio_stream : list bytes) :
  keeps (fun w => (openai_ws (S w), G w)) (send_audio audio_stream).
Proof.
  induction audio_stream as [|chunk rest IH]; cbn [send_audio]; keeps_auto.
  exact IH.
Qed.

(** X20: the synthesis never raises into the session.  When the call to the
    speech backend fails, nothing reaches the client; when it returns a
    stream, every audio chunk the stream yields goes to an open client socket
    as one [response.audio.delta] frame, in the order yielded, and the chunks
    yielded before the stream fails are delivered all the same.  The voice
    and the model are the module variables at that moment. *)
Theorem run_tts_delivers_in_order (text : list str) (w : world) :
  let r := run_tts text w in
  fst r = Ok tt
  /\ match generate (elevenlabs_voice (G w)) (elevenlabs_model (G w)) text with
     | Ok audio_stream =>
         closed (client_websocket (S w)) = None ->
         sent (client_websocket (S (snd r)))
         = sent (client_websocket (S w))
           ++ map audio_frame (audio_chunks audio_stream)
     | Raise _ => client_websocket (S (snd r)) = client_websocket (S w)
     end.
Proof.
  cbv zeta. unfold run_tts, try_except.
  cbv [mbind M_bind gets modify lift].
  set (w1 := with_session _ w).
  destruct (generate _ _ text) as [audio|e]; [|split; reflexivity].
  split.
  - destruct (send_audio (audio_chunks audio) w1) as [[u|e] w2];
      [destruct (audio_failure audio)|]; reflexivity.
  - intros Hopen.
    destruct (send_audio_open (audio_chunks audio) w1 Hopen) as (Hr & Hs).
    destruct (send_audio (audio_chunks audio) w1) as [[u|e] w2];
      cbn [fst snd] in *; [|discriminate].
    destruct (audio_failure audio); exact Hs.
Qed.

End tool.
End ToolMore.

(** ** The further properties on concrete inputs *)

Module MoreExamples.
Import Voice VoiceLoops PumpProps ToolProps.
Import VadMore PumpMore ClientPumpMore ToolMore.

Definition E : Externals := Ref.externals Ref.echo_flow.

Definition w0 : world := initial_world initial_globals JNull.

(** A session whose upstream socket has gone away. *)
Definition gone : exn := ConnectionClosed (lit "no close frame received or sent").

Definition w_closed : world :=
  with_session (set_openai_ws {| closed := Some gone; sent := [] |})
    (with_session (set_bot_speaking_flag true) w0).

Lemma vad_pass_on_closed_socket_witness :
  let w' := snd (@vad_pass Ref.scipy E
                   (JStr (Ref.b64encode (repeat Byte.x01 1000))) w_closed) in
  sent (openai_ws (S w')) = sent (openai_ws (S w_closed))
  /\ bot_speaking_flag (S w') = bot_speaking_flag (S w_closed).
Proof.
  apply (@vad_pass_on_closed_socket Ref.scipy E
           (JStr (Ref.b64encode (repeat Byte.x01 1000))) w_closed gone).
  reflexivity.
Defined.

(** An audio message without a payload. *)
Definition append_nothing : str :=
  Ref.dumps (JDict ["type" :- jstr "input_audio_buffer.append"]).

Lemma empty_audio_is_dropped_witness :
  let r := forward_to_openai_iteration (H0 := E) JNull append_nothing w0 in
  fst r = Ok tt
  /\ openai_ws (S (snd r)) = openai_ws (S w0)
  /\ vad_queue (S (snd r)) = vad_queue (S w0)
  /\ G (snd r) = G w0.
Proof.
  apply (empty_audio_is_dropped (H0 := E) JNull append_nothing
           (JDict ["type" :- jstr "input_audio_buffer.append"]) (JStr []) w0);
    [split; [reflexivity|eexists; split; reflexivity]
    | reflexivity | reflexivity].
Defined.

(** A message of a type the pump does not know. *)
Definition commit_message : str :=
  Ref.dumps (JDict ["type" :- jstr "input_audio_buffer.commit"]).

Lemma other_messages_pass_verbatim_witness :
  forward_to_openai_iteration (H0 := E) JNull commit_message w0
  = openai_send (Text commit_message) w0
  /\ let w' := snd (forward_to_openai_iteration (H0 := E) JNull
                      commit_message w0) in
     vad_queue (S w') = vad_queue (S w0)
     /\ G w' = G w0
     /\ (closed (openai_ws (S w0)) = None ->
         sent (openai_ws (S w'))
         = sent (openai_ws (S w0)) ++ [Text commit_message]).
Proof.
  apply (other_messages_pass_verbatim (H0 := E) JNull commit_message
           (JDict ["type" :- jstr "input_audio_buffer.commit"])
           (jstr "input_audio_buffer.commit") w0); reflexivity.
Defined.

(** A configuration message that names no voice. *)
Definition config_no_voice : str :=
  Ref.dumps (JDict ["type" :- jstr "elevenlabs.config";
                    "enabled" :- JBool true]).

Lemma config_without_voice_ends_the_pump_witness :
  forward_to_openai (H0 := E) JNull [config_no_voice; commit_message] w0
  = (Raise (KeyError (lit "voice_id")),
     with_globals (set_use_elevenlabs (JBool true)) w0).
Proof.
  apply (config_without_voice_ends_the_pump (H0 := E) JNull config_no_voice
           ["type" :- jstr "elevenlabs.config"; "enabled" :- JBool true]
           (JBool true) [commit_message] w0);
    [split; [reflexivity|eexists; split; reflexivity]
    | reflexivity | reflexivity].
Defined.

(** An upstream event of a type the pump has no branch for. *)
Definition rate_limits : str :=
  Ref.dumps (JDict ["type" :- jstr "rate_limits.updated"]).

Lemma events_reach_the_client_witness :
  let w' := snd (forward_to_client_iteration (H0 := E) initial_locals
                   rate_limits w0) in
  sent (client_websocket (S w'))
  = sent (client_websocket (S w0)) ++ [Text rate_limits; Text rate_limits].
Proof.
  apply (events_reach_the_client (H0 := E) initial_locals rate_limits
           (JDict ["type" :- jstr "rate_limits.updated"])
           (jstr "rate_limits.updated") w0); reflexivity.
Defined.

Definition text_delta (d : string) : str :=
  Ref.dumps (JDict ["type" :- jstr "response.text.delta"; "delta" :- jstr d]).

Definition text_done : str :=
  Ref.dumps (JDict ["type" :- jstr "response.text.done"]).

Lemma text_delta_is (d : string) :
  is_text_delta (H0 := E) (text_delta "Hello") (jstr "Hello")
  /\ is_text_delta (H0 := E) (text_delta " world") (jstr " world").
Proof.
  split; (eexists; split; [split; [reflexivity|eexists; split; reflexivity]
                          |reflexivity]).
Defined.

Lemma one_tts_task_per_turn_witness :
  exists w',
    forward_to_client_loop (H0 := E) initial_locals
      (text_delta "Hello" :: [text_delta " world"] ++ [text_done]) w0
    = (Ok initial_locals, w')
    /\ text_delta_queue (S w')
       = text_delta_queue (S w0)
         ++ jstr "Hello" :: [jstr " world"] ++ [JNull]
    /\ text_delta_task (S w') = false
    /\ tasks (S w')
       = tasks (S w0)
         ++ (if text_delta_task (S w0) then [] else [ProcessTextDeltas]).
Proof.
  apply (one_tts_task_per_turn (H0 := E) initial_locals (text_delta "Hello")
           [text_delta " world"] (jstr "Hello") [jstr " world"] text_done w0).
  - constructor; [exact (proj1 (text_delta_is ""))|].
    constructor; [exact (proj2 (text_delta_is ""))|constructor].
  - eexists; split; [reflexivity|eexists; split; reflexivity].
  - reflexivity.
Defined.

Definition args_done : str :=
  Ref.dumps (JDict ["type" :- jstr "response.function_call_arguments.done"]).

Lemma args_done_is_done : is_done (H0 := E) args_done.
Proof. eexists; split; [reflexivity|eexists; split; reflexivity]. Defined.

Definition pending : fc_locals :=
  {| function_call := JDict ["type" :- jstr "function_call";
                             "call_id" :- jstr "call_1"];
     function_call_args := lit "{}" |}.

Lemma done_starts_at_most_one_handler_witness :
  let r := forward_to_client_loop (H0 := E) pending [args_done; args_done] w0 in
  fst r = Ok (if truthy (function_call pending) then initial_locals else pending)
  /\ tasks (S (snd r))
     = tasks (S w0)
       ++ (if truthy (function_call pending)
           then [HandleFunctionCall (function_call pending)
                   (function_call_args pending)]
           else []).
Proof.
  apply (done_starts_at_most_one_handler (H0 := E) pending args_done args_done
           w0 args_done_is_done args_done_is_done).
  reflexivity.
Defined.

Definition a_flow_id : str := lit "123e4567-e89b-12d3-a456-426614174000".

Lemma handler_on_closed_socket_witness :
  let r := handle_function_call (H0 := E) a_flow_id (function_call pending)
             (lit "{}") w_closed in
  fst r = Raise gone /\ openai_ws (S (snd r)) = openai_ws (S w_closed).
Proof.
  apply (handler_on_closed_socket (H0 := E) a_flow_id (function_call pending)
           (jstr "call_1") (lit "{}") gone w_closed); reflexivity.
Defined.

(** A response of three lines: an event of another kind, an empty line, and
    an [end_vertex] event with a message text. *)
Definition started : value := JDict ["event" :- jstr "vertices_sorted"].
Definition finished : value :=
  JDict ["event" :- jstr "end_vertex";
         "data" :- JDict ["build_data" :- JDict ["data" :-
           JDict ["results" :- JDict ["message" :-
             JDict ["text" :- jstr "done"]]]]]].

Lemma three_lines_read :
  reads (H0 := E) [Ref.dumps started; []; Ref.dumps finished]
    [started; finished] [[]; lit "done"].
Proof.
  constructor.
  - split; [reflexivity|]. split; [reflexivity|].
    eexists; split; [reflexivity|]. right. split; reflexivity.
  - constructor. constructor; [|constructor].
    split; [reflexivity|]. split; [reflexivity|].
    eexists; split; [reflexivity|]. left. split; reflexivity.
Defined.

Lemma body_loop_collects_text_witness :
  let r := body_loop (H0 := E)
             [Ref.dumps started; []; Ref.dumps finished] [] w0 in
  fst r = Ok ([] ++ concat [[]; lit "done"])
  /\ closed (client_websocket (S (snd r))) = None
  /\ sent (client_websocket (S (snd r)))
     = sent (client_websocket (S w0))
       ++ map progress_frame [started; finished].
Proof.
  apply (body_loop_collects_text (H0 := E) _ _ _ three_lines_read [] w0).
  reflexivity.
Defined.

(** An [end_vertex] event whose data holds no [build_data]. *)
Definition bare_end : value :=
  JDict ["event" :- jstr "end_vertex"; "data" :- JDict ["id" :- jstr "n1"]].

Lemma end_vertex_without_build_data_witness :
  body_loop (H0 := E) [Ref.dumps bare_end; Ref.dumps finished] [] w0
  = (Raise (AttributeError (lit "'str' object has no attribute 'get'")),
     with_session
       (set_client_websocket
          {| closed := None;
             sent := sent (client_websocket (S w0))
                     ++ [progress_frame bare_end] |}) w0).
Proof.
  apply (end_vertex_without_build_data (H0 := E) (Ref.dumps bare_end) bare_end
           ["id" :- jstr "n1"] [Ref.dumps finished] [] w0); reflexivity.
Defined.

End MoreExamples.

(** ** The speech client cache and the session setup *)

Module ClientKey.
Import TtsClient.




(** X22: with no stored variable and an environment variable that is unset
    or empty, the call reports the missing key to the client, once, and
    hands out no client.  An empty environment variable is kept as the key
    all the same: the next call builds a client with the empty key, without
    asking again and without a report, whoever calls. *)
Theorem empty_env_key_is_cached (env : option str) (s : state) :
  elevenlabs_client s = None ->
  elevenlabs_key s = None ->
  closed (client_websocket s) = None ->
  no_key env = true ->
  let r := get_or_create_elevenlabs_client NoSuchVariable env s in
  fst r = Ok None
  /\ elevenlabs_client (snd r) = None
  /\ elevenlabs_key (snd r) = env
  /\ sent (client_websocket (snd r))
     = sent (client_websocket s) ++ [Dumps elevenlabs_key_missing]
  /\ (env = Some [] ->
      forall (lk' : variable_lookup) (env' : option str),
        let r' := get_or_create_elevenlabs_client lk' env' (snd r) in
        fst r' = Ok (Some {| api_key := Some [] |})
        /\ client_websocket (snd r') = client_websocket (snd r)).
Proof.
  intros Hc Hk Hopen Hno.
  unfold get_or_create_elevenlabs_client.
  rewrite Hc, Hk, Hno. unfold socket_send. cbn [client_websocket].
  rewrite Hopen. cbn.
  do 4 (split; [reflexivity|]).
  intros -> lk' env'. cbn. split; reflexivity.
Qed.


(** A session with an open client socket and nothing cached, and one with
    the client of an earlier caller. *)
Definition fresh : state :=
  {| elevenlabs_client := None; elevenlabs_key := None;
     client_websocket := {| closed := None; sent := [] |} |}.


Lemma empty_env_key_is_cached_witness :
  let r := get_or_create_elevenlabs_client NoSuchVariable (Some []) fresh in
  fst r = Ok None
  /\ elevenlabs_client (snd r) = None
  /\ elevenlabs_key (snd r) = Some []
  /\ sent (client_websocket (snd r))
     = sent (client_websocket fresh) ++ [Dumps elevenlabs_key_missing]
  /\ (@Some str [] = Some [] ->
      forall (lk' : variable_lookup) (env' : option str),
        let r' := get_or_create_elevenlabs_client lk' env' (snd r) in
        fst r' = Ok (Some {| api_key := Some [] |})
        /\ client_websocket (snd r') = client_websocket (snd r)).
Proof.
  apply (empty_env_key_is_cached (Some []) fresh); reflexivity.
Defined.


End ClientKey.

Module SetupProps.
Import TtsClient ToolSetup.

Lemma load_flow_ready (key : option str) (fd : result value)
    (client client' : socket) (k : str) (tool : value) :
  load_flow key fd client = (Ready k tool, client')
  <-> key = Some k
      /\ (exists d, fd = Ok d /\ tool = make_flow_tool d)
      /\ client' = client.
Proof.
  unfold load_flow. split.
  - destruct fd as [d|e].
    + destruct key as [key|]; [|discriminate].
      intros Heq. injection Heq as <- <- <-.
      split; [reflexivity|]. split; [|reflexivity].
      exists d. split; reflexivity.
    + destruct (socket_send _ _) as [[u|e'] sock]; discriminate.
  - intros [-> [[d [-> ->]] ->]]. reflexivity.
Qed.

(** X24: the setup is ready to connect upstream exactly when a key is there
    and the flow description loaded: the key is the stored variable, or,
    the variable missing, the environment variable if that is neither empty
    nor the word dummy.  Nothing has then been sent to the client. *)
Theorem setup_ready_iff (lk : variable_lookup) (env : option str)
    (fd : result value) (client client' : socket) (k : str) (tool : value) :
  setup lk env fd client = (Ready k tool, client')
  <-> (lk = Found k
       \/ (lk = NoSuchVariable /\ env = Some k /\ unusable (Some k) = false))
      /\ (exists d, fd = Ok d /\ tool = make_flow_tool d)
      /\ client' = client.
Proof.
  unfold setup. destruct lk as [stored| |e].
  - rewrite load_flow_ready. split.
    + intros [Hk [Hd Hc]]. injection Hk as ->.
      split; [left; reflexivity|]. split; assumption.
    + intros [[Hk|[Hk _]] [Hd Hc]]; [|discriminate].
      injection Hk as ->. split; [reflexivity|]. split; assumption.
  - destruct (unusable env) eqn:Hun.
    + split.
      * destruct (socket_send _ _) as [[u|e'] sock]; discriminate.
      * intros [[Hk|[_ [-> Hk]]] _]; [discriminate|]. congruence.
    + rewrite load_flow_ready. split.
      * intros [-> [Hd Hc]].
        split; [right; repeat split; assumption|]. split; assumption.
      * intros [[Hk|[_ [-> _]]] [Hd Hc]]; [discriminate|].
        split; [reflexivity|]. split; assumption.
  - rewrite load_flow_ready. split.
    + intros [Hk _]. discriminate.
    + intros [[Hk|[Hk _]] _]; discriminate.
Qed.

(** X25: with the client connected the setup never raises from a send.  It
    returns early exactly when it has sent the client one error frame, and
    it stops on the unassigned [openai_key] exactly when the variable
    service failed in another way than by a missing variable and the flow
    description loaded: the client is then told nothing. *)
Theorem setup_failures (lk : variable_lookup) (env : option str)
    (fd : result value) (client : socket) :
  closed client = None ->
  let r := setup lk env fd client in
  (fst r = UnboundOpenaiKey
   <-> (exists e, lk = LookupFailed e) /\ (exists d, fd = Ok d))
  /\ (fst r = ReturnedEarly
      <-> exists v, snd r = {| closed := None;
                               sent := sent client ++ [Dumps v] |})
  /\ (fst r <> ReturnedEarly -> snd r = client)
  /\ forall e, fst r <> Raised e.
Proof.
  intros Hopen.
  assert (Hneq : forall v, client <> {| closed := None;
                                        sent := sent client ++ [Dumps v] |}).
  { intros v Heq. apply (f_equal (fun s => length (sent s))) in Heq.
    cbn in Heq. rewrite length_app in Heq. cbn in Heq. lia. }
  unfold setup, load_flow, socket_send. rewrite Hopen.
  destruct lk as [stored| |e]; [| destruct (unusable env) eqn:Hun |];
    [destruct fd as [d|e0] | | destruct env as [k|]; destruct fd as [d|e0]
     | destruct fd as [d|e0]]; cbn;
    repeat split;
    try discriminate; try congruence;
    try (intros [[e' He'] _]; discriminate);
    try (intros [_ [d' Hd']]; discriminate);
    try (intros _; eexists; reflexivity);
    try (intros [v Hv]; exfalso; exact (Hneq v Hv));
    try (intros _; split; eexists; reflexivity);
    try (eexists; reflexivity).
Qed.

Lemma setup_failures_witness :
  let r := setup (LookupFailed (RuntimeError (lit "database is locked")))
             (Some (lit "sk-env")) (Ok (jstr "Answers questions"))
             {| closed := None; sent := [] |} in
  (fst r = UnboundOpenaiKey
   <-> (exists e, LookupFailed (RuntimeError (lit "database is locked"))
                  = LookupFailed e)
       /\ (exists d, Ok (jstr "Answers questions") = Ok d))
  /\ (fst r = ReturnedEarly
      <-> exists v, snd r = {| closed := None; sent := [] ++ [Dumps v] |})
  /\ (fst r <> ReturnedEarly -> snd r = {| closed := None; sent := [] |})
  /\ forall e, fst r <> Raised e.
Proof.
  apply (setup_failures
           (LookupFailed (RuntimeError (lit "database is locked")))
           (Some (lit "sk-env")) (Ok (jstr "Answers questions"))
           {| closed := None; sent := [] |}).
  reflexivity.
Defined.

End SetupProps.

(** ** The event endpoint *)

Module EndpointProps.
Import Voice AudioEndpoint.

Section endpoint.
Context `{Externals}.
Variable json_dumps : value -> str.
Variable safe_build_flow : str -> InputValueRequest -> result StreamingResponse.
Variable flow_id : str.

(** *** The [ChatInput] lookup *)

Lemma chat_input_is_dict (node : value) (b : bool) :
  is_chat_input node = Ok b -> exists d, node = JDict d.
Proof.
  destruct node; try discriminate. intros _. eexists; reflexivity.
Qed.

Lemma find_chat_input_skips (before after : list value) (node : value) :
  Forall (fun n => is_chat_input n = Ok false) before ->
  is_chat_input node = Ok true ->
  find_chat_input (before ++ node :: after) = get node (lit "id") JNull.
Proof.
  intros Hbefore Hnode. induction Hbefore as [|n before Hn _ IH]; cbn.
  - rewrite Hnode. reflexivity.
  - rewrite Hn. exact IH.
Qed.

Lemma find_chat_input_none (nodes : list value) :
  Forall (fun n => is_chat_input n = Ok false) nodes ->
  find_chat_input nodes = Ok JNull.
Proof.
  intros Hnodes. induction Hnodes as [|n nodes Hn _ IH]; cbn.
  - reflexivity.
  - rewrite Hn. exact IH.
Qed.

(** X26: the lookup stops at the first [ChatInput] node.  Its [id] decides:
    the stream starts with it if it is truthy, and the socket is closed
    with 4004 if it is missing or empty.  The nodes after it are not looked
    at, whatever they are. *)
Theorem first_chat_input_decides (flow_data node : value)
    (before after : list value) :
  get flow_data (lit "nodes") (JList [])
  = Ok (JList (before ++ node :: after)) ->
  Forall (fun n => is_chat_input n = Ok false) before ->
  is_chat_input node = Ok true ->
  exists id,
    get node (lit "id") JNull = Ok id
    /\ open_stream flow_data
       = Ok (if truthy id then Streaming id else NoChatInput).
Proof.
  intros Hnodes Hbefore Hnode.
  destruct (chat_input_is_dict _ _ Hnode) as [d ->].
  eexists. split; [reflexivity|].
  unfold open_stream. rewrite Hnodes. cbn [mbind result_bind rbind iterate].
  rewrite (find_chat_input_skips before after _ Hbefore Hnode).
  reflexivity.
Qed.

(** X27: a flow none of whose nodes is a [ChatInput], and so a flow with
    no nodes at all or without the [nodes] key, is refused: the socket is
    closed with 4004 and no event is read. *)
Theorem no_chat_input_closes (flow_data : value) (nodes : list value) :
  get flow_data (lit "nodes") (JList []) = Ok (JList nodes) ->
  Forall (fun n => is_chat_input n = Ok false) nodes ->
  open_stream flow_data = Ok NoChatInput.
Proof.
  intros Hnodes Hnone.
  unfold open_stream. rewrite Hnodes. cbn [mbind result_bind rbind iterate].
  rewrite (find_chat_input_none nodes Hnone). reflexivity.
Qed.

(** *** The receiving loop *)

(** A message the loop puts on the queue: a JSON object whose [type] is not
    [end_stream]. *)
Definition queued (message : value) : Prop :=
  exists ty, get message (lit "type") JNull = Ok ty
             /\ eq_str ty (lit "end_stream") = false.

Lemma receive_loop_app (before : list value) (rest : list (result value)) :
  Forall queued before ->
  receive_loop (map Ok before ++ rest)
  = (before ++ fst (receive_loop rest), snd (receive_loop rest)).
Proof.
  intros Hbefore.
  induction Hbefore as [|m before [ty [Hty Hne]] _ IH];
    cbn [map app receive_loop].
  - destruct (receive_loop rest); reflexivity.
  - rewrite Hty, Hne, IH. reflexivity.
Qed.

(** X28: the loop ends at the first [end_stream] message.  The messages
    received before it are on the queue, in the order received; the
    [end_stream] message is not, and nothing after it is read. *)
Theorem receive_stops_at_end_stream (before : list value) (last_ ty : value)
    (after : list (result value)) :
  Forall queued before ->
  get last_ (lit "type") JNull = Ok ty ->
  eq_str ty (lit "end_stream") = true ->
  receive_loop (map Ok before ++ Ok last_ :: after) = (before, None).
Proof.
  intros Hbefore Hty Hend.
  rewrite (receive_loop_app before _ Hbefore). cbn [receive_loop].
  rewrite Hty, Hend. cbn [fst snd]. rewrite app_nil_r. reflexivity.
Qed.

(** X29: a message that is valid JSON but not an object ends the stream as
    well: the messages before it stay on the queue, nothing after it is
    read, and the client, if connected, is sent one error frame with the
    text of the exception. *)
Theorem malformed_message_ends_the_stream (before : list value) (bad : value)
    (e : exn) (after : list (result value)) (w : world) :
  Forall queued before ->
  get bad (lit "type") JNull = Raise e ->
  closed (client_websocket (S w)) = None ->
  receive_loop (map Ok before ++ Ok bad :: after) = (before, Some e)
  /\ after_receive (Some e) w
     = (Ok tt,
        with_session
          (set_client_websocket
             {| closed := None;
                sent := sent (client_websocket (S w))
                        ++ [Dumps (receive_error e)] |}) w).
Proof.
  intros Hbefore Hbad Hopen. split.
  - rewrite (receive_loop_app before _ Hbefore). cbn [receive_loop].
    rewrite Hbad. cbn [fst snd]. rewrite app_nil_r. reflexivity.
  - assert (He : exists m, e = AttributeError m).
    { destruct bad; cbn in Hbad; try discriminate;
        injection Hbad as <-; eexists; reflexivity. }
    destruct He as [m ->].
    unfold after_receive, try_except, client_send, socket_send.
    rewrite Hopen. reflexivity.
Qed.

(** *** [process_events] *)

(** The request built for an event, and how running it ends: with the text
    read from the response, or with the exception of the call or of the
    reading. *)
Definition request_for (chat_input_id websocket_session_id : str)
    (event : value) : InputValueRequest :=
  {| input_value := JStr (json_dumps event);
     components := [chat_input_id];
     type_ := lit "any";
     session := websocket_session_id |}.

Definition outcome (fid : str) (r : InputValueRequest) : result str :=
  response ← safe_build_flow fid r;
  read_response response.

Definition error_frame (fid : str) (r : InputValueRequest) : option frame :=
  match outcome fid r with
  | Ok _ => None
  | Raise e => Some (Dumps (flow_processing_error e))
  end.

Lemma process_event_open (cid sid fid : str) (event : value) (w : world) :
  closed (client_websocket (S w)) = None ->
  validate_request (request_for cid sid event) = Ok tt ->
  UUID flow_id = Ok fid ->
  let r := process_event json_dumps safe_build_flow flow_id cid sid event w in
  fst r = Ok false
  /\ closed (client_websocket (S (snd r))) = None
  /\ flow_calls (S (snd r))
     = flow_calls (S w) ++ [(fid, request_for cid sid event)]
  /\ sent (client_websocket (S (snd r)))
     = sent (client_websocket (S w))
       ++ match error_frame fid (request_for cid sid event) with
          | Some fr => [fr]
          | None => []
          end.
Proof.
  intros Hopen Hvalid Huuid.
  unfold process_event, new_InputValueRequest, call_safe_build_flow,
    error_frame, outcome, try_except, lift, modify, client_send, socket_send,
    mbind, M_bind, result_bind, rbind, mret, M_ret.
  fold (request_for cid sid event). rewrite Hvalid, Huuid. cbn.
  destruct (safe_build_flow fid (request_for cid sid event)) as [response|e];
    cbn.
  - destruct (read_response response) as [text|e]; cbn.
    + rewrite app_nil_r. repeat split; assumption.
    + rewrite Hopen. cbn. repeat split.
  - rewrite Hopen. cbn. repeat split.
Qed.

(** X30: an event whose flow run fails does not stop the stream.  With the
    client connected, every event queued before the end marker is run
    through the flow once, in order, as a request in the JSON text of the
    event addressed to the [ChatInput] component within the session of the
    connection; for each run that fails the client is sent one error frame,
    and nothing else is sent.  What is queued after the marker is not
    run. *)
Theorem failing_events_do_not_stop_the_stream (cid sid fid : str)
    (events : list value) (more : list (option value)) (w : world) :
  closed (client_websocket (S w)) = None ->
  Forall (fun ev => validate_request (request_for cid sid ev) = Ok tt)
    events ->
  UUID flow_id = Ok fid ->
  let r := process_events json_dumps safe_build_flow flow_id cid sid
             (map Some events ++ None :: more) w in
  fst r = Ok tt
  /\ flow_calls (S (snd r))
     = flow_calls (S w)
       ++ map (fun ev => (fid, request_for cid sid ev)) events
  /\ sent (client_websocket (S (snd r)))
     = sent (client_websocket (S w))
       ++ omap (fun ev => error_frame fid (request_for cid sid ev)) events.
Proof.
  intros Hopen Hvalid Huuid. revert w Hopen.
  induction Hvalid as [|ev events Hev _ IH]; intros w Hopen.
  - cbn. rewrite !app_nil_r. repeat split.
  - destruct (process_event_open cid sid fid ev w Hopen Hev Huuid)
      as [Hr [Hopen' [Hcalls Hsent]]].
    cbn [map app process_events].
    unfold mbind, M_bind.
    destruct (process_event json_dumps safe_build_flow flow_id cid sid ev w)
      as [r1 w1].
    cbn [fst snd] in Hr, Hopen', Hcalls, Hsent. subst r1.
    destruct (IH w1 Hopen') as [Hok [Hcalls' Hsent']].
    split; [exact Hok|]. split.
    + rewrite Hcalls', Hcalls, <- app_assoc. reflexivity.
    + rewrite Hsent', Hsent, <- app_assoc. f_equal.
      unfold omap. cbn [list_omap].
      destruct (error_frame fid (request_for cid sid ev)); reflexivity.
Qed.

End endpoint.
End EndpointProps.

(** ** The event endpoint on concrete inputs *)

Module EndpointExamples.
Import Voice AudioEndpoint EndpointProps.

(** A flow of three nodes: a note, a chat input, and an entry that is not a
    node at all. *)
Definition note_node : value :=
  JDict ["id" :- jstr "Note-1"; "data" :- JDict ["type" :- jstr "Note"]].
Definition chat_node : value :=
  JDict ["id" :- jstr "ChatInput-1";
         "data" :- JDict ["type" :- jstr "ChatInput"]].
Definition a_flow : value :=
  JDict ["nodes" :- JList [note_node; chat_node; JInt 7]].

Lemma first_chat_input_decides_witness :
  exists id,
    get chat_node (lit "id") JNull = Ok id
    /\ open_stream a_flow = Ok (if truthy id then Streaming id else NoChatInput).
Proof.
  apply (first_chat_input_decides a_flow chat_node [note_node] [JInt 7]).
  - reflexivity.
  - repeat constructor.
  - reflexivity.
Defined.

Lemma no_chat_input_closes_witness :
  open_stream (JDict ["name" :- jstr "empty"]) = Ok NoChatInput.
Proof.
  apply (no_chat_input_closes (JDict ["name" :- jstr "empty"]) []).
  - reflexivity.
  - constructor.
Defined.

(** Two events, the request to end the stream, and what a client might
    send after it. *)
Definition first_event : value :=
  JDict ["type" :- jstr "transcript"; "text" :- jstr "hello"].
Definition second_event : value := JDict ["text" :- jstr "no type"].
Definition end_stream : value := JDict ["type" :- jstr "end_stream"].

Lemma events_are_queued : Forall queued [first_event; second_event].
Proof.
  repeat constructor; eexists; split; reflexivity.
Defined.

Lemma receive_stops_at_end_stream_witness :
  receive_loop
    (map Ok [first_event; second_event]
     ++ Ok end_stream :: [Ok first_event; Ok (JInt 3)])
  = ([first_event; second_event], None).
Proof.
  apply (receive_stops_at_end_stream [first_event; second_event] end_stream
           (jstr "end_stream") [Ok first_event; Ok (JInt 3)]).
  - exact events_are_queued.
  - reflexivity.
  - reflexivity.
Defined.

Definition w0 : world := initial_world initial_globals JNull.

Lemma malformed_message_ends_the_stream_witness :
  receive_loop (map Ok [first_event; second_event]
                ++ Ok (JList []) :: [Ok first_event])
  = ([first_event; second_event],
     Some (AttributeError (lit "'list' object has no attribute 'get'")))
  /\ after_receive
       (Some (AttributeError (lit "'list' object has no attribute 'get'"))) w0
     = (Ok tt,
        with_session
          (set_client_websocket
             {| closed := None;
                sent := sent (client_websocket (S w0))
                        ++ [Dumps (receive_error
                                     (AttributeError
                                        (lit "'list' object has no attribute 'get'")))] |})
          w0).
Proof.
  apply (malformed_message_ends_the_stream [first_event; second_event]
           (JList []) (AttributeError (lit "'list' object has no attribute 'get'"))
           [Ok first_event] w0).
  - exact events_are_queued.
  - reflexivity.
  - reflexivity.
Defined.

(** A backend that fails on an event without a [type] and answers the
    others. *)
Definition moody_flow (fid : str) (inputs : InputValueRequest)
  : result StreamingResponse :=
  match input_value inputs with
  | JStr s =>
      match Ref.loads s with
      | Ok event =>
          match get event (lit "type") JNull with
          | Ok JNull => Raise (RuntimeError (lit "no type"))
          | _ => Ref.echo_flow fid inputs
          end
      | Raise e => Raise e
      end
  | _ => Ref.echo_flow fid inputs
  end.

Definition E : Externals := Ref.externals moody_flow.
Definition a_flow_id : str := lit "123e4567-e89b-12d3-a456-426614174000".
Definition a_session : str := lit "00000000-0000-4000-8000-0".

Lemma failing_events_do_not_stop_the_stream_witness :
  let r := process_events (H := E) Ref.dumps moody_flow a_flow_id
             (lit "ChatInput-1") a_session
             (map Some [first_event; second_event; first_event]
              ++ None :: [Some second_event]) w0 in
  fst r = Ok tt
  /\ flow_calls (S (snd r))
     = flow_calls (S w0)
       ++ map (fun ev => (a_flow_id,
                          request_for Ref.dumps (lit "ChatInput-1") a_session ev))
            [first_event; second_event; first_event]
  /\ sent (client_websocket (S (snd r)))
     = sent (client_websocket (S w0))
       ++ omap (fun ev =>
                  error_frame (H := E) moody_flow a_flow_id
                    (request_for Ref.dumps (lit "ChatInput-1") a_session ev))
            [first_event; second_event; first_event].
Proof.
  apply (failing_events_do_not_stop_the_stream (H := E) Ref.dumps moody_flow
           a_flow_id (lit "ChatInput-1") a_session a_flow_id
           [first_event; second_event; first_event] [Some second_event] w0).
  - reflexivity.
  - repeat constructor.
  - reflexivity.
Defined.

End EndpointExamples.
